(** * BCSFE: record codec, bounded field editor, versioned asset fetcher

    A shallow embedding of
      - [bcsfe/core/game/map/enigma.py]       ([Stage], [Enigma]),
      - [bcsfe/cli/dialog_creator.py]         ([IntInput], [ChoiceInput],
                                               [MultiEditor]),
      - [bcsfe/core/server/game_data_getter.py] ([GameDataGetter]),
    together with the properties of these modules that the specification
    states.  Python integers are [Z]; a byte is a [Z] in [0, 256); Python
    exceptions are the [Raise] results of a small error monad. *)

From stdpp Require Import gmap strings list fin_maps sorting.
From Stdlib Require Import ZArith Lia Ascii.

Local Open Scope Z_scope.

(** ** Python exceptions *)

Inductive exn : Type :=
| IndexError
| ZeroDivisionError
| EOFError
| RecursionError
| FileNotFoundError
| RequestException.

Inductive res (A : Type) : Type :=
| Ok (a : A)
| Raise (e : exn).
Arguments Ok {A} a.
Arguments Raise {A} e.

(** ** The binary cursor *)

Module Data.

(** Modelled from the spec: the Binary Cursor ([core.Data]) is not among the
    sources.  The spec gives it as a sequential reader/writer over a byte
    buffer with byte-offset tracking, with fixed-width integer (32-bit
    signed), byte (one byte, counts up to 255), boolean and double
    primitives; a read that runs out of bytes fails, and a byte that is
    written out of range silently wraps.  Byte order is taken little-endian;
    a double is carried as its 64-bit IEEE pattern, which the cursor moves
    as eight bytes. *)
Record t : Type := mk { data : list Z; pos : nat }.

Definition empty : t := mk [] 0.

Definition of_bytes (bs : list Z) : t := mk bs 0.

Definition to_bytes (d : t) : list Z := data d.

(** A reader consumes bytes at the cursor and either yields a value and the
    advanced cursor, or fails. *)
Definition reader (A : Type) : Type := t -> option (A * t).

Definition ret {A} (a : A) : reader A := fun d => Some (a, d).

Definition bind {A B} (r : reader A) (k : A -> reader B) : reader B :=
  fun d => match r d with
           | Some (a, d') => k a d'
           | None => None
           end.

(** Modelled from the spec: the fixed-width layout of a primitive, the [n]
    low-order bytes of [v], least significant first; and the value of such
    bytes. *)
Fixpoint le_encode (n : nat) (v : Z) : list Z :=
  match n with
  | O => []
  | S n' => v mod 256 :: le_encode n' (v / 256)
  end.

Fixpoint le_decode (bs : list Z) : Z :=
  match bs with
  | [] => 0
  | b :: bs' => b + 256 * le_decode bs'
  end.

Definition to_signed (bits : Z) (u : Z) : Z :=
  if Z_lt_dec u (2 ^ (bits - 1)) then u else u - 2 ^ bits.

(** Modelled from the spec: the primitives of the cursor.  A read takes the
    bytes at the offset and advances it, and fails when fewer are left; a
    write appends the bytes of the value. *)
Definition read_bytes (n : nat) : reader (list Z) :=
  fun d =>
    let bs := take n (drop (pos d) (data d)) in
    if decide (length bs = n) then Some (bs, mk (data d) (pos d + n)) else None.

Definition write_bytes (bs : list Z) (d : t) : t :=
  mk (data d ++ bs) (pos d + length bs).

Definition read_int : reader Z :=
  bind (read_bytes 4) (fun bs => ret (to_signed 32 (le_decode bs))).

Definition write_int (v : Z) : t -> t := write_bytes (le_encode 4 v).

Definition read_byte : reader Z :=
  bind (read_bytes 1) (fun bs => ret (le_decode bs)).

Definition write_byte (v : Z) : t -> t := write_bytes (le_encode 1 v).

Definition read_bool : reader bool :=
  bind read_byte (fun b => ret (negb (b =? 0))).

Definition write_bool (b : bool) : t -> t :=
  write_byte (if b then 1 else 0).

Definition read_double : reader Z :=
  bind (read_bytes 8) (fun bs => ret (le_decode bs)).

Definition write_double (v : Z) : t -> t := write_bytes (le_encode 8 v).

(** [decodes r bs v]: wherever the bytes [bs] sit in a buffer, the reader
    [r], started at their first byte, yields [v] and stops right after
    them. *)
Definition decodes {A} (r : reader A) (bs : list Z) (v : A) : Prop :=
  forall pre post,
    r (mk (pre ++ bs ++ post) (length pre))
    = Some (v, mk (pre ++ bs ++ post) (length pre + length bs)).

(** [reencodes read write bs]: reading the buffer [bs] from its start
    succeeds, uses all of it, and writing the value read gives [bs] back. *)
Definition reencodes {A} (read : reader A) (write : A -> t -> t)
    (bs : list Z) : Prop :=
  exists v d,
    read (of_bytes bs) = Some (v, d) /\
    pos d = length bs /\
    to_bytes (write v empty) = bs.

End Data.

Notation "'let*' x ':=' r 'in' k" := (Data.bind r (fun x => k))
  (at level 10, x name, r at level 100, k at level 200).

(** ** enigma.py: [Stage] *)

Module Stage.

Record t : Type := mk {
  level : Z;
  stage_id : Z;
  decoding_satus : Z;
  start_time : Z
}.

Definition init : t := mk 0 0 0 0.

Definition read : Data.reader t :=
  let* level := Data.read_int in
  let* stage_id := Data.read_int in
  let* decoding_satus := Data.read_byte in
  let* start_time := Data.read_double in
  Data.ret (mk level stage_id decoding_satus start_time).

Definition write (self : t) (data : Data.t) : Data.t :=
  let data := Data.write_int (level self) data in
  let data := Data.write_int (stage_id self) data in
  let data := Data.write_byte (decoding_satus self) data in
  Data.write_double (start_time self) data.

(** The values each field can hold on the wire. *)
Definition in_range (s : t) : Prop :=
  - 2 ^ 31 <= level s < 2 ^ 31 /\
  - 2 ^ 31 <= stage_id s < 2 ^ 31 /\
  0 <= decoding_satus s < 256 /\
  0 <= start_time s < 2 ^ 64.

(** The bytes one [write] emits. *)
Definition encode (s : t) : list Z :=
  Data.to_bytes (write s Data.empty).

End Stage.

(** ** enigma.py: [Enigma] *)

Module Enigma.

Record t : Type := mk {
  energy_since_1 : Z;
  energy_since_2 : Z;
  enigma_level : Z;
  unknown_1 : Z;
  unknown_2 : bool;
  stages : list Stage.t
}.

Definition init : t := mk 0 0 0 0 false [].

(** [[Stage.read(data) for _ in range(n)]] *)
Fixpoint read_stages (n : nat) : Data.reader (list Stage.t) :=
  match n with
  | O => Data.ret []
  | S n' =>
      let* s := Stage.read in
      let* ss := read_stages n' in
      Data.ret (s :: ss)
  end.

Definition read : Data.reader t :=
  let* energy_since_1 := Data.read_int in
  let* energy_since_2 := Data.read_int in
  let* enigma_level := Data.read_byte in
  let* unknown_1 := Data.read_byte in
  let* unknown_2 := Data.read_bool in
  let* count := Data.read_byte in
  let* stages := read_stages (Z.to_nat count) in
  Data.ret (mk energy_since_1 energy_since_2 enigma_level unknown_1
               unknown_2 stages).

(** [for stage in self.stages: stage.write(data)] *)
Fixpoint write_stages (ss : list Stage.t) (data : Data.t) : Data.t :=
  match ss with
  | [] => data
  | s :: ss' => write_stages ss' (Stage.write s data)
  end.

Definition write (self : t) (data : Data.t) : Data.t :=
  let data := Data.write_int (energy_since_1 self) data in
  let data := Data.write_int (energy_since_2 self) data in
  let data := Data.write_byte (enigma_level self) data in
  let data := Data.write_byte (unknown_1 self) data in
  let data := Data.write_bool (unknown_2 self) data in
  let data := Data.write_byte (Z.of_nat (length (stages self))) data in
  write_stages (stages self) data.

Definition in_range (e : t) : Prop :=
  - 2 ^ 31 <= energy_since_1 e < 2 ^ 31 /\
  - 2 ^ 31 <= energy_since_2 e < 2 ^ 31 /\
  0 <= enigma_level e < 256 /\
  0 <= unknown_1 e < 256 /\
  (length (stages e) <= 255)%nat /\
  Forall Stage.in_range (stages e).

(** The bytes one [write] emits. *)
Definition encode (e : t) : list Z :=
  Data.to_bytes (write e Data.empty).

End Enigma.

(** ** The console and the configuration *)

(** State and exceptions together: a computation over a state [S] returns a
    value or raises, and leaves a state behind either way. *)
Definition M (S A : Type) : Type := S -> res A * S.

Definition mret {S A} (a : A) : M S A := fun s => (Ok a, s).

Definition mraise {S A} (e : exn) : M S A := fun s => (Raise e, s).

Definition mbind {S A B} (m : M S A) (k : A -> M S B) : M S B :=
  fun s => match m s with
           | (Ok a, s') => k a s'
           | (Raise e, s') => (Raise e, s')
           end.

Notation "'let!' x ':=' m 'in' k" := (mbind m (fun x => k))
  (at level 10, x name, m at level 100, k at level 200).

Module Console.

(** Modelled from the spec: the interactive prompt surface
    ([color.ColoredInput]) is not among the sources.  A request for a line of
    text returns the raw line the user typed.  The lines still to be typed
    are [pending]; [prompts] counts the requests made so far; a request with
    nothing left to read is Python's [EOFError]. *)
Record t : Type := mk { pending : list string; prompts : nat }.

Definition get : M t string :=
  fun c => match pending c with
           | [] => (Raise EOFError, mk [] (S (prompts c)))
           | line :: rest => (Ok line, mk rest (S (prompts c)))
           end.

End Console.

(** Modelled from the spec: [io.config] is not among the sources; of the
    configuration only the disabled-maxes toggle ([Key.DISABLE_MAXES]) is
    read by the editor. *)
Record Config : Type := { disable_maxes : bool }.

(** ** Python's [int(str)] and [str.split(" ")] *)

Module Py.

(** The characters [int] skips around a numeral: tab to carriage return and
    the space, and, of the characters above 127, the next-line control (133)
    and the no-break space (160).  The separators 28 to 31 are not among
    them. *)
Definition is_space (c : ascii) : bool :=
  let n := nat_of_ascii c in
  ((9 <=? n)%nat && (n <=? 13)%nat) || (n =? 32)%nat
  || (n =? 133)%nat || (n =? 160)%nat.

Definition digit_of (c : ascii) : option Z :=
  let n := nat_of_ascii c in
  if ((48 <=? n)%nat && (n <=? 57)%nat)%bool then Some (Z.of_nat n - 48) else None.

Fixpoint lstrip (s : string) : string :=
  match s with
  | String c r => if is_space c then lstrip r else s
  | EmptyString => EmptyString
  end.

Fixpoint rstrip (s : string) : string :=
  match s with
  | String c r =>
      match rstrip r with
      | EmptyString => if is_space c then EmptyString else String c EmptyString
      | r' => String c r'
      end
  | EmptyString => EmptyString
  end.

(** Decimal digits, single underscores allowed between two digits. *)
Fixpoint digits (acc : Z) (after_digit : bool) (s : string) : option Z :=
  match s with
  | EmptyString => if after_digit then Some acc else None
  | String c r =>
      match digit_of c with
      | Some d => digits (10 * acc + d) true r
      | None =>
          if (Ascii.eqb c "_" && after_digit)%bool then digits acc false r
          else None
      end
  end.

(** [int(s)] on a string of characters below 256: [Some v], or [None] for
    [ValueError]. *)
Definition int (s : string) : option Z :=
  match rstrip (lstrip s) with
  | String "-" r => Z.opp <$> digits 0 false r
  | String "+" r => digits 0 false r
  | r => digits 0 false r
  end.

(** [s.split(" ")] *)
Fixpoint split_space (s : string) : list string :=
  match s with
  | EmptyString => [EmptyString]
  | String c r =>
      match split_space r with
      | h :: t =>
          if Ascii.eqb c " " then EmptyString :: h :: t else String c h :: t
      | [] => [String c EmptyString]
      end
  end.

(** [str(n)], the decimal numeral the menu shows for [n].  [fuel] is the
    number of binary digits of [n], which its decimal digits never exceed. *)
Definition digit_char (d : Z) : ascii := ascii_of_nat (48 + Z.to_nat d).

Fixpoint str_digits (fuel : nat) (n : Z) (acc : string) : string :=
  match fuel with
  | O => acc
  | S fuel' =>
      let acc' := String (digit_char (n mod 10)) acc in
      if n <? 10 then acc' else str_digits fuel' (n / 10) acc'
  end.

Definition str (n : Z) : string :=
  if n <? 0
  then String "-" (str_digits (S (Z.to_nat (Z.log2 (- n)))) (- n) EmptyString)
  else str_digits (S (Z.to_nat (Z.log2 n))) n EmptyString.

(** A numeral given by its digits, most significant first, and its value. *)
Definition is_digit (d : Z) : Prop := 0 <= d < 10.

Definition numeral (ds : list Z) (rest : string) : string :=
  foldr (fun d s => String (digit_char d) s) rest ds.

Definition numeral_value (ds : list Z) : Z :=
  fold_left (fun a d => 10 * a + d) ds 0.

(** [l[i]] with Python's negative indices; [None] is [IndexError]. *)
Definition index {A} (l : list A) (i : Z) : option nat :=
  let n := Z.of_nat (length l) in
  if decide (0 <= i < n) then Some (Z.to_nat i)
  else if decide (- n <= i < 0) then Some (Z.to_nat (n + i))
  else None.

Definition getitem {A} {S} (l : list A) (i : Z) : M S A :=
  match index l i with
  | Some k => match l !! k with
              | Some a => mret a
              | None => mraise IndexError
              end
  | None => mraise IndexError
  end.

Definition setitem {A} {S} (l : list A) (i : Z) (a : A) : M S (list A) :=
  match index l i with
  | Some k => mret (<[k := a]> l)
  | None => mraise IndexError
  end.

Definition sum (l : list Z) : Z := foldr Z.add 0 l.

End Py.

(** ** dialog_creator.py: [IntInput] *)

Module IntInput.

Record t : Type := mk {
  signed : bool;
  max : Z;
  min : Z;
  default : option Z
}.

Definition get_max_value (cfg : Config) (max : option Z) (signed : bool) : Z :=
  let max_int := if signed then 2 ^ 31 - 1 else 2 ^ 32 - 1 in
  match max with
  | Some m => if disable_maxes cfg then max_int else Z.min m max_int
  | None => max_int
  end.

(** [IntInput(max, min, default, signed)] *)
Definition init (cfg : Config) (max : option Z) (min : Z) (default : option Z)
    (signed : bool) : t :=
  mk signed (get_max_value cfg max signed) min default.

Definition clamp_value (self : t) (value : Z) : Z :=
  Z.max (Z.min value (max self)) (min self).

Definition get_input (self : t) : M Console.t (option Z * string) :=
  let! user_input := Console.get in
  if (String.eqb user_input "" && bool_decide (default self <> None))%bool
  then mret (default self, user_input)
  else
    match Py.int user_input with
    | None => mret (None, user_input)
    | Some user_input_i => mret (Some (clamp_value self user_input_i), user_input)
    end.

(** The [while True] loop of [get_input_while]; every turn takes a line off
    the console or raises, so [fuel] above the number of pending lines is
    never used up. *)
Fixpoint get_input_loop (fuel : nat) (self : t) : M Console.t (option Z) :=
  match fuel with
  | O => mraise EOFError
  | S fuel' =>
      let! r := get_input self in
      let '(int_val, user_input) := r in
      match int_val with
      | Some v => mret (Some v)
      | None =>
          if String.eqb user_input "q" then mret None
          else get_input_loop fuel' self
      end
  end.

Definition get_input_while (self : t) : M Console.t (option Z) :=
  fun c => get_input_loop (S (length (Console.pending c))) self c.

(** The dialog text [LocalManager().get_key] looks up comes from the locale
    files and only decorates the prompt. *)
Definition get_input_locale (self : t) : M Console.t (option Z * string) :=
  get_input self.

Definition get_input_locale_while (self : t) : M Console.t (option Z) :=
  get_input_while self.

End IntInput.

(** ** dialog_creator.py: [ChoiceInput] *)

Module ChoiceInput.

(** [perameters] only fills the placeholders of the displayed text and is
    left out.  [strings] is mutated by [get_input_locale], so the object
    itself is part of the state. *)
Record t : Type := mk {
  items : list string;
  strings : list string;
  ints : list Z;
  dialog : string;
  is_single_choice : bool
}.

Definition st : Type := t * Console.t.

Definition this : M st t := fun s => (Ok (fst s), s).

Definition set_strings (l : list string) : M st unit :=
  fun s => (Ok tt, (mk (items (fst s)) l (ints (fst s)) (dialog (fst s))
                       (is_single_choice (fst s)), snd s)).

Definition console {A} (m : M Console.t A) : M st A :=
  fun s => let '(r, c) := m (snd s) in (r, (fst s, c)).

(** What one call of [get] returns: [None], an [int] or a list. *)
Inductive choice : Type :=
| NoChoice
| IntChoice (i : Z)
| ListChoice (l : list Z).

Definition get_input (cfg : Config) : M st (option Z * string) :=
  let! self := this in
  if decide (length (strings self) = 0%nat) then mret (None, EmptyString)
  else if decide (length (strings self) = 1%nat) then mret (Some 1, EmptyString)
  else
    console (IntInput.get_input_locale
               (IntInput.init cfg (Some (Z.of_nat (length (strings self)))) 1
                              None true)).

Fixpoint get_input_loop (cfg : Config) (fuel : nat) : M st (option Z) :=
  match fuel with
  | O => mraise EOFError
  | S fuel' =>
      let! r := get_input cfg in
      let '(int_val, user_input) := r in
      match int_val with
      | Some v => mret (Some v)
      | None =>
          if String.eqb user_input "q" then mret None
          else get_input_loop cfg fuel'
      end
  end.

Definition get_input_while (cfg : Config) : M st (option Z) :=
  let! self := this in
  if decide (length (strings self) = 0%nat) then mret None
  else fun s => get_input_loop cfg (S (length (Console.pending (snd s)))) s.

(** The tokens of the typed line that [int] accepts, in order. *)
Definition int_vals (line : string) : list Z :=
  omap Py.int (Py.split_space line).

Definition get_input_locale : M st (list Z * bool) :=
  let! self := this in
  if decide (length (strings self) = 0%nat) then mret ([], false)
  else if decide (length (strings self) = 1%nat) then mret ([1], false)
  else
    let! _ := (if is_single_choice self then mret tt
               else set_strings (strings self ++ ["all_at_once"%string])) in
    let! self := this in
    let! line := console Console.get in
    let int_vals := int_vals line in
    if (bool_decide (Z.of_nat (length (strings self)) ∈ int_vals)
        && negb (is_single_choice self))%bool
    then mret (Z.of_nat <$> seq 1 (length (strings self) - 1), true)
    else if (is_single_choice self && bool_decide (1 < length int_vals)%nat)%bool
    then mret (take 1 int_vals, false)
    else mret (int_vals, false).

Definition multiple_choice : M st (list Z * bool) :=
  let! r := get_input_locale in
  let '(user_input, all_at_once) := r in
  mret ((fun i => i - 1) <$> user_input, all_at_once).

Definition single_choice (cfg : Config) : M st (option Z) :=
  get_input_while cfg.

Definition get (cfg : Config) : M st (choice * bool) :=
  let! self := this in
  if is_single_choice self then
    let! r := single_choice cfg in
    match r with
    | Some i => mret (IntChoice i, false)
    | None => mret (NoChoice, false)
    end
  else
    let! r := multiple_choice in
    mret (ListChoice (fst r), snd r).

End ChoiceInput.

(** ** dialog_creator.py: [MultiEditor] *)

Module MultiEditor.

Record t : Type := mk {
  items : list string;
  strings : list string;
  ints : list Z;
  max_values : list (option Z);
  dialog : string;
  is_single_choice : bool;
  signed : bool;
  cumulative_max : bool
}.

(** The three shapes of the [max_values] argument of the constructor. *)
Inductive max_arg : Type :=
| MaxNone
| MaxInt (m : Z)
| MaxList (l : list (option Z)).

Definition init (items strings : list string) (ints : list Z)
    (max_values : max_arg) (dialog : string)
    (single_choice signed cumulative_max : bool) : t :=
  let max_values_ :=
    match max_values with
    | MaxNone => replicate (length ints) None
    | MaxInt m => replicate (length ints) (Some m)
    | MaxList l => l
    end in
  mk items strings ints max_values_ dialog single_choice signed cumulative_max.

Definition st : Type := t * Console.t.

Definition this : M st t := fun s => (Ok (fst s), s).

Definition set_ints (l : list Z) : M st unit :=
  fun s =>
    let self := fst s in
    (Ok tt, (mk (items self) (strings self) l (max_values self) (dialog self)
                (is_single_choice self) (signed self) (cumulative_max self),
             snd s)).

Definition set_strings (l : list string) : M st unit :=
  fun s =>
    let self := fst s in
    (Ok tt, (mk (items self) l (ints self) (max_values self) (dialog self)
                (is_single_choice self) (signed self) (cumulative_max self),
             snd s)).

Definition console {A} (m : M Console.t A) : M st A :=
  fun s => let '(r, c) := m (snd s) in (r, (fst s, c)).

(** The individual bound of the field [choice], as the first loop of
    [edit_all] takes it: the entry of [max_values], or the integer limit
    when the entry is [None]; no bound at an index out of range. *)
Definition field_bound (cfg : Config) (self : t) (choice : Z) : option Z :=
  match Py.index (max_values self) choice with
  | Some k =>
      match max_values self !! k with
      | Some (Some m) => Some m
      | Some None => Some (IntInput.get_max_value cfg None (signed self))
      | None => None
      end
  | None => None
  end.

(** The first loop of [edit_all], from the running [max_max_value]. *)
Fixpoint max_max_loop (cfg : Config) (choices : list Z) (max_max_value : Z)
    : M st Z :=
  match choices with
  | [] => mret max_max_value
  | choice :: choices' =>
      let! self := this in
      let! max_value := Py.getitem (max_values self) choice in
      let max_value :=
        match max_value with
        | Some m => m
        | None => IntInput.get_max_value cfg None (signed self)
        end in
      max_max_loop cfg choices' (Z.max max_max_value max_value)
  end.

(** [max_max_value] as [edit_all] hands it to the prompt (its ["max"]) and
    to [IntInput]. *)
Definition shared_bound (cfg : Config) (choices : list Z) : M st Z :=
  let! self := this in
  let! max_max_value := max_max_loop cfg choices 0 in
  if cumulative_max self then
    if decide (length choices = 0%nat) then mraise ZeroDivisionError
    else mret (max_max_value / Z.of_nat (length choices))
  else mret max_max_value.

(** The second loop of [edit_all]. *)
Fixpoint assign_all (cfg : Config) (choices : list Z) (usr_input : Z)
    : M st unit :=
  match choices with
  | [] => mret tt
  | choice :: choices' =>
      let! self := this in
      let! mv := Py.getitem (max_values self) choice in
      let max_value := IntInput.get_max_value cfg mv (signed self) in
      let value := Z.min usr_input max_value in
      let! ints' := Py.setitem (ints self) choice value in
      let! _ := set_ints ints' in
      let! _ := Py.getitem (items self) choice in
      assign_all cfg choices' usr_input
  end.

Definition edit_all (cfg : Config) (choices : list Z) : M st (list Z) :=
  let! max_max_value := shared_bound cfg choices in
  let! usr_input :=
    console (IntInput.get_input_locale_while
               (IntInput.init cfg (Some max_max_value) 0 None true)) in
  match usr_input with
  | None => let! self := this in mret (ints self)
  | Some usr_input =>
      let! _ := assign_all cfg choices usr_input in
      let! self := this in mret (ints self)
  end.

Fixpoint edit_one_loop (cfg : Config) (choices : list Z) : M st unit :=
  match choices with
  | [] => mret tt
  | choice :: choices' =>
      let! self := this in
      let! max_value := Py.getitem (max_values self) choice in
      let max_value :=
        match max_value with
        | Some m => m
        | None => IntInput.get_max_value cfg None (signed self)
        end in
      let! max_value :=
        (if cumulative_max self then
           let! own := Py.getitem (ints self) choice in
           mret (max_value - (Py.sum (ints self) - own))
         else mret max_value) in
      let! item := Py.getitem (items self) choice in
      let! default := Py.getitem (ints self) choice in
      let! usr_input :=
        console (IntInput.get_input_locale_while
                   (IntInput.init cfg (Some max_value) 0 (Some default) true)) in
      match usr_input with
      | None => edit_one_loop cfg choices'
      | Some usr_input =>
          let! ints' := Py.setitem (ints self) choice usr_input in
          let! _ := set_ints ints' in
          edit_one_loop cfg choices'
      end
  end.

Definition edit_one (cfg : Config) (choices : list Z) : M st (list Z) :=
  let! _ := edit_one_loop cfg choices in
  let! self := this in mret (ints self).

(** [edit] hands [self.strings] itself to the [ChoiceInput], so what the
    [ChoiceInput] appends to it shows in the editor's own list. *)
Definition edit (cfg : Config) : M st (list Z) :=
  let! self := this in
  let! r := (fun s =>
    let ci := ChoiceInput.mk (items self) (strings self) (ints self)
                             "select_edit" false in
    let '(r, (ci', c')) := ChoiceInput.get cfg (ci, snd s) in
    let '(_, s') := set_strings (ChoiceInput.strings ci') (fst s, c') in
    (r, s')) in
  let '(choices, all_at_once) := r in
  match choices with
  | ChoiceInput.NoChoice => mret (ints self)
  | ChoiceInput.IntChoice i =>
      if all_at_once then edit_all cfg [i] else edit_one cfg [i]
  | ChoiceInput.ListChoice l =>
      if all_at_once then edit_all cfg l else edit_one cfg l
  end.

End MultiEditor.

(** ** game_data_getter.py: [GameDataGetter] *)

Module GameDataGetter.

(** Modelled from the spec: [core.CountryCode] is not among the sources; the
    spec names four known regions, and [OtherCC] stands for any other
    code. *)
Inductive CountryCode : Type :=
| EN
| JP
| KR
| TW
| OtherCC (code : string).

Global Instance CountryCode_eq_dec : EqDecision CountryCode.
Proof. solve_decision. Defined.

(** What [requests.get] hands back, as far as the getter looks at it. *)
Record Response : Type := {
  status_code : Z;
  content : list Z;
  text : string
}.

(** The local cache and the traffic so far: [files] maps a path (its
    components, below the application directory) to the bytes of the file;
    [requests] lists the URLs fetched, latest first. *)
Record World : Type := mkWorld {
  files : gmap (list string) (list Z);
  requests : list string
}.

(** What surrounds the getter: the remote repository ([net k u] answers the
    request number [k] when it asks for the URL [u], or raises as
    [requests.get] does on a timeout) and the sub-locales
    [core.CountryCode.get_langs()] knows. *)
Record Env : Type := {
  net : nat -> string -> res Response;
  langs : list string
}.

Record t : Type := mk {
  url : string;
  lang : string;
  cc : CountryCode;
  real_cc : CountryCode;
  all_versions : list string;
  latest_version : option string
}.

(** [core.RequestHandler(url).get()] (request.py) *)
Definition request (env : Env) (u : string) : M World Response :=
  fun w =>
    let w' := mkWorld (files w) (u :: requests w) in
    match net env (length (requests w)) u with
    | Ok r => (Ok r, w')
    | Raise e => (Raise e, w')
    end.

Definition get_latest_version (versions : list string) (cc : CountryCode)
    : option string :=
  let length := length versions in
  if (bool_decide (cc = EN) && bool_decide (1 <= length)%nat)%bool
  then versions !! 0%nat
  else if (bool_decide (cc = JP) && bool_decide (2 <= length)%nat)%bool
  then versions !! 1%nat
  else if (bool_decide (cc = KR) && bool_decide (3 <= length)%nat)%bool
  then versions !! 2%nat
  else if (bool_decide (cc = TW) && bool_decide (4 <= length)%nat)%bool
  then versions !! 3%nat
  else None.

(** [text.split("\n")] *)
Fixpoint split_lines (s : string) : list string :=
  match s with
  | EmptyString => [EmptyString]
  | String c r =>
      match split_lines r with
      | h :: t =>
          if Ascii.eqb c "010" then EmptyString :: h :: t else String c h :: t
      | [] => [String c EmptyString]
      end
  end.

Definition get_versions (env : Env) (url : string) : M World (list string) :=
  let! r := request env (url +:+ "latest.txt") in
  mret (split_lines (text r)).

(** [__init__]; [cc_lang] is [save_file.cc.get_cc_lang()] and [is_lang] what
    its [is_lang()] answers. *)
Definition init (env : Env) (url lang : string) (cc_lang : CountryCode)
    (is_lang : bool) (real_cc : CountryCode) : M World t :=
  let cc := if negb is_lang then cc_lang else real_cc in
  let! all_versions := get_versions env url in
  mret (mk url lang cc real_cc all_versions (get_latest_version all_versions cc)).

Definition get_packname (env : Env) (self : t) (packname : string) : string :=
  if negb (String.eqb packname "resLocal") then packname
  else if negb (bool_decide (cc self = EN)) then packname
  else if bool_decide (lang self ∈ langs env)
  then packname +:+ "_" +:+ lang self
  else packname.

Definition get_file (env : Env) (self : t) (pack_name file_name : string)
    : M World (option Data.t) :=
  let pack_name := get_packname env self pack_name in
  match latest_version self with
  | None => mret None
  | Some version =>
      let url := url self +:+ (version +:+ "/" +:+ pack_name +:+ "/" +:+ file_name) in
      let! response := request env url in
      if negb (status_code response =? 200) then mret None
      else mret (Some (Data.of_bytes (content response)))
  end.

(** [core.Path("game_data", is_relative=True).add(version).add(pack_name)
    .add(file_name)]; the directories [generate_dirs] makes hold no file and
    are not tracked. *)
Definition get_file_path (env : Env) (self : t) (pack_name file_name : string)
    : option (list string) :=
  match latest_version self with
  | None => None
  | Some version =>
      let pack_name := get_packname env self pack_name in
      Some ["game_data"; version; pack_name; file_name]
  end.

(** Modelled from the spec: [core.Path] is not among the sources; the cache
    keeps one file per [{version}/{pack}/{file}] below its root.
    [path.exists()], [path.read()] and [data.to_file(path)]: *)
Definition path_exists (path : list string) : M World bool :=
  fun w => (Ok (bool_decide (is_Some (files w !! path))), w).

Definition path_read (path : list string) : M World Data.t :=
  fun w => match files w !! path with
           | Some bs => (Ok (Data.of_bytes bs), w)
           | None => (Raise FileNotFoundError, w)
           end.

Definition to_file (data : Data.t) (path : list string) : M World unit :=
  fun w => (Ok tt, mkWorld (<[path := Data.to_bytes data]> (files w)) (requests w)).

Definition save_file (env : Env) (self : t) (pack_name file_name : string)
    : M World (option Data.t) :=
  let pack_name := get_packname env self pack_name in
  let! data := get_file env self pack_name file_name in
  match data with
  | None => mret None
  | Some data =>
      match get_file_path env self pack_name file_name with
      | None => mret None
      | Some path =>
          let! _ := to_file data path in
          mret (Some data)
      end
  end.

Definition is_downloaded (env : Env) (self : t) (pack_name file_name : string)
    : M World bool :=
  let pack_name := get_packname env self pack_name in
  match get_file_path env self pack_name file_name with
  | None => mret false
  | Some path => path_exists path
  end.

(** [download] calls itself; [fuel] is the depth Python lets the self-call
    reach before it raises [RecursionError].  [display_text] only prints. *)
Fixpoint download (env : Env) (fuel : nat) (self : t)
    (pack_name file_name : string) (retries : Z) (display_text : bool)
    : M World (option Data.t) :=
  match fuel with
  | O => mraise RecursionError
  | S fuel' =>
      let retries := retries - 1 in
      let pack_name := get_packname env self pack_name in
      let! downloaded := is_downloaded env self pack_name file_name in
      if downloaded : bool then
        match get_file_path env self pack_name file_name with
        | None => mret None
        | Some path => let! d := path_read path in mret (Some d)
        end
      else if retries =? 0 then mret None
      else
        match latest_version self with
        | None => mret None
        | Some version =>
            let! data := save_file env self pack_name file_name in
            match data with
            | None =>
                download env fuel' self pack_name file_name retries display_text
            | Some data => mret (Some data)
            end
        end
  end.

(** Modelled from the spec: [core.thread_run_many] is not among the sources.
    The spec has it issue every task concurrently, with no ordering
    guarantee between tasks, and block until all of them have completed.
    Here the tasks complete one after the other in the order [schedule]
    gives (positions in the task list); a task that raises ends alone. *)
Fixpoint thread_run_many {S A} (tasks : list (M S A)) (schedule : list nat)
    : M S unit :=
  match schedule with
  | [] => mret tt
  | i :: schedule' =>
      fun s =>
        match tasks !! i with
        | Some task => thread_run_many tasks schedule' (snd (task s))
        | None => thread_run_many tasks schedule' s
        end
  end.

(** The second loop of [download_all]: the cache is read again, in the
    order of [file_names]. *)
Fixpoint collect (env : Env) (self : t) (pack_name : string)
    (file_names : list string) : M World (list (option (string * Data.t))) :=
  match file_names with
  | [] => mret []
  | file_name :: file_names' =>
      let! entry :=
        match get_file_path env self pack_name file_name with
        | None => mret None
        | Some path =>
            let! found := path_exists path in
            if negb found then mret None
            else let! d := path_read path in mret (Some (file_name, d))
        end in
      let! data_list := collect env self pack_name file_names' in
      mret (entry :: data_list)
  end.

Definition download_all (env : Env) (fuel : nat) (schedule : list nat)
    (self : t) (pack_name : string) (file_names : list string)
    (display_text : bool) : M World (list (option (string * Data.t))) :=
  let pack_name := get_packname env self pack_name in
  let tasks :=
    (fun file_name => download env fuel self pack_name file_name 2 display_text)
      <$> file_names in
  let! _ := thread_run_many tasks schedule in
  collect env self pack_name file_names.

(** The bytes the cache holds for [(pack_name, file_name)] under the resolved
    version, if any: the file at the path [get_file_path] gives. *)
Definition cached (env : Env) (self : t) (pack_name file_name : string)
    (w : World) : option (list Z) :=
  match get_file_path env self pack_name file_name with
  | Some path => files w !! path
  | None => None
  end.

(** What [download_all] reports for [file_name] when the cache is as in [w]. *)
Definition entry (env : Env) (self : t) (pack_name : string) (w : World)
    (file_name : string) : option (string * Data.t) :=
  match cached env self pack_name file_name w with
  | Some bs => Some (file_name, Data.of_bytes bs)
  | None => None
  end.

End GameDataGetter.

(** ** Concrete objects used in the examples below *)

Module Examples.

Local Open Scope string_scope.

(** An [Enigma] of [n] zero-valued stages. *)
Definition enigma_of (n : nat) : Enigma.t :=
  Enigma.mk 0 0 0 0 false (replicate n Stage.init).

Definition maxes_on : Config := {| disable_maxes := false |}.

Definition maxes_off : Config := {| disable_maxes := true |}.

(** Two fields whose individual maxes are 100 and 50, sharing a cumulative
    budget, as [MultiEditor.from_reduced] builds them. *)
Definition two_fields : MultiEditor.t :=
  MultiEditor.init ["a"; "b"] ["a <@q>: {int}</>"; "b <@q>: {int}</>"] [0; 0]
    (MultiEditor.MaxList [Some 100; Some 50]) "input" false true true.

Definition three_choices : ChoiceInput.t :=
  ChoiceInput.mk ["x"; "y"; "z"] ["x"; "y"; "z"] [] "enigma_select" false.

(** A repository that answers every request with status 200 and the bytes
    1, 2, 3. *)
Definition repo : GameDataGetter.Env :=
  {| GameDataGetter.net := fun _ _ =>
       Ok {| GameDataGetter.status_code := 200;
             GameDataGetter.content := [1; 2; 3];
             GameDataGetter.text := "" |};
     GameDataGetter.langs := ["de"; "it"; "es"; "fr"; "th"] |}.

(** An English save with the French locale and a version list of four
    entries, and a Taiwanese save that met a version list of three. *)
Definition getter_en : GameDataGetter.t :=
  let versions := ["13.1.0"; "13.1.1"; "13.0.0"; "13.0.1"] in
  GameDataGetter.mk "https://repo/" "fr" GameDataGetter.EN GameDataGetter.EN
    versions
    (GameDataGetter.get_latest_version versions GameDataGetter.EN).

Definition getter_tw : GameDataGetter.t :=
  let versions := ["13.1.0"; "13.1.1"; "13.0.0"] in
  GameDataGetter.mk "https://repo/" "en" GameDataGetter.TW GameDataGetter.TW
    versions
    (GameDataGetter.get_latest_version versions GameDataGetter.TW).

Definition fresh : GameDataGetter.World := GameDataGetter.mkWorld ∅ [].

End Examples.

(** ** Sizes on the wire *)

Module Layout.

(** The bytes left between the cursor and the end of the buffer. *)
Definition remaining (d : Data.t) : nat := length (Data.data d) - Data.pos d.

Definition is_byte (b : Z) : Prop := 0 <= b < 256.

(** [fixed_size r k]: the reader [r] takes exactly [k] bytes.  It succeeds
    when [k] bytes are left, and then moves the cursor by [k] and leaves the
    buffer alone; it fails when fewer are left. *)
Definition fixed_size {A} (r : Data.reader A) (k : nat) : Prop :=
  forall d,
    match r d with
    | Some (_, d') =>
        (k <= remaining d)%nat /\
        Data.data d' = Data.data d /\ Data.pos d' = (Data.pos d + k)%nat
    | None => (remaining d < k)%nat
    end.

(** The bytes of the buffer that a read of [k] bytes at the cursor sees, and
    the cursor [k] bytes further on. *)
Definition window (k : nat) (d : Data.t) : list Z :=
  take k (drop (Data.pos d) (Data.data d)).

Definition advance (k : nat) (d : Data.t) : Data.t :=
  Data.mk (Data.data d) (Data.pos d + k).

(** The five reads of [Enigma.read] in front of the count byte. *)
Definition Enigma_header : Data.reader (Z * Z * Z * Z * bool) :=
  let* energy_since_1 := Data.read_int in
  let* energy_since_2 := Data.read_int in
  let* enigma_level := Data.read_byte in
  let* unknown_1 := Data.read_byte in
  let* unknown_2 := Data.read_bool in
  Data.ret (energy_since_1, energy_since_2, enigma_level, unknown_1, unknown_2).

End Layout.

(** ** enigma.py: the structural form ([serialize] / [deserialize]) *)

Module Structural.

(** What a dict of [serialize], or one loaded from a save's JSON, can hold:
    Python's [int], [float] (as the 64-bit pattern the records hold),
    [bool], [str], [None], [list], and [dict] with its items in insertion
    order, their keys distinct. *)
#[local] Unset Elimination Schemes.
Inductive value : Type :=
| Int (z : Z)
| Float (bits : Z)
| Bool (b : bool)
| Str (s : string)
| Null
| List (l : list value)
| Dict (items : list (string * value)).
#[local] Set Elimination Schemes.

(** The value bound to [key] among the items of a dict, if there is one. *)
Fixpoint find (items : list (string * value)) (key : string) : option value :=
  match items with
  | [] => None
  | (k, v) :: items' => if String.eqb k key then Some v else find items' key
  end.

(** [data.get(key, default)]: what is stored under [key], of whatever kind,
    and [default] when the dict lacks the key. *)
Definition get (items : list (string * value)) (key : string) (default : value)
    : value :=
  match find items key with
  | Some v => v
  | None => default
  end.

(** A [Stage] and an [Enigma] as Python holds them: the constructors store
    their arguments as they come, of whatever kind. *)
Record StageObj : Type := mkStage {
  level : value;
  stage_id : value;
  decoding_satus : value;
  start_time : value
}.

Record EnigmaObj : Type := mkEnigma {
  energy_since_1 : value;
  energy_since_2 : value;
  enigma_level : value;
  unknown_1 : value;
  unknown_2 : value;
  stages : list StageObj
}.

(** The objects of the records the binary form reads and writes. *)
Definition of_Stage (s : Stage.t) : StageObj :=
  mkStage (Int (Stage.level s)) (Int (Stage.stage_id s))
          (Int (Stage.decoding_satus s)) (Float (Stage.start_time s)).

Definition of_Enigma (e : Enigma.t) : EnigmaObj :=
  mkEnigma (Int (Enigma.energy_since_1 e)) (Int (Enigma.energy_since_2 e))
           (Int (Enigma.enigma_level e)) (Int (Enigma.unknown_1 e))
           (Bool (Enigma.unknown_2 e)) (of_Stage <$> Enigma.stages e).

(** [Stage.serialize] *)
Definition Stage_serialize (self : StageObj) : value :=
  Dict [("level"%string, level self);
        ("stage_id"%string, stage_id self);
        ("decoding_satus"%string, decoding_satus self);
        ("start_time"%string, start_time self)].

(** [Stage.deserialize].  Only a dict has [get]: on any other value the
    first [data.get] raises [AttributeError], which is [None] here. *)
Definition Stage_deserialize (data : value) : option StageObj :=
  match data with
  | Dict items =>
      Some (mkStage (get items "level" (Int 0))
                    (get items "stage_id" (Int 0))
                    (get items "decoding_satus" (Int 0))
                    (get items "start_time" (Float 0)))
  | _ => None
  end.

(** [Enigma.serialize] *)
Definition Enigma_serialize (self : EnigmaObj) : value :=
  Dict [("energy_since_1"%string, energy_since_1 self);
        ("energy_since_2"%string, energy_since_2 self);
        ("enigma_level"%string, enigma_level self);
        ("unknown_1"%string, unknown_1 self);
        ("unknown_2"%string, unknown_2 self);
        ("stages"%string, List (Stage_serialize <$> stages self))].

(** The characters of a string, each a string of its own. *)
Fixpoint chars (s : string) : list value :=
  match s with
  | EmptyString => []
  | String c r => Str (String c EmptyString) :: chars r
  end.

(** What [for stage in v] runs through: the elements of a list, the keys of
    a dict, the characters of a string; any other value is not iterable
    ([TypeError]), which is [None] here. *)
Definition iterate (v : value) : option (list value) :=
  match v with
  | List l => Some l
  | Dict items => Some ((fun kv => Str (fst kv)) <$> items)
  | Str s => Some (chars s)
  | _ => None
  end.

(** [[Stage.deserialize(stage) for stage in ...]] *)
Fixpoint Stage_deserialize_all (l : list value) : option (list StageObj) :=
  match l with
  | [] => Some []
  | v :: l' =>
      s ← Stage_deserialize v;
      ss ← Stage_deserialize_all l';
      Some (s :: ss)
  end.

(** [Enigma.deserialize] *)
Definition Enigma_deserialize (data : value) : option EnigmaObj :=
  match data with
  | Dict items =>
      l ← iterate (get items "stages" (List []));
      stages ← Stage_deserialize_all l;
      Some (mkEnigma (get items "energy_since_1" (Int 0))
                     (get items "energy_since_2" (Int 0))
                     (get items "enigma_level" (Int 0))
                     (get items "unknown_1" (Int 0))
                     (get items "unknown_2" (Bool false))
                     stages)
  | _ => None
  end.

(** A field that holds what the dict stores under [key], or [default] when
    the dict lacks the key. *)
Definition stored_or (items : list (string * value)) (key : string)
    (default field : value) : Prop :=
  match find items key with
  | Some v => field = v
  | None => field = default
  end.

(** The values that are dicts. *)
Definition is_dict (v : value) : Prop :=
  match v with
  | Dict _ => True
  | _ => False
  end.

(** The five plain fields of an [Enigma] hold what the dict stores under
    their keys, or their defaults. *)
Definition plain_fields (items : list (string * value)) (eo : EnigmaObj)
    : Prop :=
  stored_or items "energy_since_1" (Int 0) (energy_since_1 eo) /\
  stored_or items "energy_since_2" (Int 0) (energy_since_2 eo) /\
  stored_or items "enigma_level" (Int 0) (enigma_level eo) /\
  stored_or items "unknown_1" (Int 0) (unknown_1 eo) /\
  stored_or items "unknown_2" (Bool false) (unknown_2 eo).

End Structural.

(** ** Concrete objects used in the further examples *)

Module Cases.

Local Open Scope string_scope.

(** A buffer that holds one byte, then an [Enigma] with one stage, then two
    more bytes; the cursor stands behind the first byte. *)
Definition save : Data.t :=
  Data.mk ([7; 0; 241; 83; 101; 255; 255; 255; 255; 3; 255; 1; 1;
            3; 0; 0; 0; 169; 97; 0; 0; 2; 0; 0; 170; 175; 18; 83; 211; 65;
            9; 9]) 1.

(** The same buffer with the cursor at the stage. *)
Definition save_at_stage : Data.t := Layout.advance 12 save.

(** A repository whose every answer is a 404 page. *)
Definition dead_repo : GameDataGetter.Env :=
  {| GameDataGetter.net := fun _ _ =>
       Ok {| GameDataGetter.status_code := 404;
             GameDataGetter.content := [];
             GameDataGetter.text := "Not Found" |};
     GameDataGetter.langs := ["de"; "it"; "es"; "fr"; "th"] |}.

End Cases.

(** ** dialog_creator.py: the other loop of [ChoiceInput] *)

Module ChoiceLoop.

(** The [while True] loop of [ChoiceInput.get_input_locale_while]; every
    turn prompts once, so [fuel] above the number of pending lines is never
    used up. *)
Fixpoint get_input_locale_loop (fuel : nat) : M ChoiceInput.st (list Z) :=
  match fuel with
  | O => mraise EOFError
  | S fuel' =>
      let! r := ChoiceInput.get_input_locale in
      let '(int_vals, all_at_once) := r in
      if all_at_once : bool then mret int_vals
      else if decide (length int_vals = 0%nat) then get_input_locale_loop fuel'
      else if (bool_decide (length int_vals = 1%nat)
               && bool_decide (int_vals !! 0%nat = Some 0))%bool
      then mret []
      else mret int_vals
  end.

Definition get_input_locale_while : M ChoiceInput.st (list Z) :=
  let! self := ChoiceInput.this in
  if decide (length (ChoiceInput.strings self) = 0%nat) then mret []
  else if decide (length (ChoiceInput.strings self) = 1%nat) then mret [1]
  else fun s => get_input_locale_loop (S (length (Console.pending (snd s)))) s.

(** The [ChoiceInput] after one more "all at once" entry was appended to its
    [strings]. *)
Definition grown (self : ChoiceInput.t) : ChoiceInput.t :=
  ChoiceInput.mk (ChoiceInput.items self)
    (ChoiceInput.strings self ++ ["all_at_once"%string])
    (ChoiceInput.ints self) (ChoiceInput.dialog self)
    (ChoiceInput.is_single_choice self).

End ChoiceLoop.

(** ** dialog_creator.py: [SingleEditor] *)

Module SingleEditor.

Record t : Type := mk {
  item : string;
  value : Z;
  max_value : option Z;
  min_value : Z;
  signed : bool
}.

Definition edit (cfg : Config) (self : t) : M Console.t Z :=
  let max_value :=
    match max_value self with
    | Some m => m
    | None => IntInput.get_max_value cfg None (signed self)
    end in
  let! usr_input :=
    IntInput.get_input_locale_while
      (IntInput.init cfg (Some max_value) (min_value self) (Some (value self))
                     true) in
  match usr_input with
  | None => mret (value self)
  | Some usr_input => mret usr_input
  end.

End SingleEditor.

(** ** dialog_creator.py: [StringInput] and [StringEditor] *)

Module StringInput.

Record t : Type := mk { default : string }.

Definition get_input_locale (self : t) : M Console.t (option string) :=
  let! usr_input := Console.get in
  if String.eqb usr_input "" then mret None else mret (Some usr_input).

Fixpoint get_input_locale_loop (fuel : nat) (self : t)
    : M Console.t (option string) :=
  match fuel with
  | O => mraise EOFError
  | S fuel' =>
      let! usr_input := get_input_locale self in
      match usr_input with
      | None => mret None
      | Some usr_input =>
          if String.eqb usr_input "" then mret (Some (default self))
          else if String.eqb usr_input " " then get_input_locale_loop fuel' self
          else mret (Some usr_input)
      end
  end.

Definition get_input_locale_while (self : t) : M Console.t (option string) :=
  fun c => get_input_locale_loop (S (length (Console.pending c))) self c.

End StringInput.

Module StringEditor.

Record t : Type := mk { item : string; value : string }.

Definition edit (self : t) : M Console.t string :=
  let! usr_input :=
    StringInput.get_input_locale_while (StringInput.mk (value self)) in
  match usr_input with
  | None => mret (value self)
  | Some usr_input => mret usr_input
  end.

End StringEditor.

(** ** dialog_creator.py: [YesNoInput] *)

Module YesNoInput.

(** [yes_key] is the affirmative token, [LocalManager().get_key("yes_key")],
    which the locale files give. *)
Record t : Type := mk { default : bool }.

Definition get_input_locale (self : t) : M Console.t (option string) :=
  let! usr_input := Console.get in
  if String.eqb usr_input "" then mret None else mret (Some usr_input).

Fixpoint get_input_locale_loop (yes_key : string) (fuel : nat) (self : t)
    : M Console.t bool :=
  match fuel with
  | O => mraise EOFError
  | S fuel' =>
      let! usr_input := get_input_locale self in
      match usr_input with
      | None => mret (default self)
      | Some usr_input =>
          if String.eqb usr_input "" then mret (default self)
          else if String.eqb usr_input " "
          then get_input_locale_loop yes_key fuel' self
          else mret (String.eqb usr_input yes_key)
      end
  end.

Definition get_input_locale_while (yes_key : string) (self : t)
    : M Console.t bool :=
  fun c => get_input_locale_loop yes_key (S (length (Console.pending c))) self c.

Definition get_input_once (yes_key : string) (self : t) : M Console.t bool :=
  let! usr_input := Console.get in
  if String.eqb usr_input "" then mret (default self)
  else mret (String.eqb usr_input yes_key).

End YesNoInput.

(** ** Values an editor can hand back *)

(** What an [IntInput] accepts: its default as it is, or a value between
    its [min] and its [max] (its [min] alone when the two are crossed). *)
Definition accepted (self : IntInput.t) (v : Z) : Prop :=
  IntInput.default self = Some v \/
  IntInput.min self <= v <= Z.max (IntInput.min self) (IntInput.max self).

(** ** Budgets of a cumulative group *)

Module Budget.

(** No field below 0 and the fields together within [budget]. *)
Definition within (budget : Z) (ints : list Z) : Prop :=
  Forall (fun v => 0 <= v) ints /\ Py.sum ints <= budget.

(** Every field has a maximum, and none above [budget]. *)
Definition capped (budget : Z) (max_values : list (option Z)) : Prop :=
  Forall (fun mv => exists m, mv = Some m /\ m <= budget) max_values.

(** The editor with [ints] replaced, as [self.ints[choice] = value] leaves
    it, and with [strings] replaced, as the menu of [edit] leaves it. *)
Definition with_ints (self : MultiEditor.t) (ints : list Z) : MultiEditor.t :=
  MultiEditor.mk (MultiEditor.items self) (MultiEditor.strings self) ints
    (MultiEditor.max_values self) (MultiEditor.dialog self)
    (MultiEditor.is_single_choice self) (MultiEditor.signed self)
    (MultiEditor.cumulative_max self).

Definition with_strings (self : MultiEditor.t) (strings : list string)
    : MultiEditor.t :=
  MultiEditor.mk (MultiEditor.items self) strings (MultiEditor.ints self)
    (MultiEditor.max_values self) (MultiEditor.dialog self)
    (MultiEditor.is_single_choice self) (MultiEditor.signed self)
    (MultiEditor.cumulative_max self).

(** The prompt [edit_one] puts up for a field whose own bound is [m] and
    whose value is [own], the other fields being what [ints] holds. *)
Definition field_prompt (cfg : Config) (self : MultiEditor.t) (m own : Z)
    : IntInput.t :=
  let bound :=
    if MultiEditor.cumulative_max self
    then m - (Py.sum (MultiEditor.ints self) - own)
    else m in
  IntInput.init cfg (Some bound) 0 (Some own) true.

(** The bound of a field as the first loop of [edit_all] takes it, and the
    value the second loop gives the field for the accepted input [u]. *)
Definition resolved (cfg : Config) (self : MultiEditor.t) (mv : option Z) : Z :=
  match mv with
  | Some m => m
  | None => IntInput.get_max_value cfg None (MultiEditor.signed self)
  end.

Definition all_value (cfg : Config) (self : MultiEditor.t) (u : Z)
    (mv : option Z) : Z :=
  Z.min u (IntInput.get_max_value cfg mv (MultiEditor.signed self)).

End Budget.

(** ** game_data_getter.py: [download_from_path] *)

Module Fetch.

(** [s.split(sep)] for a separator of one character *)
Fixpoint split_on (sep : ascii) (s : string) : list string :=
  match s with
  | EmptyString => [EmptyString]
  | String c r =>
      match split_on sep r with
      | h :: t =>
          if Ascii.eqb c sep then EmptyString :: h :: t else String c h :: t
      | [] => [String c EmptyString]
      end
  end.

(** No character of [s] is [sep]. *)
Fixpoint free_of (sep : ascii) (s : string) : bool :=
  match s with
  | EmptyString => true
  | String c r => negb (Ascii.eqb c sep) && free_of sep r
  end.

(** How often [sep] occurs in [s]. *)
Fixpoint occurrences (sep : ascii) (s : string) : nat :=
  match s with
  | EmptyString => 0
  | String c r =>
      if Ascii.eqb c sep then S (occurrences sep r) else occurrences sep r
  end.

(** [download_from_path]: [pack_name, file_name = path.split("/")] raises
    [ValueError], before anything else happens, unless the path has exactly
    two parts; that is [None] here. *)
Definition download_from_path (env : GameDataGetter.Env) (fuel : nat)
    (self : GameDataGetter.t) (path : string) (retries : Z)
    (display_text : bool)
    : option (M GameDataGetter.World (option Data.t)) :=
  match split_on "/" path with
  | [pack_name; file_name] =>
      let pack_name := GameDataGetter.get_packname env self pack_name in
      Some (GameDataGetter.download env fuel self pack_name file_name retries
              display_text)
  | _ => None
  end.

(** A repository that never answers a request with status 200. *)
Definition always_fails (env : GameDataGetter.Env) : Prop :=
  forall k u, exists resp,
    GameDataGetter.net env k u = Ok resp /\
    GameDataGetter.status_code resp <> 200.

End Fetch.

(** ** enigma.py: [Enigma.edit_enigma] *)

Module EnigmaEdit.

Definition base_level : Z := 25000.

(** The labels of the menu: the names of the table in the order of their
    ids, [unknown id] (the "unknown" label of the locale files) where the
    table has no name for the id. *)
Definition names_list (unknown : Z -> string) (names : gmap Z (option string))
    : list string :=
  (fun id => match names !! id with
             | Some (Some name) => name
             | _ => unknown id
             end)
    <$> merge_sort Z.le (elements (dom names)).

Definition st : Type := Enigma.t * Console.t.

Definition this : M st Enigma.t := fun s => (Ok (fst s), s).

Definition set_stages (l : list Stage.t) : M st unit :=
  fun s =>
    let self := fst s in
    (Ok tt, (Enigma.mk (Enigma.energy_since_1 self) (Enigma.energy_since_2 self)
                       (Enigma.enigma_level self) (Enigma.unknown_1 self)
                       (Enigma.unknown_2 self) l,
             snd s)).

Definition console {A} (m : M Console.t A) : M st A :=
  fun s => let '(r, c) := m (snd s) in (r, (fst s, c)).

(** [for enigma_id in ids: ... self.stages.append(stage)]; [clock k] is what
    [int(time.time())] gives at its [k]-th call. *)
Fixpoint append_stages (clock : nat -> Z) (tick : nat) (ids : list Z)
    (stages : list Stage.t) : list Stage.t :=
  match ids with
  | [] => stages
  | enigma_id :: ids' =>
      let abs_id := enigma_id + base_level in
      append_stages clock (S tick) ids'
        (stages ++ [Stage.mk 3 abs_id 2 (clock tick)])
  end.

(** [names[stage.stage_id - base_level]] finds a key for every stage. *)
Definition all_named (names : gmap Z (option string)) (stages : list Stage.t)
    : bool :=
  forallb (fun stage =>
             bool_decide (is_Some (names !! (Stage.stage_id stage - base_level))))
          stages.

(** [edit_enigma], with the name table [EnigmaNames(save_file).enigma_names]
    given.  Listing the current stages looks every stage up in the table
    and raises [KeyError] for a stage the table lacks, before any prompt:
    that is [None] here. *)
Definition edit_enigma (unknown : Z -> string) (yes_key : string)
    (clock : nat -> Z) (names : gmap Z (option string)) (self : Enigma.t)
    : option (M st unit) :=
  let names_list := names_list unknown names in
  if all_named names (Enigma.stages self) then
    Some (
      let! _ :=
        (if bool_decide (Enigma.stages self <> []) then
           let! wipe :=
             console (YesNoInput.get_input_once yes_key (YesNoInput.mk false)) in
           if wipe : bool then set_stages [] else mret tt
         else mret tt) in
      let! r :=
        (fun s =>
           let '(r, (_, c')) :=
             ChoiceInput.multiple_choice
               (ChoiceInput.mk names_list names_list [] "enigma_select" false,
                snd s) in
           (r, (fst s, c'))) in
      let ids := fst r in
      let! self := this in
      set_stages (append_stages clock 0 ids (Enigma.stages self)))
  else None.

(** The stage [edit_enigma] makes of a chosen id at the clock value [t]. *)
Definition new_stage (enigma_id t : Z) : Stage.t :=
  Stage.mk 3 (enigma_id + base_level) 2 t.

(** What the menu of [edit_enigma] makes of a typed line, the table having
    [n] names: every position when the line holds [n + 1], otherwise the
    numbers of the line, less one. *)
Definition chosen (n : nat) (line : string) : list Z :=
  if bool_decide (Z.of_nat (n + 1) ∈ ChoiceInput.int_vals line)
  then Z.of_nat <$> seq 0 n
  else (fun i => i - 1) <$> ChoiceInput.int_vals line.

(** The stages [edit_enigma] appends for the chosen positions. *)
Definition added (clock : nat -> Z) (ids : list Z) : list Stage.t :=
  imap (fun i id => new_stage id (clock i)) ids.

(** The [Enigma] with [stages] replaced. *)
Definition with_stages (self : Enigma.t) (l : list Stage.t) : Enigma.t :=
  Enigma.mk (Enigma.energy_since_1 self) (Enigma.energy_since_2 self)
            (Enigma.enigma_level self) (Enigma.unknown_1 self)
            (Enigma.unknown_2 self) l.

(** Whether the answer to the wipe question is a yes. *)
Definition wipes (yes_key answer : string) : bool :=
  if String.eqb answer "" then false else String.eqb answer yes_key.

End EnigmaEdit.

(** ** dialog_creator.py: [IntInput.get_basic_input_locale] *)

Module BasicInput.

(** One line, through [int] alone: [None] for a line [int] rejects.  The
    object's [min], [max] and [default] are not consulted. *)
Definition get_basic_input_locale (self : IntInput.t) : M Console.t (option Z) :=
  let! user_input := Console.get in
  match Py.int user_input with
  | Some user_input => mret (Some user_input)
  | None => mret None
  end.

End BasicInput.

(** * Properties *)

(** ** The binary cursor *)

Section Cursor.

Import Data.

Lemma length_le_encode n v : length (le_encode n v) = n.
Proof. revert v; induction n as [|n IH]; intros v; simpl; [done | by rewrite IH]. Qed.

Lemma le_decode_encode n v :
  le_decode (le_encode n v) = v mod 2 ^ (8 * Z.of_nat n).
Proof.
  revert v; induction n as [|n IH]; intros v.
  - simpl. by rewrite Z.mod_1_r.
  - cbn [le_encode le_decode]. rewrite IH.
    replace (8 * Z.of_nat (S n)) with (8 + 8 * Z.of_nat n) by lia.
    rewrite Z.pow_add_r by lia.
    change (2 ^ 8) with 256.
    rewrite Z.rem_mul_r by lia. reflexivity.
Qed.

Lemma to_signed_wrap v :
  - 2 ^ 31 <= v < 2 ^ 31 -> to_signed 32 (v mod 2 ^ 32) = v.
Proof.
  unfold to_signed. change (32 - 1) with 31.
  change (2 ^ 31) with 2147483648. change (2 ^ 32) with 4294967296.
  intros Hv.
  destruct (Z_lt_dec v 0) as [Hneg|Hpos].
  - assert (v mod 4294967296 = v + 4294967296) as ->.
    { symmetry. apply Z.mod_unique with (q := -1); lia. }
    destruct (Z_lt_dec _ _); lia.
  - rewrite Z.mod_small by lia.
    destruct (Z_lt_dec _ _); lia.
Qed.

Lemma write_bytes_app bs1 bs2 d :
  write_bytes bs2 (write_bytes bs1 d) = write_bytes (bs1 ++ bs2) d.
Proof.
  unfold write_bytes; simpl. rewrite <- app_assoc, length_app.
  f_equal. lia.
Qed.

Lemma write_bytes_nil d : write_bytes [] d = d.
Proof.
  destruct d as [bs p]. unfold write_bytes; simpl.
  rewrite app_nil_r. f_equal. lia.
Qed.

Lemma decodes_ret {A} (v : A) : decodes (ret v) [] v.
Proof. intros pre post. unfold ret. simpl. repeat f_equal. lia. Qed.

Lemma decodes_bind {A B} (r : reader A) (k : A -> reader B) bs1 bs2 a b :
  decodes r bs1 a -> decodes (k a) bs2 b -> decodes (bind r k) (bs1 ++ bs2) b.
Proof.
  intros H1 H2 pre post. unfold bind.
  specialize (H1 pre (bs2 ++ post)).
  rewrite <- app_assoc, H1.
  specialize (H2 (pre ++ bs1) post).
  rewrite <- !app_assoc, length_app in H2. rewrite H2.
  rewrite length_app, Nat.add_assoc. reflexivity.
Qed.

Lemma decodes_map {A B} (r : reader A) (f : A -> B) bs a :
  decodes r bs a -> decodes (bind r (fun x => ret (f x))) bs (f a).
Proof.
  intros H. rewrite <- (app_nil_r bs).
  eapply decodes_bind; [exact H | apply decodes_ret].
Qed.

Lemma decodes_read_bytes n bs : length bs = n -> decodes (read_bytes n) bs bs.
Proof.
  intros <- pre post. unfold read_bytes. cbn [data pos].
  rewrite drop_app_length, take_app_length.
  rewrite decide_True by reflexivity. reflexivity.
Qed.

Lemma decodes_read_int v :
  - 2 ^ 31 <= v < 2 ^ 31 -> decodes read_int (le_encode 4 v) v.
Proof.
  intros Hv. unfold read_int.
  rewrite <- (to_signed_wrap v Hv) at 2.
  change (2 ^ 32) with (2 ^ (8 * Z.of_nat 4)).
  rewrite <- le_decode_encode.
  apply (decodes_map _ (fun bs => to_signed 32 (le_decode bs))).
  apply decodes_read_bytes, length_le_encode.
Qed.

Lemma decodes_read_byte v :
  0 <= v < 256 -> decodes read_byte (le_encode 1 v) v.
Proof.
  intros Hv. unfold read_byte.
  rewrite <- (Z.mod_small v 256) at 2 by lia.
  change 256 with (2 ^ (8 * Z.of_nat 1)).
  rewrite <- le_decode_encode.
  apply (decodes_map _ le_decode).
  apply decodes_read_bytes, length_le_encode.
Qed.

Lemma decodes_read_bool (b : bool) :
  decodes read_bool (le_encode 1 (if b then 1 else 0)) b.
Proof.
  unfold read_bool.
  destruct b.
  - apply (decodes_map read_byte (fun x => negb (x =? 0)) _ 1).
    apply decodes_read_byte. lia.
  - apply (decodes_map read_byte (fun x => negb (x =? 0)) _ 0).
    apply decodes_read_byte. lia.
Qed.

Lemma decodes_read_double v :
  0 <= v < 2 ^ 64 -> decodes read_double (le_encode 8 v) v.
Proof.
  intros Hv. unfold read_double.
  rewrite <- (Z.mod_small v (2 ^ 64)) at 2 by lia.
  change (2 ^ 64) with (2 ^ (8 * Z.of_nat 8)).
  rewrite <- le_decode_encode.
  apply (decodes_map _ le_decode).
  apply decodes_read_bytes, length_le_encode.
Qed.

Lemma decodes_whole {A} (r : reader A) bs v :
  decodes r bs v ->
  r (of_bytes bs) = Some (v, mk bs (length bs)).
Proof.
  intros H. specialize (H [] []). simpl in H.
  rewrite app_nil_r in H. exact H.
Qed.

End Cursor.

(** ** The record codec *)

Section Codec.

Import Data.

Lemma Stage_encode_eq s :
  Stage.encode s
  = le_encode 4 (Stage.level s) ++ le_encode 4 (Stage.stage_id s)
    ++ le_encode 1 (Stage.decoding_satus s) ++ le_encode 8 (Stage.start_time s).
Proof.
  unfold Stage.encode, Stage.write, write_int, write_byte, write_double.
  rewrite !write_bytes_app. unfold write_bytes, to_bytes, empty, data.
  rewrite app_nil_l, <- ?app_assoc. reflexivity.
Qed.

Lemma Stage_write_eq s d : Stage.write s d = write_bytes (Stage.encode s) d.
Proof.
  rewrite Stage_encode_eq.
  unfold Stage.write, write_int, write_byte, write_double.
  rewrite !write_bytes_app, <- ?app_assoc. reflexivity.
Qed.

Lemma Stage_encode_length s : length (Stage.encode s) = 17%nat.
Proof. rewrite Stage_encode_eq, !length_app, !length_le_encode. reflexivity. Qed.

Lemma Stage_decodes s :
  Stage.in_range s -> decodes Stage.read (Stage.encode s) s.
Proof.
  intros (Hl & Hi & Hd & Ht). rewrite Stage_encode_eq.
  destruct s as [l i ds t]; cbn [Stage.level Stage.stage_id
    Stage.decoding_satus Stage.start_time] in *.
  unfold Stage.read.
  eapply decodes_bind; [by apply decodes_read_int|].
  eapply decodes_bind; [by apply decodes_read_int|].
  eapply decodes_bind; [by apply decodes_read_byte|].
  rewrite <- (app_nil_r (le_encode 8 t)).
  eapply decodes_bind; [by apply decodes_read_double|].
  apply decodes_ret.
Qed.

Lemma write_stages_eq ss d :
  Enigma.write_stages ss d = write_bytes (concat (Stage.encode <$> ss)) d.
Proof.
  revert d; induction ss as [|s ss IH]; intros d; cbn [Enigma.write_stages].
  - simpl. by rewrite write_bytes_nil.
  - rewrite IH, Stage_write_eq, write_bytes_app. reflexivity.
Qed.

Lemma stages_encode_length ss :
  length (concat (Stage.encode <$> ss)) = (17 * length ss)%nat.
Proof.
  induction ss as [|s ss IH]; [reflexivity|].
  cbn [fmap list_fmap concat length].
  rewrite length_app, Stage_encode_length.
  change (length (concat (list_fmap _ _ Stage.encode ss)))
    with (length (concat (Stage.encode <$> ss))).
  rewrite IH. lia.
Qed.

Lemma read_stages_decodes ss :
  Forall Stage.in_range ss ->
  decodes (Enigma.read_stages (length ss)) (concat (Stage.encode <$> ss)) ss.
Proof.
  induction 1 as [|s ss Hs Hss IH]; cbn [length Enigma.read_stages].
  - apply decodes_ret.
  - cbn [fmap list_fmap concat].
    eapply decodes_bind; [by apply Stage_decodes|].
    rewrite <- (app_nil_r (concat _)).
    eapply decodes_bind; [exact IH|].
    apply decodes_ret.
Qed.

Lemma Enigma_encode_eq e :
  Enigma.encode e
  = le_encode 4 (Enigma.energy_since_1 e) ++ le_encode 4 (Enigma.energy_since_2 e)
    ++ le_encode 1 (Enigma.enigma_level e) ++ le_encode 1 (Enigma.unknown_1 e)
    ++ le_encode 1 (if Enigma.unknown_2 e then 1 else 0)
    ++ le_encode 1 (Z.of_nat (length (Enigma.stages e)))
    ++ concat (Stage.encode <$> Enigma.stages e).
Proof.
  unfold Enigma.encode, Enigma.write, write_int, write_byte, write_bool,
    write_byte.
  rewrite write_stages_eq, !write_bytes_app.
  unfold write_bytes, to_bytes, empty, data.
  rewrite app_nil_l, <- ?app_assoc. reflexivity.
Qed.

Lemma Enigma_write_eq e d : Enigma.write e d = write_bytes (Enigma.encode e) d.
Proof.
  rewrite Enigma_encode_eq.
  unfold Enigma.write, write_int, write_byte, write_bool, write_byte.
  rewrite write_stages_eq, !write_bytes_app, <- ?app_assoc. reflexivity.
Qed.

Lemma Enigma_decodes e :
  Enigma.in_range e -> decodes Enigma.read (Enigma.encode e) e.
Proof.
  intros (H1 & H2 & Hl & Hu & Hn & Hss). rewrite Enigma_encode_eq.
  destruct e as [e1 e2 lv u1 u2 ss]; cbn [Enigma.energy_since_1
    Enigma.energy_since_2 Enigma.enigma_level Enigma.unknown_1
    Enigma.unknown_2 Enigma.stages] in *.
  unfold Enigma.read.
  eapply decodes_bind; [by apply decodes_read_int|].
  eapply decodes_bind; [by apply decodes_read_int|].
  eapply decodes_bind; [by apply decodes_read_byte|].
  eapply decodes_bind; [by apply decodes_read_byte|].
  eapply decodes_bind; [by apply decodes_read_bool|].
  eapply decodes_bind; [apply decodes_read_byte; lia|].
  rewrite Nat2Z.id.
  rewrite <- (app_nil_r (concat _)).
  eapply decodes_bind; [by apply read_stages_decodes|].
  apply decodes_ret.
Qed.

Lemma decodes_reencodes {A} (read : reader A) (write : A -> t -> t) bs v :
  decodes read bs v -> to_bytes (write v empty) = bs ->
  reencodes read write bs.
Proof.
  intros Hd Hw. exists v, (mk bs (length bs)).
  split; [by apply decodes_whole|]. split; [reflexivity | exact Hw].
Qed.

End Codec.

(** C1.  [Stage.read]/[Stage.write] and [Enigma.read]/[Enigma.write] are
    mutually inverse, byte for byte.  For a [Stage] and an [Enigma] whose
    integer fields are within their binary widths (and at most 255 stages):
    reading the bytes that [write] emitted gives the record back, wherever
    those bytes sit in a buffer, and stops right after them; and a buffer
    that [write] produced is read in full and written back unchanged.
    [write] emits the same bytes at the end of any buffer.  ([start_time]
    is the 64-bit pattern of the double.) *)
Theorem codec_round_trip (s : Stage.t) (e : Enigma.t) :
  Stage.in_range s -> Enigma.in_range e ->
  Data.decodes Stage.read (Stage.encode s) s /\
  Data.decodes Enigma.read (Enigma.encode e) e /\
  Data.reencodes Stage.read Stage.write (Stage.encode s) /\
  Data.reencodes Enigma.read Enigma.write (Enigma.encode e) /\
  (forall d, Data.data (Stage.write s d) = Data.data d ++ Stage.encode s) /\
  (forall d, Data.data (Enigma.write e d) = Data.data d ++ Enigma.encode e).
Proof.
  intros Hs He.
  pose proof (Stage_decodes s Hs) as Ds.
  pose proof (Enigma_decodes e He) as De.
  split; [exact Ds|]. split; [exact De|].
  split; [by eapply decodes_reencodes|].
  split; [by eapply decodes_reencodes|].
  split; intros d.
  - by rewrite Stage_write_eq.
  - by rewrite Enigma_write_eq.
Qed.

(** The round trip on a concrete [Enigma] with two stages. *)
Lemma codec_round_trip_witness :
  let s := Stage.mk 3 25001 2 4743226172272934912 in
  let e := Enigma.mk 1700000000 (-1) 3 255 true [s; Stage.init] in
  Data.decodes Stage.read (Stage.encode s) s /\
  Data.decodes Enigma.read (Enigma.encode e) e /\
  Data.reencodes Stage.read Stage.write (Stage.encode s) /\
  Data.reencodes Enigma.read Enigma.write (Enigma.encode e) /\
  (forall d, Data.data (Stage.write s d) = Data.data d ++ Stage.encode s) /\
  (forall d, Data.data (Enigma.write e d) = Data.data d ++ Enigma.encode e).
Proof.
  intros s e. apply (codec_round_trip s e).
  - unfold Stage.in_range; simpl; lia.
  - unfold Enigma.in_range; simpl.
    repeat split; try lia;
      repeat constructor; unfold Stage.in_range; simpl; lia.
Defined.

(** C2.  [Enigma.write] on 255 and on 256 stages.  With exactly 255 stages
    the count byte is 255 and the bytes written read back as the record.
    With 256 stages nothing is rejected and nothing is dropped: the count
    byte written is 0, all 256 stages follow it, and [Enigma.read] on the
    bytes written stops behind the header with no stage at all, 4352 bytes
    left unread.  So the record written is not the record read back. *)
Theorem Enigma_write_256_wraps :
  Enigma.encode (Examples.enigma_of 255) !! 11%nat = Some 255 /\
  Enigma.read (Data.of_bytes (Enigma.encode (Examples.enigma_of 255)))
  = Some (Examples.enigma_of 255,
          Data.mk (Enigma.encode (Examples.enigma_of 255)) (12 + 17 * 255)) /\
  Enigma.encode (Examples.enigma_of 256) !! 11%nat = Some 0 /\
  length (Enigma.encode (Examples.enigma_of 256)) = (12 + 17 * 256)%nat /\
  drop 12 (Enigma.encode (Examples.enigma_of 256))
  = concat (Stage.encode <$> Enigma.stages (Examples.enigma_of 256)) /\
  Enigma.read (Data.of_bytes (Enigma.encode (Examples.enigma_of 256)))
  = Some (Examples.enigma_of 0,
          Data.mk (Enigma.encode (Examples.enigma_of 256)) 12).
Proof. vm_compute. repeat split. Qed.

(** ** [IntInput] *)

Section IntInputFacts.

Import IntInput.

Local Open Scope string_scope.

Lemma get_max_value_bounded (cfg : Config) (m : Z) (signed : bool) :
  disable_maxes cfg = false ->
  m <= 2 ^ 31 - 1 ->
  get_max_value cfg (Some m) signed = m.
Proof.
  intros Hcfg Hm. unfold get_max_value. rewrite Hcfg.
  change (2 ^ 31 - 1) with 2147483647 in *.
  change (2 ^ 32 - 1) with 4294967295.
  destruct signed; lia.
Qed.

Lemma clamp_value_range (self : t) (v : Z) :
  min self <= max self -> min self <= clamp_value self v <= max self.
Proof. unfold clamp_value. lia. Qed.

Lemma int_nonempty (line : string) (v : Z) : Py.int line = Some v -> line <> "".
Proof. intros H ->. discriminate H. Qed.

Lemma get_input_eof (self : t) (n : nat) :
  get_input self (Console.mk [] n) = (Raise EOFError, Console.mk [] (S n)).
Proof. reflexivity. Qed.

Lemma get_input_parsed (self : t) (line : string) (v : Z) rest n :
  Py.int line = Some v ->
  get_input self (Console.mk (line :: rest) n)
  = (Ok (Some (clamp_value self v), line), Console.mk rest (S n)).
Proof.
  intros Hv. unfold get_input, mbind, Console.get.
  cbn [Console.pending Console.prompts].
  destruct (String.eqb_spec line "") as [->|_]; [discriminate Hv|].
  cbn [andb]. rewrite Hv. reflexivity.
Qed.

Lemma get_input_unparsed (self : t) (line : string) rest n :
  Py.int line = None ->
  default self = None \/ line <> "" ->
  get_input self (Console.mk (line :: rest) n)
  = (Ok (None, line), Console.mk rest (S n)).
Proof.
  intros Hv Hd. unfold get_input, mbind, Console.get.
  cbn [Console.pending Console.prompts].
  destruct (String.eqb_spec line "") as [->|_]; cbn [andb].
  - destruct Hd as [Hd|Hd]; [|done].
    rewrite bool_decide_eq_false_2 by (by rewrite Hd; intros []).
    rewrite Hv. reflexivity.
  - rewrite Hv. reflexivity.
Qed.

Lemma get_input_default (self : t) (d : Z) rest n :
  default self = Some d ->
  get_input self (Console.mk ("" :: rest) n)
  = (Ok (Some d, ""), Console.mk rest (S n)).
Proof.
  intros Hd. unfold get_input, mbind, Console.get.
  cbn [Console.pending Console.prompts String.eqb andb].
  rewrite bool_decide_eq_true_2 by (by rewrite Hd).
  rewrite Hd. reflexivity.
Qed.

Lemma get_input_ok (self : t) (line : string) rest n :
  exists r, get_input self (Console.mk (line :: rest) n)
            = (Ok r, Console.mk rest (S n)).
Proof.
  unfold get_input, mbind, Console.get.
  cbn [Console.pending Console.prompts].
  destruct (_ && _)%bool, (Py.int line); eauto.
Qed.

(** One turn of the [while True] loop of [get_input_while]. *)
Lemma get_input_while_step (self : t) (line : string) rest n :
  get_input_while self (Console.mk (line :: rest) n)
  = match fst (get_input self (Console.mk (line :: rest) n)) with
    | Ok (Some v, _) => (Ok (Some v), Console.mk rest (S n))
    | Ok (None, user_input) =>
        if String.eqb user_input "q" then (Ok None, Console.mk rest (S n))
        else get_input_while self (Console.mk rest (S n))
    | Raise e => (Raise e, Console.mk rest (S n))
    end.
Proof.
  destruct (get_input_ok self line rest n) as [[int_val user_input] E].
  unfold get_input_while. cbn [Console.pending length get_input_loop].
  unfold mbind at 1. rewrite E. cbn [fst].
  destruct int_val; [reflexivity|].
  destruct (String.eqb user_input "q"); reflexivity.
Qed.

Lemma get_input_while_eof (self : t) (n : nat) :
  get_input_while self (Console.mk [] n) = (Raise EOFError, Console.mk [] (S n)).
Proof. reflexivity. Qed.

Lemma get_input_while_parsed (self : t) (line : string) (v : Z) rest n :
  Py.int line = Some v ->
  get_input_while self (Console.mk (line :: rest) n)
  = (Ok (Some (clamp_value self v)), Console.mk rest (S n)).
Proof.
  intros Hv. rewrite get_input_while_step.
  rewrite (get_input_parsed self line v) by exact Hv. reflexivity.
Qed.

Lemma get_input_while_default (self : t) (d : Z) rest n :
  default self = Some d ->
  get_input_while self (Console.mk ("" :: rest) n)
  = (Ok (Some d), Console.mk rest (S n)).
Proof.
  intros Hd. rewrite get_input_while_step.
  rewrite (get_input_default self d) by exact Hd. reflexivity.
Qed.

Lemma get_input_while_retry (self : t) (line : string) rest n :
  Py.int line = None ->
  default self = None \/ line <> "" ->
  line <> "q" ->
  get_input_while self (Console.mk (line :: rest) n)
  = get_input_while self (Console.mk rest (S n)).
Proof.
  intros Hv Hd Hq. rewrite get_input_while_step, get_input_unparsed by done.
  cbn [fst]. destruct (String.eqb_spec line "q"); [done | reflexivity].
Qed.

Lemma get_input_while_quit (self : t) rest n :
  get_input_while self (Console.mk ("q" :: rest) n)
  = (Ok None, Console.mk rest (S n)).
Proof.
  rewrite get_input_while_step, get_input_unparsed; [reflexivity..|].
  right; discriminate.
Qed.

(** Lines that [int] rejects never make the loop return a value. *)
Lemma get_input_while_no_value (self : t) (lines : list string) n v :
  default self = None ->
  Forall (fun line => Py.int line = None) lines ->
  fst (get_input_while self (Console.mk lines n)) <> Ok (Some v).
Proof.
  intros Hd Hall. revert n.
  induction Hall as [|line lines Hline _ IH]; intros n.
  - rewrite get_input_while_eof. discriminate.
  - rewrite get_input_while_step, get_input_unparsed by auto.
    cbn [fst]. destruct (String.eqb line "q"); [discriminate | apply IH].
Qed.

End IntInputFacts.

(** C4, as the code has it.  With the disabled-maxes toggle off, an
    [IntInput] constructed with [max=10] and [min=1] clamps every line that
    [int] accepts into [1, 10] and accepts it: [get_input] returns the
    clamped value and [get_input_while] stops with it; the lines -5, 0, 1,
    10, 11, 999 give 1, 1, 1, 10, 10, 10.  A line that [int] rejects gives
    no value: [get_input] returns [None] for it and [get_input_while] asks
    again (unless the line is the quit key), and lines of that kind alone
    never make it return a value. *)
Theorem IntInput_1_10_clamps (cfg : Config) (default : option Z) (signed : bool) :
  disable_maxes cfg = false ->
  let self := IntInput.init cfg (Some 10) 1 default signed in
  (forall line v rest n,
     Py.int line = Some v ->
     1 <= IntInput.clamp_value self v <= 10 /\
     IntInput.clamp_value self v = Z.max (Z.min v 10) 1 /\
     IntInput.get_input self (Console.mk (line :: rest) n)
     = (Ok (Some (IntInput.clamp_value self v), line), Console.mk rest (S n)) /\
     IntInput.get_input_while self (Console.mk (line :: rest) n)
     = (Ok (Some (IntInput.clamp_value self v)), Console.mk rest (S n))) /\
  (fun line => fst (IntInput.get_input_while self (Console.mk [line] 0)))
    <$> ["-5"; "0"; "1"; "10"; "11"; "999"]%string
  = (fun v => Ok (Some v)) <$> [1; 1; 1; 10; 10; 10] /\
  (forall line rest n,
     Py.int line = None ->
     default = None \/ line <> ""%string ->
     IntInput.get_input self (Console.mk (line :: rest) n)
     = (Ok (None, line), Console.mk rest (S n)) /\
     (line <> "q"%string ->
      IntInput.get_input_while self (Console.mk (line :: rest) n)
      = IntInput.get_input_while self (Console.mk rest (S n)))) /\
  (forall rest n,
     IntInput.get_input self (Console.mk ("abc"%string :: rest) n)
     = (Ok (None, "abc"%string), Console.mk rest (S n)) /\
     IntInput.get_input_while self (Console.mk ("abc"%string :: rest) n)
     = IntInput.get_input_while self (Console.mk rest (S n))) /\
  (forall lines n v,
     default = None ->
     Forall (fun line => Py.int line = None) lines ->
     fst (IntInput.get_input_while self (Console.mk lines n)) <> Ok (Some v)).
Proof.
  intros Hcfg self.
  assert (IntInput.max self = 10) as Hmax.
  { unfold self, IntInput.init. cbn [IntInput.max].
    apply get_max_value_bounded; [exact Hcfg | lia]. }
  assert (forall v, IntInput.clamp_value self v = Z.max (Z.min v 10) 1) as Hclamp.
  { intros v. unfold IntInput.clamp_value. rewrite Hmax. reflexivity. }
  assert (forall line v rest n,
     Py.int line = Some v ->
     IntInput.get_input_while self (Console.mk (line :: rest) n)
     = (Ok (Some (Z.max (Z.min v 10) 1)), Console.mk rest (S n))) as Hwhile.
  { intros line v rest n Hv. rewrite <- Hclamp.
    by apply get_input_while_parsed. }
  split; [|split; [|split; [|split]]].
  - intros line v rest n Hv. rewrite Hclamp. split; [lia|]. split; [reflexivity|].
    rewrite <- Hclamp.
    split; [by apply get_input_parsed | by apply get_input_while_parsed].
  - cbn [fmap list_fmap].
    rewrite (Hwhile _ (-5)), (Hwhile _ 0), (Hwhile _ 1), (Hwhile _ 10),
      (Hwhile _ 11), (Hwhile _ 999) by reflexivity.
    reflexivity.
  - intros line rest n Hv Hd. split.
    + by apply get_input_unparsed.
    + intros Hq. by apply get_input_while_retry.
  - intros rest n. split.
    + apply get_input_unparsed; [reflexivity | right; discriminate].
    + apply get_input_while_retry;
        [reflexivity | right; discriminate | discriminate].
  - intros lines n v Hd Hall. by apply get_input_while_no_value.
Qed.

(** The six inputs of the spec, with the toggle off. *)
Lemma IntInput_1_10_clamps_witness :
  let self := IntInput.init Examples.maxes_on (Some 10) 1 None true in
  (fun line => fst (IntInput.get_input_while self (Console.mk [line] 0)))
    <$> ["-5"; "0"; "1"; "10"; "11"; "999"]%string
  = (fun v => Ok (Some v)) <$> [1; 1; 1; 10; 10; 10].
Proof.
  intros self.
  apply (IntInput_1_10_clamps Examples.maxes_on None true).
  reflexivity.
Defined.

(** C4, as the spec has it, fails when the disabled-maxes toggle is on: the
    same constructor call then bounds the input by [2^31 - 1] only, and 11
    and 999 are accepted as they are. *)
Lemma IntInput_1_10_maxes_disabled :
  let self := IntInput.init Examples.maxes_off (Some 10) 1 None true in
  IntInput.max self = 2 ^ 31 - 1 /\
  IntInput.get_input self (Console.mk ["11"%string] 0)
  = (Ok (Some 11, "11"%string), Console.mk [] 1) /\
  IntInput.get_input_while self (Console.mk ["999"%string] 0)
  = (Ok (Some 999), Console.mk [] 1).
Proof. vm_compute. repeat split. Qed.

(** C9.  With a default, the empty line gives the default as it is:
    [get_input] returns it without passing it to [clamp_value], whatever
    the bounds, and [get_input_while] stops with it.  So [default=5] gives 5,
    and a default of 50 is returned by an [IntInput] whose bounds are
    [1, 10]. *)
Theorem IntInput_default_unclamped (cfg : Config) (max : option Z) (min d : Z)
    (signed : bool) (rest : list string) (n : nat) :
  let self := IntInput.init cfg max min (Some d) signed in
  IntInput.get_input self (Console.mk (""%string :: rest) n)
  = (Ok (Some d, ""%string), Console.mk rest (S n)) /\
  IntInput.get_input_while self (Console.mk (""%string :: rest) n)
  = (Ok (Some d), Console.mk rest (S n)) /\
  fst (IntInput.get_input (IntInput.init cfg None 0 (Some 5) true)
         (Console.mk (""%string :: rest) n))
  = Ok (Some 5, ""%string) /\
  (let bounded := IntInput.init Examples.maxes_on (Some 10) 1 (Some 50) true in
   IntInput.clamp_value bounded 50 = 10 /\
   fst (IntInput.get_input bounded (Console.mk (""%string :: rest) n))
   = Ok (Some 50, ""%string)).
Proof.
  intros self.
  split; [by apply get_input_default|].
  split; [by apply get_input_while_default|].
  split; [by rewrite (get_input_default _ 5)|].
  split; [reflexivity | by rewrite (get_input_default _ 50)].
Qed.

(** ** Decimal numerals *)

Section Numerals.

Import Py.

Local Open Scope string_scope.

Ltac each_digit d :=
  let H := fresh in
  intros H; unfold is_digit in H;
  assert (d = 0 \/ d = 1 \/ d = 2 \/ d = 3 \/ d = 4 \/ d = 5 \/ d = 6
          \/ d = 7 \/ d = 8 \/ d = 9) as [->|[->|[->|[->|[->|[->|[->|[->|[->| ->]]]]]]]]]
    by lia; clear H.

Lemma digit_of_char (d : Z) : is_digit d -> digit_of (digit_char d) = Some d.
Proof. each_digit d; reflexivity. Qed.

Lemma digit_char_not_space (d : Z) :
  is_digit d ->
  is_space (digit_char d) = false /\ Ascii.eqb (digit_char d) " " = false.
Proof. each_digit d; split; reflexivity. Qed.

Lemma int_unsigned (d : Z) (r : string) :
  is_digit d ->
  match String (digit_char d) r with
  | String "-" r0 => Z.opp <$> digits 0 false r0
  | String "+" r0 => digits 0 false r0
  | r0 => digits 0 false r0
  end = digits 0 false (String (digit_char d) r).
Proof. each_digit d; reflexivity. Qed.

Lemma digits_numeral (ds : list Z) (rest : string) (a : Z) (b : bool) :
  Forall is_digit ds ->
  digits a b (numeral ds rest)
  = digits (fold_left (fun a d => 10 * a + d) ds a)
           (match ds with [] => b | _ => true end) rest.
Proof.
  intros H; revert a b; induction H as [|d ds Hd _ IH]; intros a b.
  - reflexivity.
  - cbn [numeral foldr digits fold_left]. rewrite (digit_of_char d Hd).
    fold (numeral ds rest). rewrite IH. by destruct ds.
Qed.

Lemma numeral_snoc (ds : list Z) (d : Z) (rest : string) :
  numeral (ds ++ [d]) rest = numeral ds (String (digit_char d) rest).
Proof. unfold numeral. by rewrite foldr_app. Qed.

Lemma numeral_value_snoc (ds : list Z) (d : Z) :
  numeral_value (ds ++ [d]) = 10 * numeral_value ds + d.
Proof. unfold numeral_value. by rewrite fold_left_app. Qed.

Lemma str_digits_numeral (fuel : nat) (n : Z) (acc : string) :
  0 <= n < 10 ^ Z.of_nat (S fuel) ->
  exists ds,
    ds <> [] /\ Forall is_digit ds /\
    str_digits (S fuel) n acc = numeral ds acc /\ numeral_value ds = n.
Proof.
  revert n acc; induction fuel as [|fuel IH]; intros n acc Hn;
    cbn [str_digits]; destruct (Z.ltb_spec n 10) as [Hlt|Hge].
  - exists [n]. rewrite Z.mod_small by lia.
    split; [done|].
    split; [constructor; [unfold is_digit; lia | constructor]|].
    split; [reflexivity|].
    unfold numeral_value; cbn [fold_left]. lia.
  - change (10 ^ Z.of_nat 1) with 10 in Hn. lia.
  - exists [n]. rewrite Z.mod_small by lia.
    split; [done|].
    split; [constructor; [unfold is_digit; lia | constructor]|].
    split; [reflexivity|].
    unfold numeral_value; cbn [fold_left]. lia.
  - assert (0 <= n / 10 < 10 ^ Z.of_nat (S fuel)) as Hq.
    { split; [apply Z.div_pos; lia|].
      apply Z.div_lt_upper_bound; [lia|].
      rewrite <- Z.pow_succ_r by lia.
      replace (Z.succ (Z.of_nat (S fuel))) with (Z.of_nat (S (S fuel))) by lia.
      lia. }
    destruct (IH (n / 10) (String (digit_char (n mod 10)) acc) Hq)
      as (ds & Hne & Hds & E & Hv).
    exists (ds ++ [n mod 10])%list.
    split; [by destruct ds|].
    split.
    { apply Forall_app. split; [exact Hds|].
      constructor; [|constructor]. unfold is_digit.
      pose proof (Z.mod_pos_bound n 10). lia. }
    split; [by rewrite numeral_snoc|].
    rewrite numeral_value_snoc, Hv.
    pose proof (Z.div_mod n 10). lia.
Qed.

Lemma log2_fuel (n : Z) : 0 <= n -> n < 10 ^ Z.of_nat (S (Z.to_nat (Z.log2 n))).
Proof.
  intros Hn.
  pose proof (Z.log2_nonneg n) as Hl.
  replace (Z.of_nat (S (Z.to_nat (Z.log2 n)))) with (Z.succ (Z.log2 n)) by lia.
  destruct (Z.eq_dec n 0) as [->|Hz].
  - reflexivity.
  - pose proof (Z.log2_spec n ltac:(lia)) as [_ Hu].
    eapply Z.lt_le_trans; [exact Hu|].
    apply Z.pow_le_mono_l. lia.
Qed.

Lemma str_numeral (n : Z) :
  0 <= n ->
  exists ds,
    ds <> [] /\ Forall is_digit ds /\
    str n = numeral ds "" /\ numeral_value ds = n.
Proof.
  intros Hn. unfold str.
  destruct (Z.ltb_spec n 0) as [?|_]; [lia|].
  apply str_digits_numeral. split; [exact Hn | by apply log2_fuel].
Qed.

Lemma lstrip_numeral (ds : list Z) :
  Forall is_digit ds -> lstrip (numeral ds "") = numeral ds "".
Proof.
  intros [|d ds' Hd _]; [reflexivity|].
  cbn [numeral foldr lstrip].
  by rewrite (proj1 (digit_char_not_space d Hd)).
Qed.

Lemma rstrip_numeral (ds : list Z) :
  Forall is_digit ds -> rstrip (numeral ds "") = numeral ds "".
Proof.
  induction 1 as [|d ds Hd _ IH]; [reflexivity|].
  cbn [numeral foldr rstrip]. fold (numeral ds ""). rewrite IH.
  destruct (numeral ds ""); [|reflexivity].
  by rewrite (proj1 (digit_char_not_space d Hd)).
Qed.

Lemma split_space_numeral (ds : list Z) :
  Forall is_digit ds -> split_space (numeral ds "") = [numeral ds ""].
Proof.
  induction 1 as [|d ds Hd _ IH]; [reflexivity|].
  cbn [numeral foldr split_space]. fold (numeral ds ""). rewrite IH.
  by rewrite (proj2 (digit_char_not_space d Hd)).
Qed.

Lemma int_numeral (ds : list Z) :
  ds <> [] -> Forall is_digit ds ->
  Py.int (numeral ds "") = Some (numeral_value ds).
Proof.
  intros Hne Hds. unfold Py.int.
  rewrite lstrip_numeral, rstrip_numeral by exact Hds.
  destruct Hds as [|d ds Hd Hds]; [done|].
  cbn [numeral foldr]. rewrite (int_unsigned d _ Hd).
  change (String (digit_char d) (foldr _ "" ds)) with (numeral (d :: ds) "").
  rewrite digits_numeral by (by constructor). reflexivity.
Qed.

(** [int(str(n)) == n], and [str(n)] is one token of a typed line. *)
Lemma int_str (n : Z) : 0 <= n -> Py.int (str n) = Some n.
Proof.
  intros Hn. destruct (str_numeral n Hn) as (ds & Hne & Hds & -> & <-).
  by apply int_numeral.
Qed.

Lemma int_vals_str (n : Z) : 0 <= n -> ChoiceInput.int_vals (str n) = [n].
Proof.
  intros Hn. unfold ChoiceInput.int_vals.
  destruct (str_numeral n Hn) as (ds & Hne & Hds & E & Hv).
  rewrite E, split_space_numeral by exact Hds.
  cbn [omap list_omap]. rewrite int_numeral by assumption.
  by rewrite Hv.
Qed.

End Numerals.

(** ** [ChoiceInput] *)

Section ChoiceInputFacts.

Import ChoiceInput.

Lemma shift_indices (a n : nat) :
  (fun i => i - 1) <$> (Z.of_nat <$> seq (S a) n) = Z.of_nat <$> seq a n.
Proof.
  revert a; induction n as [|n IH]; intros a; [reflexivity|].
  cbn [seq fmap list_fmap]. f_equal; [lia | apply IH].
Qed.

Lemma get_input_locale_none (self : t) (c : Console.t) :
  strings self = [] ->
  get_input_locale (self, c) = (Ok ([], false), (self, c)).
Proof.
  intros H. unfold get_input_locale, mbind, this. cbn [fst].
  rewrite H. reflexivity.
Qed.

Lemma get_input_locale_one (self : t) (c : Console.t) (s : string) :
  strings self = [s] ->
  get_input_locale (self, c) = (Ok ([1], false), (self, c)).
Proof.
  intros H. unfold get_input_locale, mbind, this. cbn [fst].
  rewrite H. reflexivity.
Qed.

Lemma get_input_locale_all (self : t) (line : string) rest k :
  is_single_choice self = false ->
  (2 <= length (strings self))%nat ->
  Z.of_nat (length (strings self) + 1) ∈ int_vals line ->
  get_input_locale (self, Console.mk (line :: rest) k)
  = (Ok (Z.of_nat <$> seq 1 (length (strings self)), true),
     (mk (items self) (strings self ++ ["all_at_once"%string]) (ints self)
         (dialog self) false,
      Console.mk rest (S k))).
Proof.
  intros Hm Hn Hin.
  unfold get_input_locale, mbind at 1, this at 1. cbn [fst].
  rewrite decide_False by lia. rewrite decide_False by lia.
  rewrite Hm.
  unfold mbind, set_strings, this, console, Console.get.
  cbn [fst snd Console.pending Console.prompts strings is_single_choice].
  rewrite Hm, length_app. cbn [length negb andb].
  rewrite bool_decide_eq_true_2 by exact Hin. cbn [andb].
  replace (length (strings self) + 1 - 1)%nat with (length (strings self)) by lia.
  reflexivity.
Qed.

End ChoiceInputFacts.

(** C5.  [ChoiceInput.multiple_choice]: with no entry it returns the empty
    selection, and with exactly one entry it returns that entry (index 0),
    in both cases without a prompt: the console is left as it was, whatever
    it holds.  With [n >= 2] entries in multi-choice mode, a typed line one
    of whose numbers is [n + 1], the number the menu shows for the appended
    "all at once" entry, returns the indices [0 .. n-1] with [all_at_once]
    true, after one prompt; the line [str(n + 1)] is such a line.  With 3
    entries the line "4" returns [0; 1; 2] and [True]. *)
Theorem ChoiceInput_multiple_choice (self : ChoiceInput.t) (c : Console.t) :
  (ChoiceInput.strings self = [] ->
   ChoiceInput.multiple_choice (self, c) = (Ok ([], false), (self, c))) /\
  (forall s, ChoiceInput.strings self = [s] ->
   ChoiceInput.multiple_choice (self, c) = (Ok ([0], false), (self, c))) /\
  (forall line rest,
     ChoiceInput.is_single_choice self = false ->
     (2 <= length (ChoiceInput.strings self))%nat ->
     Console.pending c = line :: rest ->
     Z.of_nat (length (ChoiceInput.strings self) + 1) ∈ ChoiceInput.int_vals line ->
     let '(r, (_, c')) := ChoiceInput.multiple_choice (self, c) in
     r = Ok (Z.of_nat <$> seq 0 (length (ChoiceInput.strings self)), true) /\
     c' = Console.mk rest (S (Console.prompts c))) /\
  (forall rest,
     ChoiceInput.is_single_choice self = false ->
     (2 <= length (ChoiceInput.strings self))%nat ->
     Console.pending c
     = Py.str (Z.of_nat (length (ChoiceInput.strings self) + 1)) :: rest ->
     let '(r, (_, c')) := ChoiceInput.multiple_choice (self, c) in
     r = Ok (Z.of_nat <$> seq 0 (length (ChoiceInput.strings self)), true) /\
     c' = Console.mk rest (S (Console.prompts c))) /\
  fst (ChoiceInput.multiple_choice
         (Examples.three_choices, Console.mk ["4"%string] (Console.prompts c)))
  = Ok ([0; 1; 2], true).
Proof.
  assert (forall line rest,
     ChoiceInput.is_single_choice self = false ->
     (2 <= length (ChoiceInput.strings self))%nat ->
     Console.pending c = line :: rest ->
     Z.of_nat (length (ChoiceInput.strings self) + 1) ∈ ChoiceInput.int_vals line ->
     let '(r, (_, c')) := ChoiceInput.multiple_choice (self, c) in
     r = Ok (Z.of_nat <$> seq 0 (length (ChoiceInput.strings self)), true) /\
     c' = Console.mk rest (S (Console.prompts c))) as Hall; [|split; [|split; [|split; [exact Hall|split]]]].
  - intros line rest Hm Hn Hc Hin. destruct c as [pending k].
    cbn [Console.pending Console.prompts] in *. subst pending.
    unfold ChoiceInput.multiple_choice, mbind.
    rewrite get_input_locale_all by assumption.
    unfold mret. rewrite shift_indices. done.
  - intros H. unfold ChoiceInput.multiple_choice, mbind.
    by rewrite get_input_locale_none.
  - intros s H. unfold ChoiceInput.multiple_choice, mbind.
    by rewrite (get_input_locale_one self c s).
  - intros rest Hm Hn Hc. apply (Hall _ rest Hm Hn Hc).
    rewrite int_vals_str by lia. apply list_elem_of_here.
  - reflexivity.
Qed.

(** Three entries and the line "4". *)
Lemma ChoiceInput_multiple_choice_witness :
  let '(r, (_, c')) :=
    ChoiceInput.multiple_choice (Examples.three_choices, Console.mk ["4"%string] 0) in
  r = Ok (Z.of_nat <$> seq 0 3, true) /\ c' = Console.mk [] 1.
Proof.
  destruct (ChoiceInput_multiple_choice Examples.three_choices
              (Console.mk ["4"%string] 0)) as (_ & _ & H & _).
  apply (H "4"%string []).
  - reflexivity.
  - simpl; lia.
  - reflexivity.
  - vm_compute. apply list_elem_of_here.
Defined.

(** ** [MultiEditor] *)

Section MultiEditorFacts.

Import MultiEditor.

Lemma fold_max_acc (l : list Z) (a : Z) :
  0 <= a -> fold_left Z.max l a = Z.max a (foldr Z.max 0 l).
Proof.
  revert a; induction l as [|x l IH]; intros a Ha; cbn [fold_left foldr].
  - lia.
  - rewrite IH by lia. lia.
Qed.

Lemma fold_max_0 (l : list Z) : fold_left Z.max l 0 = foldr Z.max 0 l.
Proof.
  assert (0 <= foldr Z.max 0 l) by (induction l; cbn [foldr]; lia).
  rewrite fold_max_acc by lia. lia.
Qed.

Lemma getitem_field_bound (cfg : Config) (self : t) (choice b : Z) (s : st) :
  field_bound cfg self choice = Some b ->
  exists mv,
    Py.getitem (max_values self) choice s = (Ok mv, s) /\
    match mv with
    | Some m => m
    | None => IntInput.get_max_value cfg None (signed self)
    end = b.
Proof.
  unfold field_bound, Py.getitem.
  destruct (Py.index (max_values self) choice) as [k|]; [|discriminate].
  destruct (max_values self !! k) as [[m|]|]; [| |discriminate];
    intros [= <-]; eexists; split; reflexivity.
Qed.

Lemma max_max_loop_bounds (cfg : Config) (self : t) (c : Console.t)
    (choices bounds : list Z) (acc : Z) :
  Forall2 (fun choice b => field_bound cfg self choice = Some b) choices bounds ->
  max_max_loop cfg choices acc (self, c)
  = (Ok (fold_left Z.max bounds acc), (self, c)).
Proof.
  intros H; revert acc.
  induction H as [|choice b choices bounds Hb _ IH]; intros acc.
  - reflexivity.
  - cbn [max_max_loop fold_left]. unfold mbind, this. cbn [fst].
    destruct (getitem_field_bound cfg self choice b (self, c) Hb)
      as (mv & E & <-).
    rewrite E. apply IH.
Qed.

Lemma shared_bound_eq (cfg : Config) (self : t) (c : Console.t)
    (choices bounds : list Z) :
  choices <> [] ->
  Forall2 (fun choice b => field_bound cfg self choice = Some b) choices bounds ->
  shared_bound cfg choices (self, c)
  = (Ok (if cumulative_max self
         then foldr Z.max 0 bounds / Z.of_nat (length choices)
         else foldr Z.max 0 bounds),
     (self, c)).
Proof.
  intros Hne H. unfold shared_bound, mbind at 1, this at 1. cbn [fst].
  unfold mbind. rewrite (max_max_loop_bounds cfg self c choices bounds) by exact H.
  rewrite fold_max_0.
  destruct (cumulative_max self); [|reflexivity].
  rewrite decide_False; [reflexivity|].
  destruct choices; [done | discriminate].
Qed.

End MultiEditorFacts.

(** C3, as the code has it.  The bound [edit_all] shows and hands to its one
    prompt is the largest of the selected fields' individual bounds (and at
    least 0), divided by the number of selected fields when [cumulative_max]
    is set; computing it changes nothing.  For two fields with individual
    maxes 100 and 50, both selected: the shared bound is 100 // 2 = 50,
    entering 30 leaves both fields at 30, and so does the whole [edit] when
    "3" (all at once) and then "30" are typed. *)
Theorem edit_all_shared_bound (cfg : Config) (self : MultiEditor.t)
    (c : Console.t) (choices bounds : list Z) :
  choices <> [] ->
  Forall2 (fun choice b => MultiEditor.field_bound cfg self choice = Some b)
          choices bounds ->
  MultiEditor.shared_bound cfg choices (self, c)
  = (Ok (if MultiEditor.cumulative_max self
         then foldr Z.max 0 bounds / Z.of_nat (length choices)
         else foldr Z.max 0 bounds),
     (self, c)) /\
  fst (MultiEditor.shared_bound cfg [0; 1] (Examples.two_fields, c)) = Ok 50 /\
  fst (MultiEditor.edit_all cfg [0; 1]
         (Examples.two_fields,
          Console.mk ("30"%string :: Console.pending c) (Console.prompts c)))
  = Ok [30; 30] /\
  fst (MultiEditor.edit cfg
         (Examples.two_fields,
          Console.mk ("3"%string :: "30"%string :: Console.pending c)
                     (Console.prompts c)))
  = Ok [30; 30].
Proof.
  intros Hne H. split; [by apply shared_bound_eq|].
  destruct cfg as [[|]], c as [pending k]; repeat split.
Qed.

(** The two fields of the spec: the bounds of the choices [0; 1] are 100 and
    50, and the shared bound is [max 100 50 / 2]. *)
Lemma edit_all_shared_bound_witness :
  MultiEditor.shared_bound Examples.maxes_on [0; 1]
    (Examples.two_fields, Console.mk [] 0)
  = (Ok (foldr Z.max 0 [100; 50] / Z.of_nat (length [0; 1])),
     (Examples.two_fields, Console.mk [] 0)).
Proof.
  apply (edit_all_shared_bound Examples.maxes_on Examples.two_fields
           (Console.mk [] 0) [0; 1] [100; 50]).
  - discriminate.
  - repeat constructor.
Defined.

(** C3, as the spec has it, fails on its own example: the shared bound is
    50, not 25, and entering 30 leaves both fields at 30, not 25. *)
Lemma edit_all_bound_is_not_min :
  fst (MultiEditor.shared_bound Examples.maxes_on [0; 1]
         (Examples.two_fields, Console.mk ["30"%string] 0))
  = Ok 50 /\
  Z.min 100 50 / 2 = 25 /\
  fst (MultiEditor.edit_all Examples.maxes_on [0; 1]
         (Examples.two_fields, Console.mk ["30"%string] 0))
  = Ok [30; 30].
Proof. vm_compute. repeat split. Qed.

(** ** [GameDataGetter] *)

Section GameDataGetterFacts.

Import GameDataGetter.

Context (env : Env) (self : t).

Lemma get_packname_other (p : string) :
  p <> "resLocal"%string -> get_packname env self p = p.
Proof.
  intros Hp. unfold get_packname.
  destruct (String.eqb_spec p "resLocal"); [done | reflexivity].
Qed.

Lemma get_packname_cases (p : string) :
  get_packname env self p = p \/
  (p = "resLocal"%string /\
   get_packname env self p = ("resLocal" +:+ "_" +:+ lang self)%string).
Proof.
  unfold get_packname.
  destruct (String.eqb_spec p "resLocal") as [->|]; cbn [negb]; [|by left].
  destruct (negb (bool_decide (cc self = EN))); [by left|].
  destruct (bool_decide (lang self ∈ langs env)); [by right | by left].
Qed.

Lemma get_packname_suffixed (l : string) :
  get_packname env self ("resLocal" +:+ "_" +:+ l)%string
  = ("resLocal" +:+ "_" +:+ l)%string.
Proof. reflexivity. Qed.

Lemma get_packname_idem (p : string) :
  get_packname env self (get_packname env self p) = get_packname env self p.
Proof.
  destruct (get_packname_cases p) as [E|[_ E]]; rewrite E.
  - exact E.
  - apply get_packname_suffixed.
Qed.

Lemma get_file_path_packname (p f : string) :
  get_file_path env self (get_packname env self p) f = get_file_path env self p f.
Proof. unfold get_file_path. by rewrite get_packname_idem. Qed.

Lemma cached_packname (p f : string) (w : World) :
  cached env self (get_packname env self p) f w = cached env self p f w.
Proof. unfold cached. by rewrite get_file_path_packname. Qed.

Lemma get_file_packname (p f : string) :
  get_file env self (get_packname env self p) f = get_file env self p f.
Proof. unfold get_file. by rewrite get_packname_idem. Qed.

Lemma save_file_packname (p f : string) :
  save_file env self (get_packname env self p) f = save_file env self p f.
Proof. unfold save_file. by rewrite get_packname_idem. Qed.

Lemma is_downloaded_eq (p f : string) (w : World) :
  is_downloaded env self p f w
  = (Ok (bool_decide (is_Some (cached env self p f w))), w).
Proof.
  unfold is_downloaded, cached. rewrite get_file_path_packname.
  destruct (get_file_path env self p f) as [path|]; reflexivity.
Qed.

Lemma is_downloaded_packname (p f : string) :
  is_downloaded env self (get_packname env self p) f = is_downloaded env self p f.
Proof. unfold is_downloaded. by rewrite get_packname_idem. Qed.

(** One call of [download], with the pack name adjusted once. *)
Lemma download_step (fuel : nat) (p f : string) (r : Z) (d : bool) (w : World) :
  download env (S fuel) self p f r d w
  = match cached env self p f w with
    | Some bs => (Ok (Some (Data.of_bytes bs)), w)
    | None =>
        if r - 1 =? 0 then (Ok None, w)
        else match latest_version self with
             | None => (Ok None, w)
             | Some _ =>
                 match save_file env self p f w with
                 | (Ok None, w') =>
                     download env fuel self (get_packname env self p) f (r - 1) d w'
                 | (Ok (Some data), w') => (Ok (Some data), w')
                 | (Raise e, w') => (Raise e, w')
                 end
             end
    end.
Proof.
  cbn [download]. unfold mbind at 1.
  rewrite is_downloaded_packname, is_downloaded_eq.
  rewrite get_file_path_packname, save_file_packname.
  unfold cached.
  destruct (get_file_path env self p f) as [path|] eqn:Hpath.
  - destruct (files w !! path) as [bs|] eqn:Hbs.
    + rewrite bool_decide_eq_true_2 by eauto.
      unfold mbind, path_read. rewrite Hbs. reflexivity.
    + rewrite bool_decide_eq_false_2 by (by intros [? ?]).
      destruct (r - 1 =? 0); [reflexivity|].
      destruct (latest_version self); [|reflexivity].
      unfold mbind. destruct (save_file env self p f w) as [[[data|]|e] w'];
        reflexivity.
  - rewrite bool_decide_eq_false_2 by (by intros [? ?]).
    destruct (r - 1 =? 0); [reflexivity|].
    destruct (latest_version self); [|reflexivity].
    unfold mbind. destruct (save_file env self p f w) as [[[data|]|e] w'];
      reflexivity.
Qed.

Lemma download_packname (fuel : nat) (p f : string) (r : Z) (d : bool) :
  download env fuel self (get_packname env self p) f r d
  = download env fuel self p f r d.
Proof.
  destruct fuel as [|fuel]; [reflexivity|].
  cbn [download]. by rewrite !get_packname_idem.
Qed.

(** What [save_file] leaves behind when it returns data: the file, with the
    bytes returned. *)
Lemma save_file_some (p f : string) (w w' : World) (data : Data.t) :
  save_file env self p f w = (Ok (Some data), w') ->
  cached env self p f w' = Some (Data.data data) /\ Data.pos data = 0%nat.
Proof.
  unfold save_file, cached.
  rewrite get_file_packname, get_file_path_packname.
  unfold get_file, get_file_path, mbind.
  destruct (latest_version self) as [v|]; [|discriminate].
  unfold request.
  destruct (net env _ _) as [resp|e]; [|discriminate].
  destruct (negb (status_code resp =? 200)); [discriminate|].
  unfold mret, to_file. intros [= <- <-]. cbn [files Data.to_bytes].
  by rewrite lookup_insert_eq.
Qed.

Lemma download_some (fuel : nat) (p f : string) (r : Z) (d : bool)
    (w w' : World) (data : Data.t) :
  download env fuel self p f r d w = (Ok (Some data), w') ->
  cached env self p f w' = Some (Data.data data) /\ Data.pos data = 0%nat.
Proof.
  revert p r w; induction fuel as [|fuel IH]; intros p r w; [discriminate|].
  rewrite download_step.
  destruct (cached env self p f w) as [bs|] eqn:Hc.
  - intros [= <- <-]. by rewrite Hc.
  - destruct (r - 1 =? 0); [discriminate|].
    destruct (latest_version self); [|discriminate].
    destruct (save_file env self p f w) as [[[data'|]|e] w1] eqn:Hs.
    + intros [= <- <-]. by apply save_file_some in Hs.
    + intros H. apply IH in H. by rewrite cached_packname in H.
    + discriminate.
Qed.

Lemma download_cached_eq (fuel : nat) (p f : string) (r : Z) (d : bool)
    (w : World) (bs : list Z) :
  cached env self p f w = Some bs ->
  download env (S fuel) self p f r d w = (Ok (Some (Data.of_bytes bs)), w).
Proof. intros H. by rewrite download_step, H. Qed.

End GameDataGetterFacts.

Section GameDataGetterBatch.

Import GameDataGetter.

Context (env : Env) (self : t).

Lemma save_file_eq (p f version : string) (w : World) :
  latest_version self = Some version ->
  let pack := get_packname env self p in
  let u := (url self +:+ (version +:+ "/" +:+ pack +:+ "/" +:+ f))%string in
  save_file env self p f w
  = match net env (length (requests w)) u with
    | Ok resp =>
        if status_code resp =? 200
        then (Ok (Some (Data.of_bytes (content resp))),
              mkWorld (<[["game_data"%string; version; pack; f] := content resp]>
                         (files w))
                      (u :: requests w))
        else (Ok None, mkWorld (files w) (u :: requests w))
    | Raise e => (Raise e, mkWorld (files w) (u :: requests w))
    end.
Proof.
  intros Hv pack u. unfold save_file.
  rewrite get_file_packname, get_file_path_packname.
  unfold get_file, get_file_path, mbind, request. rewrite Hv.
  fold pack. fold u.
  destruct (net env (length (requests w)) u) as [resp|e]; [|reflexivity].
  destruct (status_code resp =? 200); reflexivity.
Qed.

Lemma cached_no_version (p f : string) (w : World) :
  latest_version self = None -> cached env self p f w = None.
Proof. intros H. unfold cached, get_file_path. by rewrite H. Qed.

Lemma download_no_version (fuel : nat) (p f : string) (r : Z) (d : bool)
    (w : World) :
  latest_version self = None ->
  download env (S fuel) self p f r d w = (Ok None, w).
Proof.
  intros H. rewrite download_step, cached_no_version, H by exact H.
  by destruct (r - 1 =? 0).
Qed.

(** Tasks that leave the state alone leave it alone together. *)
Lemma thread_run_many_unchanged {S A} (tasks : list (M S A))
    (schedule : list nat) (s : S) :
  (forall task s', task ∈ tasks -> snd (task s') = s') ->
  thread_run_many tasks schedule s = (Ok tt, s).
Proof.
  intros H. induction schedule as [|i schedule IH]; [reflexivity|].
  cbn [thread_run_many].
  destruct (tasks !! i) as [task|] eqn:Hi; [|exact IH].
  rewrite H; [exact IH|]. by eapply list_elem_of_lookup_2.
Qed.

Lemma thread_run_many_ok {S A} (tasks : list (M S A)) (schedule : list nat)
    (s : S) :
  fst (thread_run_many tasks schedule s) = Ok tt.
Proof.
  revert s; induction schedule as [|i schedule IH]; intros s; [reflexivity|].
  cbn [thread_run_many]. destruct (tasks !! i); apply IH.
Qed.

(** The second loop reads the cache as it is, one entry per file name, in
    the order of the file names. *)
Lemma collect_eq (p : string) (file_names : list string) (w : World) :
  collect env self p file_names w = (Ok (entry env self p w <$> file_names), w).
Proof.
  induction file_names as [|f file_names IH]; [reflexivity|].
  cbn [collect fmap list_fmap]. unfold mbind at 1.
  assert ((match get_file_path env self p f with
           | Some path =>
               let! found := path_exists path in
               if negb found then mret None
               else let! d := path_read path in mret (Some (f, d))
           | None => mret None
           end) w = (Ok (entry env self p w f), w)) as ->.
  { unfold entry, cached.
    destruct (get_file_path env self p f) as [path|]; [|reflexivity].
    unfold mbind, path_exists, path_read.
    destruct (files w !! path) as [bs|] eqn:Hf.
    - rewrite bool_decide_eq_true_2 by eauto. cbn [negb]. by rewrite Hf.
    - by rewrite bool_decide_eq_false_2 by (by intros [? ?]). }
  unfold mbind. rewrite IH. reflexivity.
Qed.

Lemma entry_packname (p : string) (w : World) (f : string) :
  entry env self (get_packname env self p) w f = entry env self p w f.
Proof. unfold entry. by rewrite cached_packname. Qed.

Lemma download_all_eq (fuel : nat) (schedule : list nat) (p : string)
    (file_names : list string) (d : bool) (w : World) :
  let tasks :=
    (fun f => download env fuel self (get_packname env self p) f 2 d)
      <$> file_names in
  let w' := snd (thread_run_many tasks schedule w) in
  download_all env fuel schedule self p file_names d w
  = (Ok (entry env self p w' <$> file_names), w').
Proof.
  intros tasks w'. unfold download_all, mbind. fold tasks.
  pose proof (thread_run_many_ok tasks schedule w) as Hok.
  destruct (thread_run_many tasks schedule w) as [r w1] eqn:E.
  cbn [fst] in Hok. subst r. subst w'. cbn [snd].
  rewrite collect_eq. f_equal. f_equal.
  apply list_fmap_ext. intros _ f _. apply entry_packname.
Qed.

End GameDataGetterBatch.

Section VersionList.

Import GameDataGetter.

Lemma guarded_lookup (versions : list string) (i : nat) :
  (if bool_decide (S i <= length versions)%nat then versions !! i else None)
  = versions !! i.
Proof.
  case_bool_decide; [reflexivity|].
  symmetry. apply lookup_ge_None. lia.
Qed.

Lemma get_latest_version_lookup (versions : list string) :
  get_latest_version versions EN = versions !! 0%nat /\
  get_latest_version versions JP = versions !! 1%nat /\
  get_latest_version versions KR = versions !! 2%nat /\
  get_latest_version versions TW = versions !! 3%nat /\
  forall code, get_latest_version versions (OtherCC code) = None.
Proof.
  repeat split; try intros code;
    first [ exact (guarded_lookup versions 0) | exact (guarded_lookup versions 1)
          | exact (guarded_lookup versions 2) | exact (guarded_lookup versions 3)
          | reflexivity ].
Qed.

End VersionList.

(** C6.  When the cache already holds the file for the resolved version,
    [download] returns the cached bytes and leaves the world as it was: no
    request is added to the traffic.  And once a call of [download] has
    returned data, a second call for the same file returns the very same
    data, again without any request. *)
Theorem download_cached (env : GameDataGetter.Env) (self : GameDataGetter.t)
    (pack_name file_name : string) :
  (forall w version bytes fuel retries display_text,
     GameDataGetter.latest_version self = Some version ->
     GameDataGetter.files w
       !! ["game_data"%string; version;
           GameDataGetter.get_packname env self pack_name; file_name]
     = Some bytes ->
     GameDataGetter.download env (S fuel) self pack_name file_name retries
       display_text w
     = (Ok (Some (Data.of_bytes bytes)), w)) /\
  (forall w0 fuel1 retries1 display1 first w1,
     GameDataGetter.download env fuel1 self pack_name file_name retries1
       display1 w0
     = (Ok (Some first), w1) ->
     forall fuel2 retries2 display2,
       GameDataGetter.download env (S fuel2) self pack_name file_name retries2
         display2 w1
       = (Ok (Some first), w1)).
Proof.
  split.
  - intros w version bytes fuel retries display_text Hv Hf.
    apply download_cached_eq.
    unfold GameDataGetter.cached, GameDataGetter.get_file_path.
    by rewrite Hv.
  - intros w0 fuel1 retries1 display1 first w1 H fuel2 retries2 display2.
    apply download_some in H as [Hc Hp].
    rewrite (download_cached_eq env self fuel2 _ _ _ _ _ _ Hc).
    destruct first as [bs p]. cbn [Data.data Data.pos] in *. subst p.
    reflexivity.
Qed.

(** A first call that fetches the file, one request, and a second call that
    makes none. *)
Lemma download_cached_witness :
  let first :=
    GameDataGetter.download Examples.repo 3 Examples.getter_en
      "resLocal" "StageName_RH_fr.csv" 2 true Examples.fresh in
  GameDataGetter.requests (snd first)
  = ["https://repo/13.1.0/resLocal_fr/StageName_RH_fr.csv"%string] /\
  GameDataGetter.download Examples.repo 3 Examples.getter_en
    "resLocal" "StageName_RH_fr.csv" 2 true (snd first)
  = (Ok (Some (Data.of_bytes [1; 2; 3])), snd first).
Proof.
  intros first. split; [reflexivity|].
  destruct (download_cached Examples.repo Examples.getter_en
              "resLocal" "StageName_RH_fr.csv") as [_ H].
  apply (H Examples.fresh 3%nat 2 true).
  vm_compute. reflexivity.
Defined.

(** C7.  [get_latest_version] takes entry 0, 1, 2, 3 of the version list
    for the regions EN, JP, KR, TW, and answers [None] exactly when the list
    has no such entry or the region is another one.  With no resolved
    version, [get_file], [get_file_path], [save_file], [download] and
    [download_all] return absent data, raise nothing, make no request and
    leave the cache as it was.  The constructor resolves the version of a
    getter in this way, from the list it fetched. *)
Theorem version_resolution (env : GameDataGetter.Env) (self : GameDataGetter.t)
    (versions : list string) :
  GameDataGetter.latest_version self = None ->
  (GameDataGetter.get_latest_version versions GameDataGetter.EN = versions !! 0%nat /\
   GameDataGetter.get_latest_version versions GameDataGetter.JP = versions !! 1%nat /\
   GameDataGetter.get_latest_version versions GameDataGetter.KR = versions !! 2%nat /\
   GameDataGetter.get_latest_version versions GameDataGetter.TW = versions !! 3%nat /\
   forall code,
     GameDataGetter.get_latest_version versions (GameDataGetter.OtherCC code) = None) /\
  (forall cc,
     GameDataGetter.get_latest_version versions cc = None <->
     match cc with
     | GameDataGetter.EN => (length versions < 1)%nat
     | GameDataGetter.JP => (length versions < 2)%nat
     | GameDataGetter.KR => (length versions < 3)%nat
     | GameDataGetter.TW => (length versions < 4)%nat
     | GameDataGetter.OtherCC _ => True
     end) /\
  (forall pack_name file_name w,
     GameDataGetter.get_file env self pack_name file_name w = (Ok None, w) /\
     GameDataGetter.get_file_path env self pack_name file_name = None /\
     GameDataGetter.save_file env self pack_name file_name w = (Ok None, w) /\
     GameDataGetter.is_downloaded env self pack_name file_name w = (Ok false, w) /\
     (forall fuel retries display_text,
        GameDataGetter.download env (S fuel) self pack_name file_name retries
          display_text w
        = (Ok None, w))) /\
  (forall fuel schedule pack_name file_names display_text w,
     GameDataGetter.download_all env (S fuel) schedule self pack_name file_names
       display_text w
     = (Ok (replicate (length file_names) None), w)) /\
  (forall url lang cc_lang is_lang real_cc w getter w',
     GameDataGetter.init env url lang cc_lang is_lang real_cc w = (Ok getter, w') ->
     GameDataGetter.latest_version getter
     = GameDataGetter.get_latest_version (GameDataGetter.all_versions getter)
         (GameDataGetter.cc getter) /\
     GameDataGetter.requests w'
     = (url +:+ "latest.txt")%string :: GameDataGetter.requests w).
Proof.
  intros Hnone.
  destruct (get_latest_version_lookup versions) as (E0 & E1 & E2 & E3 & Eo).
  split; [|split; [|split; [|split]]]; cycle 4.
  - intros url lang cc_lang is_lang real_cc w getter w'.
    unfold GameDataGetter.init, GameDataGetter.get_versions, mbind,
      GameDataGetter.request.
    destruct (GameDataGetter.net env _ _); [|discriminate].
    intros [= <- <-]. split; reflexivity.
  - auto.
  - intros cc. destruct cc; rewrite ?E0, ?E1, ?E2, ?E3, ?Eo;
      rewrite ?lookup_ge_None; [lia..|done].
  - intros p f w.
    unfold GameDataGetter.get_file, GameDataGetter.save_file,
      GameDataGetter.is_downloaded, GameDataGetter.get_file_path,
      GameDataGetter.get_file, mbind.
    rewrite Hnone. repeat split.
    intros fuel r d. by apply download_no_version.
  - intros fuel schedule p fs d w.
    rewrite download_all_eq.
    rewrite thread_run_many_unchanged.
    + cbn [snd]. f_equal. f_equal.
      induction fs as [|f fs IH]; [reflexivity|].
      cbn [fmap list_fmap length replicate]. f_equal; [|exact IH].
      unfold GameDataGetter.entry. by rewrite cached_no_version.
    + intros task w' Hin.
      apply list_elem_of_fmap in Hin as (f & -> & _).
      by rewrite download_no_version.
Qed.

(** The Taiwanese save that met a list of three versions: no version, and
    nothing downloaded. *)
Lemma version_resolution_witness :
  GameDataGetter.latest_version Examples.getter_tw = None /\
  GameDataGetter.download_all Examples.repo 3 [1; 0]%nat Examples.getter_tw
    "resLocal" ["a.csv"; "b.csv"]%string true Examples.fresh
  = (Ok [None; None], Examples.fresh).
Proof.
  split; [reflexivity|].
  apply (version_resolution Examples.repo Examples.getter_tw []).
  reflexivity.
Defined.

(** C8.  Whatever order the fetch tasks complete in, the list
    [download_all] returns has one element per requested file name, in the
    order of [file_names]: element [i] is [(file_names[i], bytes)] when the
    cache holds the file after the concurrent phase and [None] when it does
    not.  The second loop alone gives that list for any state of the cache.
    Three files whose tasks complete last-first or first-last are reported
    in the order they were asked for. *)
Theorem download_all_order (env : GameDataGetter.Env) (self : GameDataGetter.t)
    (fuel : nat) (schedule : list nat) (pack_name : string)
    (file_names : list string) (display_text : bool) (w : GameDataGetter.World) :
  let tasks :=
    (fun f => GameDataGetter.download env fuel self
                (GameDataGetter.get_packname env self pack_name) f 2 display_text)
      <$> file_names in
  let after := snd (GameDataGetter.thread_run_many tasks schedule w) in
  let result := GameDataGetter.entry env self pack_name after <$> file_names in
  GameDataGetter.download_all env fuel schedule self pack_name file_names
    display_text w
  = (Ok result, after) /\
  length result = length file_names /\
  (forall i file_name,
     file_names !! i = Some file_name ->
     result !! i
     = Some (match GameDataGetter.cached env self pack_name file_name after with
             | Some bytes => Some (file_name, Data.of_bytes bytes)
             | None => None
             end)) /\
  (forall w',
     GameDataGetter.collect env self pack_name file_names w'
     = (Ok (GameDataGetter.entry env self pack_name w' <$> file_names), w')) /\
  (forall order,
     order ∈ [[2; 1; 0]; [0; 1; 2]; [1; 2; 0]]%nat ->
     fst (GameDataGetter.download_all Examples.repo 3 order Examples.getter_en
            "resLocal" ["f1"; "f2"; "f3"]%string true Examples.fresh)
     = Ok [Some ("f1"%string, Data.of_bytes [1; 2; 3]);
           Some ("f2"%string, Data.of_bytes [1; 2; 3]);
           Some ("f3"%string, Data.of_bytes [1; 2; 3])]).
Proof.
  intros tasks after result.
  split; [apply download_all_eq|].
  split; [apply length_fmap|].
  split; [|split].
  - intros i f Hi. unfold result. rewrite list_lookup_fmap, Hi. reflexivity.
  - intros w'. apply collect_eq.
  - intros order Ho.
    rewrite !elem_of_cons, elem_of_nil in Ho.
    destruct Ho as [->|[->|[->|[]]]]; vm_compute; reflexivity.
Qed.

(** C10.  [get_packname] is idempotent: a name other than "resLocal" passes
    through unchanged, and the locale-suffixed name it makes of "resLocal"
    is not suffixed again.  So [get_file_path], [get_file], [is_downloaded],
    [save_file] and [download] do the same on the adjusted name as on the
    name itself, and [save_file] keys the cache and builds the URL with the
    one adjusted name. *)
Theorem get_packname_idempotent (env : GameDataGetter.Env)
    (self : GameDataGetter.t) (p : string) :
  GameDataGetter.get_packname env self (GameDataGetter.get_packname env self p)
  = GameDataGetter.get_packname env self p /\
  (p <> "resLocal"%string -> GameDataGetter.get_packname env self p = p) /\
  (forall l,
     GameDataGetter.get_packname env self ("resLocal" +:+ "_" +:+ l)%string
     = ("resLocal" +:+ "_" +:+ l)%string) /\
  (forall f,
     let p' := GameDataGetter.get_packname env self p in
     GameDataGetter.get_file_path env self p' f
     = GameDataGetter.get_file_path env self p f /\
     GameDataGetter.get_file env self p' f = GameDataGetter.get_file env self p f /\
     GameDataGetter.is_downloaded env self p' f
     = GameDataGetter.is_downloaded env self p f /\
     GameDataGetter.save_file env self p' f = GameDataGetter.save_file env self p f /\
     forall fuel retries display_text,
       GameDataGetter.download env fuel self p' f retries display_text
       = GameDataGetter.download env fuel self p f retries display_text) /\
  (forall f version w resp,
     let p' := GameDataGetter.get_packname env self p in
     let u := (GameDataGetter.url self
               +:+ (version +:+ "/" +:+ p' +:+ "/" +:+ f))%string in
     GameDataGetter.latest_version self = Some version ->
     GameDataGetter.net env (length (GameDataGetter.requests w)) u = Ok resp ->
     GameDataGetter.status_code resp = 200 ->
     GameDataGetter.save_file env self p f w
     = (Ok (Some (Data.of_bytes (GameDataGetter.content resp))),
        GameDataGetter.mkWorld
          (<[["game_data"%string; version; p'; f]
             := GameDataGetter.content resp]> (GameDataGetter.files w))
          (u :: GameDataGetter.requests w))).
Proof.
  split; [apply get_packname_idem|].
  split; [apply get_packname_other|].
  split; [apply get_packname_suffixed|].
  split.
  - intros f p'. unfold p'.
    split; [apply get_file_path_packname|].
    split; [apply get_file_packname|].
    split; [apply is_downloaded_packname|].
    split; [apply save_file_packname|].
    intros fuel r d. apply download_packname.
  - intros f version w resp p' u Hv Hnet Hst.
    rewrite (save_file_eq env self p f version w Hv).
    fold p'. fold u. rewrite Hnet, Hst. reflexivity.
Qed.

(** The shared resource pack of an English save with the French locale, and
    another pack of the same save. *)
Lemma get_packname_idempotent_witness :
  GameDataGetter.get_packname Examples.repo Examples.getter_en "resLocal"
  = "resLocal_fr"%string /\
  GameDataGetter.get_packname Examples.repo Examples.getter_en "resLocal_fr"
  = "resLocal_fr"%string /\
  GameDataGetter.get_packname Examples.repo Examples.getter_en "DataLocal"
  = "DataLocal"%string.
Proof.
  split; [reflexivity|]. split.
  - apply (get_packname_idempotent Examples.repo Examples.getter_en "resLocal").
  - apply (get_packname_idempotent Examples.repo Examples.getter_en "DataLocal").
    discriminate.
Defined.

(** Three files fetched last-first: the first one asked for is reported
    first. *)
Lemma download_all_order_witness :
  fst (GameDataGetter.download_all Examples.repo 3 [2; 1; 0]%nat
         Examples.getter_en "resLocal" ["f1"; "f2"; "f3"]%string true
         Examples.fresh)
  = Ok [Some ("f1"%string, Data.of_bytes [1; 2; 3]);
        Some ("f2"%string, Data.of_bytes [1; 2; 3]);
        Some ("f3"%string, Data.of_bytes [1; 2; 3])].
Proof.
  apply (download_all_order Examples.repo Examples.getter_en 0 [] "" [] true
           Examples.fresh).
  vm_compute. apply list_elem_of_here.
Defined.

(** * Further properties *)

(** ** How much a read takes *)

Section Sizes.

Import Data Layout.

Lemma fixed_size_ret {A} (v : A) : fixed_size (ret v) 0.
Proof. intros d. unfold ret, remaining. cbn. repeat split; lia. Qed.

Lemma fixed_size_bind {A B} (r : reader A) (k : A -> reader B) (n m : nat) :
  fixed_size r n -> (forall a, fixed_size (k a) m) ->
  fixed_size (bind r k) (n + m).
Proof.
  intros Hr Hk d. unfold bind. specialize (Hr d).
  destruct (r d) as [[a d1]|]; [|lia].
  destruct Hr as (Hn & Hd & Hp). specialize (Hk a d1).
  unfold remaining in *. rewrite Hd, Hp in Hk.
  destruct (k a d1) as [[b d2]|].
  - destruct Hk as (Hm & Hd2 & Hp2). rewrite Hd2, Hp2.
    repeat split; lia.
  - lia.
Qed.

Lemma fixed_size_read_bytes (n : nat) : fixed_size (read_bytes n) n.
Proof.
  intros d. unfold read_bytes, remaining.
  rewrite length_take, length_drop.
  case_decide; cbn [data pos]; [repeat split|]; lia.
Qed.

Lemma fixed_size_map {A B} (r : reader A) (f : A -> B) (n : nat) :
  fixed_size r n -> fixed_size (bind r (fun x => ret (f x))) n.
Proof.
  intros H. rewrite <- (Nat.add_0_r n).
  apply fixed_size_bind; [exact H | intros a; apply fixed_size_ret].
Qed.

Lemma fixed_size_read_int : fixed_size read_int 4.
Proof. apply fixed_size_map, fixed_size_read_bytes. Qed.

Lemma fixed_size_read_byte : fixed_size read_byte 1.
Proof. apply fixed_size_map, fixed_size_read_bytes. Qed.

Lemma fixed_size_read_bool : fixed_size read_bool 1.
Proof. apply fixed_size_map, fixed_size_read_byte. Qed.

Lemma fixed_size_read_double : fixed_size read_double 8.
Proof. apply fixed_size_map, fixed_size_read_bytes. Qed.

Lemma fixed_size_Stage_read : fixed_size Stage.read 17.
Proof.
  unfold Stage.read.
  apply (fixed_size_bind _ _ 4 13); [apply fixed_size_read_int|]; intros level.
  apply (fixed_size_bind _ _ 4 9); [apply fixed_size_read_int|]; intros id.
  apply (fixed_size_bind _ _ 1 8); [apply fixed_size_read_byte|]; intros st.
  apply (fixed_size_bind _ _ 8 0); [apply fixed_size_read_double|]; intros t.
  apply fixed_size_ret.
Qed.

Lemma fixed_size_read_stages (n : nat) :
  fixed_size (Enigma.read_stages n) (17 * n).
Proof.
  induction n as [|n IH]; cbn [Enigma.read_stages].
  - apply fixed_size_ret.
  - replace (17 * S n)%nat with (17 + (17 * n + 0))%nat by lia.
    apply fixed_size_bind; [apply fixed_size_Stage_read|]; intros s.
    apply fixed_size_bind; [exact IH|]; intros ss.
    apply fixed_size_ret.
Qed.

Lemma read_stages_length (n : nat) (d d' : Data.t) (ss : list Stage.t) :
  Enigma.read_stages n d = Some (ss, d') -> length ss = n.
Proof.
  revert d d' ss; induction n as [|n IH]; intros d d' ss;
    cbn [Enigma.read_stages]; unfold bind, ret.
  - by intros [= <- _].
  - destruct (Stage.read d) as [[s d1]|]; [|discriminate].
    destruct (Enigma.read_stages n d1) as [[ss' d2]|] eqn:E; [|discriminate].
    intros [= <- _]. cbn [length]. f_equal. by eapply IH.
Qed.

Lemma fixed_size_Enigma_header : fixed_size Enigma_header 11.
Proof.
  unfold Enigma_header.
  apply (fixed_size_bind _ _ 4 7); [apply fixed_size_read_int|]; intros e1.
  apply (fixed_size_bind _ _ 4 3); [apply fixed_size_read_int|]; intros e2.
  apply (fixed_size_bind _ _ 1 2); [apply fixed_size_read_byte|]; intros lv.
  apply (fixed_size_bind _ _ 1 1); [apply fixed_size_read_byte|]; intros u1.
  apply (fixed_size_bind _ _ 1 0); [apply fixed_size_read_bool|]; intros u2.
  apply fixed_size_ret.
Qed.

Lemma Enigma_read_header (d : Data.t) :
  Enigma.read d
  = match Enigma_header d with
    | Some ((e1, e2, lv, u1, u2), d1) =>
        match read_byte d1 with
        | Some (count, d2) =>
            match Enigma.read_stages (Z.to_nat count) d2 with
            | Some (ss, d3) => Some (Enigma.mk e1 e2 lv u1 u2 ss, d3)
            | None => None
            end
        | None => None
        end
    | None => None
    end.
Proof.
  unfold Enigma.read, Enigma_header, bind, ret.
  destruct (read_int d) as [[e1 d1]|]; [|reflexivity].
  destruct (read_int d1) as [[e2 d2]|]; [|reflexivity].
  destruct (read_byte d2) as [[lv d3]|]; [|reflexivity].
  destruct (read_byte d3) as [[u1 d4]|]; [|reflexivity].
  destruct (read_bool d4) as [[u2 d5]|]; [|reflexivity].
  destruct (read_byte d5) as [[c d6]|]; [|reflexivity].
  destruct (Enigma.read_stages (Z.to_nat c) d6) as [[ss d7]|]; reflexivity.
Qed.

Lemma read_byte_value (d d' : Data.t) (c : Z) :
  read_byte d = Some (c, d') -> data d !! pos d = Some c.
Proof.
  unfold read_byte, bind, read_bytes, ret.
  case_decide as Hlen; [|discriminate]. intros [= <- _].
  destruct (drop (pos d) (data d)) as [|x l] eqn:E; [discriminate Hlen|].
  cbn [take le_decode]. rewrite Z.mul_0_r, Z.add_0_r.
  rewrite <- (Nat.add_0_r (pos d)) at 1. rewrite <- lookup_drop, E.
  reflexivity.
Qed.

End Sizes.

(** X1.  [Stage.read] takes exactly 17 bytes: it succeeds when at least 17
    bytes are left at the cursor, and then leaves the buffer as it is and
    the cursor 17 bytes further; with fewer bytes left it fails, whatever
    they are. *)
Theorem Stage_read_takes_17 (d : Data.t) :
  match Stage.read d with
  | Some (_, d') =>
      (17 <= Layout.remaining d)%nat /\
      Data.data d' = Data.data d /\ Data.pos d' = (Data.pos d + 17)%nat
  | None => (Layout.remaining d < 17)%nat
  end.
Proof. apply fixed_size_Stage_read. Qed.

(** X2.  [Enigma.read] takes the 12 bytes of the header and 17 bytes for
    each stage the count byte (offset 11) announces: when that many bytes
    are left it succeeds, with as many stages as the count byte says, the
    buffer as it was and the cursor right behind the last stage; with fewer
    bytes left it fails and pads nothing. *)
Theorem Enigma_read_takes_header_and_stages (d : Data.t) :
  match Enigma.read d with
  | Some (e, d') =>
      exists count,
        Data.data d !! (Data.pos d + 11)%nat = Some count /\
        length (Enigma.stages e) = Z.to_nat count /\
        Data.data d' = Data.data d /\
        Data.pos d' = (Data.pos d + 12 + 17 * Z.to_nat count)%nat /\
        (Data.pos d' <= length (Data.data d))%nat
  | None =>
      (Layout.remaining d < 12)%nat \/
      exists count,
        Data.data d !! (Data.pos d + 11)%nat = Some count /\
        (Layout.remaining d < 12 + 17 * Z.to_nat count)%nat
  end.
Proof.
  rewrite Enigma_read_header.
  pose proof (fixed_size_Enigma_header d) as Hh.
  destruct (Layout.Enigma_header d) as [[[[[[e1 e2] lv] u1] u2] d1]|];
    [|left; lia].
  destruct Hh as (Hn & Hd1 & Hp1).
  pose proof (fixed_size_read_byte d1) as Hc.
  destruct (Data.read_byte d1) as [[count d2]|] eqn:Ec;
    [|left; unfold Layout.remaining in *; rewrite Hd1, Hp1 in Hc; lia].
  destruct Hc as (Hn2 & Hd2 & Hp2).
  apply read_byte_value in Ec. rewrite Hd1, Hp1 in Ec.
  pose proof (fixed_size_read_stages (Z.to_nat count) d2) as Hs.
  unfold Layout.remaining in *. rewrite Hd2, Hp2, Hd1, Hp1 in *.
  destruct (Enigma.read_stages (Z.to_nat count) d2) as [[ss d3]|] eqn:Es.
  - destruct Hs as (Hn3 & Hd3 & Hp3). exists count.
    cbn [Enigma.stages]. rewrite (read_stages_length _ _ _ _ Es), Hd3, Hp3.
    repeat split; [exact Ec | lia..].
  - right. exists count. split; [exact Ec | lia].
Qed.

(** ** Writing back what was read *)

Section Reencode.

Import Data Layout.

Lemma le_encode_decode (bs : list Z) :
  Forall is_byte bs -> le_encode (length bs) (le_decode bs) = bs.
Proof.
  induction 1 as [|b bs Hb _ IH]; [reflexivity|].
  cbn [length le_encode le_decode]. unfold is_byte in Hb.
  rewrite (Z.mul_comm 256), Z.mod_add, Z.div_add by lia.
  rewrite Z.mod_small, Z.div_small by lia.
  rewrite Z.add_0_l. by rewrite IH.
Qed.

Lemma le_decode_range (bs : list Z) :
  Forall is_byte bs -> 0 <= le_decode bs < 2 ^ (8 * Z.of_nat (length bs)).
Proof.
  induction 1 as [|b bs Hb _ IH]; [cbn; lia|].
  cbn [length le_decode]. unfold is_byte in Hb.
  replace (8 * Z.of_nat (S (length bs))) with (8 + 8 * Z.of_nat (length bs)) by lia.
  rewrite Z.pow_add_r by lia. change (2 ^ 8) with 256. nia.
Qed.

Lemma le_encode_shift (n : nat) (v k : Z) :
  le_encode n (v + k * 2 ^ (8 * Z.of_nat n)) = le_encode n v.
Proof.
  revert v k; induction n as [|n IH]; intros v k; [reflexivity|].
  cbn [le_encode].
  replace (8 * Z.of_nat (S n)) with (8 + 8 * Z.of_nat n) by lia.
  rewrite Z.pow_add_r by lia. change (2 ^ 8) with 256.
  replace (v + k * (256 * 2 ^ (8 * Z.of_nat n)))
    with (v + (k * 2 ^ (8 * Z.of_nat n)) * 256) by lia.
  rewrite Z.mod_add, Z.div_add by lia. by rewrite IH.
Qed.

Lemma int_reencode (bs : list Z) :
  length bs = 4%nat -> Forall is_byte bs ->
  le_encode 4 (to_signed 32 (le_decode bs)) = bs /\
  - 2 ^ 31 <= to_signed 32 (le_decode bs) < 2 ^ 31.
Proof.
  intros Hl Hb. pose proof (le_decode_range bs Hb) as Hr.
  rewrite Hl in Hr. change (2 ^ (8 * Z.of_nat 4)) with 4294967296 in Hr.
  unfold to_signed. change (32 - 1) with 31.
  change (2 ^ 31) with 2147483648. change (2 ^ 32) with 4294967296.
  destruct (Z_lt_dec _ _).
  - split; [|lia]. rewrite <- Hl. by apply le_encode_decode.
  - split; [|lia].
    replace (le_decode bs - 4294967296)
      with (le_decode bs + (-1) * 2 ^ (8 * Z.of_nat 4)) by reflexivity.
    rewrite le_encode_shift, <- Hl. by apply le_encode_decode.
Qed.

Lemma window_length_bytes (k : nat) (d : t) :
  Forall is_byte (data d) -> Forall is_byte (window k d).
Proof. intros H. unfold window. by apply Forall_take, Forall_drop. Qed.

Lemma window_app (a b : nat) (d : t) :
  window a d ++ window b (advance a d) = window (a + b) d.
Proof.
  unfold window, advance. cbn [data pos].
  rewrite <- drop_drop. apply take_take_drop.
Qed.

Lemma read_bytes_window (n : nat) (d d' : t) (bs : list Z) :
  read_bytes n d = Some (bs, d') ->
  bs = window n d /\ length (window n d) = n /\ d' = advance n d.
Proof.
  unfold read_bytes. case_decide as Hl; [|discriminate].
  by intros [= <- <-].
Qed.

Lemma read_int_window (d d' : t) (v : Z) :
  read_int d = Some (v, d') ->
  v = to_signed 32 (le_decode (window 4 d)) /\
  length (window 4 d) = 4%nat /\ d' = advance 4 d.
Proof.
  unfold read_int, bind, ret.
  destruct (read_bytes 4 d) as [[bs d1]|] eqn:E; [|discriminate].
  apply read_bytes_window in E as (-> & Hl & ->). by intros [= <- <-].
Qed.

Lemma read_byte_window (d d' : t) (v : Z) :
  read_byte d = Some (v, d') ->
  v = le_decode (window 1 d) /\ length (window 1 d) = 1%nat /\ d' = advance 1 d.
Proof.
  unfold read_byte, bind, ret.
  destruct (read_bytes 1 d) as [[bs d1]|] eqn:E; [|discriminate].
  apply read_bytes_window in E as (-> & Hl & ->). by intros [= <- <-].
Qed.

Lemma read_double_window (d d' : t) (v : Z) :
  read_double d = Some (v, d') ->
  v = le_decode (window 8 d) /\ length (window 8 d) = 8%nat /\ d' = advance 8 d.
Proof.
  unfold read_double, bind, ret.
  destruct (read_bytes 8 d) as [[bs d1]|] eqn:E; [|discriminate].
  apply read_bytes_window in E as (-> & Hl & ->). by intros [= <- <-].
Qed.

Lemma plain_reencode (n : nat) (bs : list Z) :
  length bs = n -> Forall is_byte bs ->
  le_encode n (le_decode bs) = bs /\
  0 <= le_decode bs < 2 ^ (8 * Z.of_nat n).
Proof.
  intros <- Hb. split; [by apply le_encode_decode | by apply le_decode_range].
Qed.

Lemma Stage_reencode (d d' : t) (s : Stage.t) :
  Forall is_byte (data d) ->
  Stage.read d = Some (s, d') ->
  Stage.encode s = window 17 d /\ Stage.in_range s /\ d' = advance 17 d.
Proof.
  intros Hb. unfold Stage.read, bind, ret.
  destruct (read_int d) as [[l d1]|] eqn:E1; [|discriminate].
  apply read_int_window in E1 as (-> & L1 & ->).
  destruct (read_int _) as [[i d2]|] eqn:E2; [|discriminate].
  apply read_int_window in E2 as (-> & L2 & ->).
  destruct (read_byte _) as [[st d3]|] eqn:E3; [|discriminate].
  apply read_byte_window in E3 as (-> & L3 & ->).
  destruct (read_double _) as [[tm d4]|] eqn:E4; [|discriminate].
  apply read_double_window in E4 as (-> & L4 & ->).
  intros [= <- <-].
  set (d1 := advance 4 d) in *. set (d2 := advance 4 d1) in *.
  set (d3 := advance 1 d2) in *.
  assert (Forall is_byte (data d1) /\ Forall is_byte (data d2)
          /\ Forall is_byte (data d3)) as (Hb1 & Hb2 & Hb3) by done.
  destruct (int_reencode _ L1 (window_length_bytes 4 d Hb)) as [R1 I1].
  destruct (int_reencode _ L2 (window_length_bytes 4 d1 Hb1)) as [R2 I2].
  destruct (plain_reencode 1 _ L3 (window_length_bytes 1 d2 Hb2)) as [R3 I3].
  destruct (plain_reencode 8 _ L4 (window_length_bytes 8 d3 Hb3)) as [R4 I4].
  split; [|split].
  - rewrite Stage_encode_eq.
    cbn [Stage.level Stage.stage_id Stage.decoding_satus Stage.start_time].
    rewrite R1, R2, R3, R4.
    unfold d3. rewrite window_app. unfold d2. rewrite window_app.
    unfold d1. rewrite window_app. reflexivity.
  - unfold Stage.in_range.
    cbn [Stage.level Stage.stage_id Stage.decoding_satus Stage.start_time].
    change (2 ^ (8 * Z.of_nat 1)) with 256 in I3.
    change (2 ^ (8 * Z.of_nat 8)) with (2 ^ 64) in I4. done.
  - unfold d3, d2, d1, advance. cbn [data pos]. f_equal. lia.
Qed.

End Reencode.

(** X3.  Whatever bytes [Stage.read] is given, not only bytes that a write
    produced: if the read succeeds on a buffer of bytes, the [Stage] it
    returns is in range and [Stage.write] emits for it the very 17 bytes
    that were read.  So reading a stage and writing it back never changes
    a save. *)
Theorem Stage_read_then_write (d d' : Data.t) (s : Stage.t) :
  Forall Layout.is_byte (Data.data d) ->
  Stage.read d = Some (s, d') ->
  Stage.encode s = Layout.window 17 d /\
  Stage.in_range s /\
  Data.data (Stage.write s (Data.mk (take (Data.pos d) (Data.data d)) (Data.pos d)))
  = take (Data.pos d') (Data.data d).
Proof.
  intros Hb Hr.
  destruct (Stage_reencode d d' s Hb Hr) as (He & Hi & ->).
  split; [exact He|]. split; [exact Hi|].
  rewrite Stage_write_eq. unfold Data.write_bytes, Layout.advance.
  cbn [Data.data Data.pos]. rewrite He. unfold Layout.window.
  apply take_take_drop.
Qed.

Section ReencodeEnigma.

Import Data Layout.

Lemma read_bool_window (d d' : t) (b : bool) :
  read_bool d = Some (b, d') ->
  b = negb (le_decode (window 1 d) =? 0) /\
  length (window 1 d) = 1%nat /\ d' = advance 1 d.
Proof.
  unfold read_bool, bind, ret.
  destruct (read_byte d) as [[v d1]|] eqn:E; [|discriminate].
  apply read_byte_window in E as (-> & Hl & ->). by intros [= <- <-].
Qed.

Lemma window_1 (d : t) :
  length (window 1 d) = 1%nat ->
  exists x, data d !! pos d = Some x /\ window 1 d = [x] /\ le_decode [x] = x.
Proof.
  unfold window. destruct (drop (pos d) (data d)) as [|x l] eqn:E;
    [discriminate|]. intros _. exists x.
  split; [|split; [reflexivity | cbn; lia]].
  rewrite <- (Nat.add_0_r (pos d)) at 1. by rewrite <- lookup_drop, E.
Qed.

Lemma read_stages_reencode (n : nat) (d d' : t) (ss : list Stage.t) :
  Forall is_byte (data d) ->
  Enigma.read_stages n d = Some (ss, d') ->
  concat (Stage.encode <$> ss) = window (17 * n) d /\
  Forall Stage.in_range ss /\ length ss = n /\ d' = advance (17 * n) d.
Proof.
  intros Hb. revert d d' ss Hb; induction n as [|n IH]; intros d d' ss Hb;
    cbn [Enigma.read_stages]; unfold bind, ret.
  - intros [= <- <-]. unfold window, advance. cbn [take].
    repeat split; [constructor|]. destruct d; cbn. f_equal. lia.
  - destruct (Stage.read d) as [[s d1]|] eqn:E1; [|discriminate].
    apply (Stage_reencode d d1 s Hb) in E1 as (He & Hi & ->).
    destruct (Enigma.read_stages n _) as [[ss' d2]|] eqn:E2; [|discriminate].
    apply IH in E2 as (Hc & Hall & Hl & ->); [|exact Hb].
    intros [= <- <-]. cbn [fmap list_fmap concat length].
    change (list_fmap _ _ Stage.encode ss') with (Stage.encode <$> ss').
    rewrite He, Hc, window_app.
    replace (17 + 17 * n)%nat with (17 * S n)%nat by lia.
    repeat split; [by constructor | by rewrite Hl |].
    unfold advance. cbn [data pos]. f_equal. lia.
Qed.

Lemma Enigma_reencode (d d' : t) (e : Enigma.t) :
  Forall is_byte (data d) ->
  Enigma.read d = Some (e, d') ->
  Enigma.in_range e /\
  d' = advance (12 + 17 * length (Enigma.stages e)) d /\
  (data d !! (pos d + 10)%nat = Some 0 \/ data d !! (pos d + 10)%nat = Some 1 ->
   Enigma.encode e = window (12 + 17 * length (Enigma.stages e)) d).
Proof.
  intros Hb. unfold Enigma.read, bind, ret.
  destruct (read_int d) as [[e1 d1]|] eqn:E1; [|discriminate].
  apply read_int_window in E1 as (-> & L1 & ->).
  destruct (read_int _) as [[e2 d2]|] eqn:E2; [|discriminate].
  apply read_int_window in E2 as (-> & L2 & ->).
  destruct (read_byte _) as [[lv d3]|] eqn:E3; [|discriminate].
  apply read_byte_window in E3 as (-> & L3 & ->).
  destruct (read_byte _) as [[u1 d4]|] eqn:E4; [|discriminate].
  apply read_byte_window in E4 as (-> & L4 & ->).
  destruct (read_bool _) as [[u2 d5]|] eqn:E5; [|discriminate].
  apply read_bool_window in E5 as (-> & L5 & ->).
  destruct (read_byte _) as [[c d6]|] eqn:E6; [|discriminate].
  apply read_byte_window in E6 as (-> & L6 & ->).
  set (d1 := advance 4 d) in *. set (d2 := advance 4 d1) in *.
  set (d3 := advance 1 d2) in *. set (d4 := advance 1 d3) in *.
  set (d5 := advance 1 d4) in *. set (d6 := advance 1 d5) in *.
  assert (Forall is_byte (data d1) /\ Forall is_byte (data d2)
          /\ Forall is_byte (data d3) /\ Forall is_byte (data d4)
          /\ Forall is_byte (data d5) /\ Forall is_byte (data d6))
    as (Hb1 & Hb2 & Hb3 & Hb4 & Hb5 & Hb6) by done.
  destruct (int_reencode _ L1 (window_length_bytes 4 d Hb)) as [R1 I1].
  destruct (int_reencode _ L2 (window_length_bytes 4 d1 Hb1)) as [R2 I2].
  destruct (plain_reencode 1 _ L3 (window_length_bytes 1 d2 Hb2)) as [R3 I3].
  destruct (plain_reencode 1 _ L4 (window_length_bytes 1 d3 Hb3)) as [R4 I4].
  destruct (plain_reencode 1 _ L6 (window_length_bytes 1 d5 Hb5)) as [R6 I6].
  change (2 ^ (8 * Z.of_nat 1)) with 256 in *.
  destruct (Enigma.read_stages _ d6) as [[ss d7]|] eqn:E7; [|discriminate].
  apply read_stages_reencode in E7 as (Hc & Hall & Hl & ->); [|exact Hb6].
  intros [= <- <-]. cbn [Enigma.stages].
  assert (Z.of_nat (length ss) = le_decode (window 1 d5)) as Hcount
    by (rewrite Hl; lia).
  split; [|split].
  - unfold Enigma.in_range.
    cbn [Enigma.energy_since_1 Enigma.energy_since_2 Enigma.enigma_level
         Enigma.unknown_1 Enigma.stages].
    repeat split; try lia; exact Hall.
  - rewrite Hl. unfold d6, d5, d4, d3, d2, d1, advance. cbn [data pos].
    f_equal. lia.
  - intros Hbool. rewrite Enigma_encode_eq.
    cbn [Enigma.energy_since_1 Enigma.energy_since_2 Enigma.enigma_level
         Enigma.unknown_1 Enigma.unknown_2 Enigma.stages].
    rewrite Hcount, R1, R2, R3, R4, R6, Hc.
    destruct (window_1 d4 L5) as (x & Hx & Wx & Dx).
    assert (pos d4 = (pos d + 10)%nat) as Hp4
      by (unfold d4, d3, d2, d1, advance; cbn [pos]; lia).
    assert (data d4 = data d) as Hd4 by reflexivity.
    rewrite Hp4, Hd4 in Hx.
    assert (le_encode 1 (if negb (le_decode (window 1 d4) =? 0) then 1 else 0)
            = window 1 d4) as R5.
    { rewrite Wx, Dx. destruct Hbool as [H|H]; rewrite H in Hx;
        injection Hx as <-; reflexivity. }
    rewrite R5.
    rewrite <- Hl.
    unfold d6. rewrite window_app. unfold d5. rewrite window_app.
    unfold d4. rewrite window_app. unfold d3. rewrite window_app.
    unfold d2. rewrite window_app. unfold d1. rewrite window_app.
    reflexivity.
Qed.

End ReencodeEnigma.

(** The stage in the example buffer, read and written back. *)
Lemma Stage_read_then_write_witness :
  let s := Stage.mk 3 25001 2 4743226172272934912 in
  Stage.encode s = Layout.window 17 Cases.save_at_stage /\
  Stage.in_range s /\
  Data.data (Stage.write s (Data.mk (take 13 (Data.data Cases.save)) 13))
  = take 30 (Data.data Cases.save).
Proof.
  intros s.
  apply (Stage_read_then_write Cases.save_at_stage
           (Layout.advance 17 Cases.save_at_stage) s).
  - unfold Layout.is_byte. repeat constructor; lia.
  - reflexivity.
Defined.

(** X4.  Whatever bytes [Enigma.read] is given: if the read succeeds on a
    buffer of bytes, the [Enigma] it returns is in range (at most 255
    stages, every field within its width), so writing it and reading the
    written bytes gives the same record again; and when the byte of
    [unknown_2] is 0 or 1, [Enigma.write] emits exactly the bytes that were
    read. *)
Theorem Enigma_read_then_write (d d' : Data.t) (e : Enigma.t) :
  Forall Layout.is_byte (Data.data d) ->
  Enigma.read d = Some (e, d') ->
  Enigma.in_range e /\
  Data.decodes Enigma.read (Enigma.encode e) e /\
  d' = Layout.advance (12 + 17 * length (Enigma.stages e)) d /\
  (Data.data d !! (Data.pos d + 10)%nat = Some 0 \/
   Data.data d !! (Data.pos d + 10)%nat = Some 1 ->
   Enigma.encode e = Layout.window (12 + 17 * length (Enigma.stages e)) d).
Proof.
  intros Hb Hr.
  destruct (Enigma_reencode d d' e Hb Hr) as (Hi & Hd & He).
  split; [exact Hi|]. split; [by apply Enigma_decodes|]. by split.
Qed.

(** The [Enigma] in the example buffer. *)
Lemma Enigma_read_then_write_witness :
  let e := Enigma.mk 1700000000 (-1) 3 255 true
             [Stage.mk 3 25001 2 4743226172272934912] in
  Enigma.in_range e /\
  Data.decodes Enigma.read (Enigma.encode e) e /\
  Layout.advance 29 Cases.save = Layout.advance (12 + 17 * 1) Cases.save /\
  (Data.data Cases.save !! 11%nat = Some 0 \/
   Data.data Cases.save !! 11%nat = Some 1 ->
   Enigma.encode e = Layout.window 29 Cases.save).
Proof.
  intros e.
  apply (Enigma_read_then_write Cases.save (Layout.advance 29 Cases.save) e).
  - unfold Layout.is_byte. repeat constructor; lia.
  - reflexivity.
Defined.

(** ** The structural form *)

Section StructuralFacts.

Import Structural.

Lemma Stage_structural (o : StageObj) :
  Stage_deserialize (Stage_serialize o) = Some o.
Proof. by destruct o. Qed.

Lemma Stage_structural_all (os : list StageObj) :
  Stage_deserialize_all (Stage_serialize <$> os) = Some os.
Proof.
  induction os as [|o os IH]; [reflexivity|].
  cbn [fmap list_fmap Stage_deserialize_all].
  rewrite Stage_structural. cbn [mbind option_bind].
  change (list_fmap _ _ Stage_serialize os) with (Stage_serialize <$> os).
  by rewrite IH.
Qed.

Lemma of_Stage_inj (s s' : Stage.t) : of_Stage s = of_Stage s' -> s = s'.
Proof. destruct s, s'. unfold of_Stage. cbn. by intros [= -> -> -> ->]. Qed.

Lemma of_Stage_all_inj (ss ss' : list Stage.t) :
  of_Stage <$> ss = of_Stage <$> ss' -> ss = ss'.
Proof.
  revert ss'. induction ss as [|s ss IH]; intros [|s' ss']; try done.
  rewrite !fmap_cons. intros H.
  f_equal; [apply of_Stage_inj | apply IH]; congruence.
Qed.

Lemma get_stored (items : list (string * value)) (key : string) (default : value) :
  stored_or items key default (get items key default).
Proof. unfold stored_or, get. by destruct (find items key). Qed.

(** A list of dicts is deserialized in full, dict by dict. *)
Lemma Stage_deserialize_all_dicts (l : list value) :
  Forall is_dict l ->
  exists os,
    Stage_deserialize_all l = Some os /\
    Forall2 (fun v o => Stage_deserialize v = Some o) l os.
Proof.
  induction 1 as [|v l Hv _ (os & E & Hos)]; [by exists []|].
  destruct v as [| | | | | |items]; try done.
  eexists (_ :: os). cbn [Stage_deserialize_all]. rewrite E. cbn.
  split; [reflexivity|]. by constructor.
Qed.

(** One element that is not a dict makes the whole list fail. *)
Lemma Stage_deserialize_all_other (l : list value) :
  ~ Forall is_dict l -> Stage_deserialize_all l = None.
Proof.
  induction l as [|v l IH]; intros H; [by destruct H|].
  destruct v as [| | | | | |items]; try reflexivity.
  cbn. rewrite IH; [reflexivity|].
  intros Hl. apply H. by constructor.
Qed.

End StructuralFacts.

(** X5.  [serialize] loses nothing: [Stage.deserialize(s.serialize())] is
    [s] and [Enigma.deserialize(e.serialize())] is [e], for every stage and
    every [Enigma], stages included and in order, whatever kind of value
    their fields hold; and the objects of the records that the binary form
    reads and writes determine those records. *)
Theorem structural_round_trip (o : Structural.StageObj)
    (eo : Structural.EnigmaObj) (s s' : Stage.t) (e e' : Enigma.t) :
  Structural.Stage_deserialize (Structural.Stage_serialize o) = Some o /\
  Structural.Enigma_deserialize (Structural.Enigma_serialize eo) = Some eo /\
  Structural.Stage_deserialize
    (Structural.Stage_serialize (Structural.of_Stage s))
  = Some (Structural.of_Stage s) /\
  Structural.Enigma_deserialize
    (Structural.Enigma_serialize (Structural.of_Enigma e))
  = Some (Structural.of_Enigma e) /\
  (Structural.of_Stage s = Structural.of_Stage s' -> s = s') /\
  (Structural.of_Enigma e = Structural.of_Enigma e' -> e = e').
Proof.
  assert (forall eo, Structural.Enigma_deserialize (Structural.Enigma_serialize eo)
                     = Some eo) as Hround.
  { intros [e1 e2 lv u1 u2 os].
    unfold Structural.Enigma_serialize, Structural.Enigma_deserialize.
    cbn -[Structural.Stage_deserialize_all Structural.Stage_serialize fmap].
    by rewrite Stage_structural_all. }
  split; [apply Stage_structural|]. split; [apply Hround|].
  split; [apply Stage_structural|]. split; [apply Hround|].
  split; [apply of_Stage_inj|].
  destruct e, e'. unfold Structural.of_Enigma. cbn.
  intros [= -> -> -> -> -> Hs]. f_equal. by apply of_Stage_all_inj.
Qed.

(** X6.  [deserialize] takes every field from the dict as it is stored and
    defaults what is missing.  [Stage.deserialize] builds a stage from
    every dict: a field is the value under its key, of whatever kind, and 0
    (0.0 for [start_time]) when the dict lacks the key.
    [Enigma.deserialize] does the same for its five plain fields (with
    [False] for [unknown_2]); it has no stage when the dict lacks [stages],
    and one stage for each dict, in order, when [stages] holds a list of
    dicts.  It raises when [stages] holds a list with an element that is not
    a dict, a number, a truth value or [None], a string that is not empty
    or a dict that is not empty.  The empty dict gives the records of
    [init]. *)
Theorem structural_defaults (items : list (string * Structural.value)) :
  (exists o,
     Structural.Stage_deserialize (Structural.Dict items) = Some o /\
     Structural.stored_or items "level" (Structural.Int 0) (Structural.level o) /\
     Structural.stored_or items "stage_id" (Structural.Int 0)
       (Structural.stage_id o) /\
     Structural.stored_or items "decoding_satus" (Structural.Int 0)
       (Structural.decoding_satus o) /\
     Structural.stored_or items "start_time" (Structural.Float 0)
       (Structural.start_time o)) /\
  match Structural.find items "stages" with
  | None =>
      exists eo,
        Structural.Enigma_deserialize (Structural.Dict items) = Some eo /\
        Structural.stages eo = [] /\ Structural.plain_fields items eo
  | Some (Structural.List l) =>
      (Forall Structural.is_dict l ->
       exists eo,
         Structural.Enigma_deserialize (Structural.Dict items) = Some eo /\
         Forall2 (fun v o => Structural.Stage_deserialize v = Some o) l
           (Structural.stages eo) /\
         Structural.plain_fields items eo) /\
      (~ Forall Structural.is_dict l ->
       Structural.Enigma_deserialize (Structural.Dict items) = None)
  | Some (Structural.Int _) | Some (Structural.Float _)
  | Some (Structural.Bool _) | Some Structural.Null =>
      Structural.Enigma_deserialize (Structural.Dict items) = None
  | Some (Structural.Str s) =>
      s <> EmptyString ->
      Structural.Enigma_deserialize (Structural.Dict items) = None
  | Some (Structural.Dict kvs) =>
      kvs <> [] ->
      Structural.Enigma_deserialize (Structural.Dict items) = None
  end /\
  Structural.Stage_deserialize (Structural.Dict [])
  = Some (Structural.of_Stage Stage.init) /\
  Structural.Enigma_deserialize (Structural.Dict [])
  = Some (Structural.of_Enigma Enigma.init).
Proof.
  split; [|split; [|split; reflexivity]].
  - eexists. split; [reflexivity|]. cbn [Structural.level Structural.stage_id
      Structural.decoding_satus Structural.start_time].
    repeat split; apply get_stored.
  - assert (forall l,
      Structural.iterate (Structural.get items "stages" (Structural.List []))
      = Some l ->
      (Forall Structural.is_dict l ->
       exists eo,
         Structural.Enigma_deserialize (Structural.Dict items) = Some eo /\
         Forall2 (fun v o => Structural.Stage_deserialize v = Some o) l
           (Structural.stages eo) /\
         Structural.plain_fields items eo) /\
      (~ Forall Structural.is_dict l ->
       Structural.Enigma_deserialize (Structural.Dict items) = None)) as Hlist.
    { intros l Hl. unfold Structural.Enigma_deserialize. rewrite Hl.
      simpl. split.
      - intros Hd.
        destruct (Stage_deserialize_all_dicts l Hd) as (os & -> & Hos).
        simpl. eexists. split; [reflexivity|].
        unfold Structural.plain_fields.
        cbn [Structural.stages Structural.energy_since_1
             Structural.energy_since_2 Structural.enigma_level
             Structural.unknown_1 Structural.unknown_2].
        split; [exact Hos|]. repeat split; apply get_stored.
      - intros Hd. by rewrite (Stage_deserialize_all_other l Hd). }
    unfold Structural.get in Hlist.
    destruct (Structural.find items "stages") as [[| | |s| |l|kvs]|] eqn:Es.
    1-3, 5: unfold Structural.Enigma_deserialize, Structural.get;
      rewrite Es; reflexivity.
    + intros Hs. apply (Hlist _ eq_refl).
      destruct s as [|c r]; [done|]. cbn [Structural.chars].
      intros Hd. by apply Forall_cons in Hd as [Hd _].
    + apply (Hlist _ eq_refl).
    + intros Hk. apply (Hlist _ eq_refl).
      destruct kvs as [|kv kvs]; [done|]. rewrite fmap_cons.
      intros Hd. by apply Forall_cons in Hd as [Hd _].
    + destruct (Hlist [] eq_refl) as [Hok _].
      destruct (Hok (Forall_nil_2 _)) as (eo & He & Hs & Hf).
      exists eo. split; [exact He|]. split; [|exact Hf].
      by apply Forall2_nil_inv_l in Hs.
Qed.

(** A dict that stores a level and, as [start_time], an [int]; and a dict
    whose [stages] hold a dict and a number. *)
Lemma structural_defaults_witness :
  Structural.Stage_deserialize
    (Structural.Dict [("level"%string, Structural.Int 7);
                      ("start_time"%string, Structural.Int 5)])
  = Some (Structural.mkStage (Structural.Int 7) (Structural.Int 0)
            (Structural.Int 0) (Structural.Int 5)) /\
  Structural.Enigma_deserialize
    (Structural.Dict
       [("stages"%string,
         Structural.List [Structural.Dict []; Structural.Int 1])])
  = None.
Proof.
  split.
  - destruct (structural_defaults [("level"%string, Structural.Int 7);
                                   ("start_time"%string, Structural.Int 5)])
      as ((o & Ho & Hl & Hi & Hd & Ht) & _).
    rewrite Ho. destruct o as [a b c t].
    unfold Structural.stored_or in Hl, Hi, Hd, Ht. cbn in Hl, Hi, Hd, Ht.
    by subst.
  - destruct (structural_defaults
                [("stages"%string,
                  Structural.List [Structural.Dict []; Structural.Int 1])])
      as (_ & Hs & _).
    cbn in Hs. apply Hs. intros Hd.
    apply Forall_cons in Hd as [_ Hd]. by apply Forall_cons in Hd as [Hd _].
Defined.

(** ** What an [IntInput] can return *)

Section IntInputRange.

Import IntInput.

Lemma get_input_accepted (self : t) (c : Console.t) :
  match fst (get_input self c) with
  | Ok (Some v, _) => accepted self v
  | Ok (None, _) => True
  | Raise e => e = EOFError
  end.
Proof.
  destruct c as [[|line rest] n]; [reflexivity|].
  unfold get_input, mbind, Console.get. cbn [Console.pending Console.prompts].
  destruct (_ && _)%bool eqn:Hb.
  - cbn [fst mret]. destruct (default self) as [d|] eqn:Hd; [|done].
    left. exact Hd.
  - destruct (Py.int line) as [v|]; cbn [fst mret]; [|done].
    right. unfold clamp_value. lia.
Qed.

Lemma get_input_while_accepted (self : t) (c : Console.t) :
  match fst (get_input_while self c) with
  | Ok (Some v) => accepted self v
  | Ok None => True
  | Raise e => e = EOFError
  end.
Proof.
  destruct c as [lines n]. revert n.
  induction lines as [|line rest IH]; intros n; [reflexivity|].
  rewrite get_input_while_step.
  pose proof (get_input_accepted self (Console.mk (line :: rest) n)) as H.
  destruct (fst (get_input self _)) as [[[v|] u]|e]; cbn [fst]; try done.
  destruct (String.eqb u "q"); [done | apply IH].
Qed.

Lemma get_max_value_limit (cfg : Config) (m : option Z) (signed : bool) :
  get_max_value cfg m signed <= (if signed then 2 ^ 31 - 1 else 2 ^ 32 - 1) /\
  (forall v, disable_maxes cfg = false -> m = Some v ->
             get_max_value cfg m signed <= v).
Proof.
  unfold get_max_value. split.
  - destruct m, (disable_maxes cfg), signed; lia.
  - intros v -> ->. lia.
Qed.

End IntInputRange.

(** X7.  [IntInput.get_input_while] hands back nothing but an accepted
    value: the default as it is, or a value between [min] and [max] ([min]
    itself when [max] is below it); or [None] when the user quits.  It
    raises only when the input ends.  The [max] a constructor call sets is
    never above the integer limit of the signedness. *)
Theorem IntInput_returns_accepted (self : IntInput.t) (c : Console.t)
    (cfg : Config) (max : option Z) (min : Z) (default : option Z)
    (signed : bool) :
  match fst (IntInput.get_input_while self c) with
  | Ok (Some v) =>
      IntInput.default self = Some v \/
      IntInput.min self <= v <= Z.max (IntInput.min self) (IntInput.max self)
  | Ok None => True
  | Raise e => e = EOFError
  end /\
  IntInput.max (IntInput.init cfg max min default signed)
  <= (if signed then 2 ^ 31 - 1 else 2 ^ 32 - 1).
Proof.
  split; [apply get_input_while_accepted|].
  exact (proj1 (get_max_value_limit cfg max signed)).
Qed.

Section SingleChoice.

Import ChoiceInput.

Context (cfg : Config) (self : t).

Let entries : Z := Z.of_nat (length (strings self)).

Let prompt : IntInput.t := IntInput.init cfg (Some entries) 1 None true.

Lemma ChoiceInput_get_input_eq (c : Console.t) :
  get_input cfg (self, c)
  = if decide (length (strings self) = 0%nat)
    then (Ok (None, EmptyString), (self, c))
    else if decide (length (strings self) = 1%nat)
    then (Ok (Some 1, EmptyString), (self, c))
    else (fst (IntInput.get_input prompt c),
          (self, snd (IntInput.get_input prompt c))).
Proof.
  unfold get_input, mbind, this. cbn [fst].
  repeat case_decide; try reflexivity.
  unfold console, IntInput.get_input_locale. cbn [fst snd].
  fold entries. fold prompt. by destruct (IntInput.get_input prompt c).
Qed.

Lemma ChoiceInput_loop_valid (fuel : nat) (c : Console.t) :
  disable_maxes cfg = false -> entries <= 2 ^ 31 - 1 ->
  match get_input_loop cfg fuel (self, c) with
  | (Ok (Some v), s) => 1 <= v <= entries /\ fst s = self
  | (Ok None, s) => fst s = self
  | (Raise e, s) => e = EOFError /\ fst s = self
  end.
Proof.
  intros Hcfg Hn. revert c; induction fuel as [|fuel IH]; intros c; [done|].
  cbn [get_input_loop]. unfold mbind at 1. rewrite ChoiceInput_get_input_eq.
  case_decide as H0; [apply IH|].
  case_decide as H1; [unfold entries; rewrite H1; by split; [lia|]|].
  pose proof (get_input_accepted prompt c) as Ha.
  destruct (IntInput.get_input prompt c) as [[[[v|] u]|e] c']; cbn [fst snd] in *.
  - split; [|reflexivity]. destruct Ha as [Ha|Ha]; [discriminate Ha|].
    unfold prompt, IntInput.init in Ha. cbn [IntInput.min IntInput.max] in Ha.
    rewrite get_max_value_bounded in Ha by assumption.
    unfold entries in *. lia.
  - destruct (String.eqb u "q"); [reflexivity | apply IH].
  - by split.
Qed.

End SingleChoice.

(** X8.  In single-choice mode, with the disabled-maxes toggle off,
    [ChoiceInput.single_choice] returns a valid menu number or nothing:
    [None] with no entry or when the user quits, otherwise a number between
    1 and the number of entries, whatever is typed; it raises only when the
    input ends, and leaves the [ChoiceInput] as it was. *)
Theorem single_choice_valid (cfg : Config) (self : ChoiceInput.t)
    (c : Console.t) :
  disable_maxes cfg = false ->
  Z.of_nat (length (ChoiceInput.strings self)) <= 2 ^ 31 - 1 ->
  match ChoiceInput.single_choice cfg (self, c) with
  | (Ok (Some v), s) =>
      1 <= v <= Z.of_nat (length (ChoiceInput.strings self)) /\ fst s = self
  | (Ok None, s) => fst s = self
  | (Raise e, s) => e = EOFError /\ fst s = self
  end.
Proof.
  intros Hcfg Hn.
  unfold ChoiceInput.single_choice, ChoiceInput.get_input_while, mbind,
    ChoiceInput.this. cbn [fst].
  case_decide; [reflexivity|].
  by apply ChoiceInput_loop_valid.
Qed.

(** Three entries and the line "99": the last entry. *)
Lemma single_choice_valid_witness :
  match ChoiceInput.single_choice Examples.maxes_on
          (Examples.three_choices, Console.mk ["99"%string] 0) with
  | (Ok (Some v), s) => 1 <= v <= 3 /\ fst s = Examples.three_choices
  | (Ok None, s) => fst s = Examples.three_choices
  | (Raise e, s) => e = EOFError /\ fst s = Examples.three_choices
  end.
Proof.
  apply (single_choice_valid Examples.maxes_on Examples.three_choices
           (Console.mk ["99"%string] 0)).
  - reflexivity.
  - vm_compute. discriminate.
Defined.

(** X9.  [SingleEditor.edit] returns the prior value (empty line, or quit)
    or a value that is at least [min_value] and at most the larger of
    [min_value] and the integer limit, and, with the disabled-maxes toggle
    off, at most the larger of [min_value] and [max_value].  It raises only
    when the input ends. *)
Theorem SingleEditor_edit_range (cfg : Config) (self : SingleEditor.t)
    (c : Console.t) :
  match fst (SingleEditor.edit cfg self c) with
  | Ok r =>
      r = SingleEditor.value self \/
      (SingleEditor.min_value self <= r /\
       r <= Z.max (SingleEditor.min_value self) (2 ^ 31 - 1) /\
       forall m, disable_maxes cfg = false ->
                 SingleEditor.max_value self = Some m ->
                 r <= Z.max (SingleEditor.min_value self) m)
  | Raise e => e = EOFError
  end.
Proof.
  unfold SingleEditor.edit, mbind, IntInput.get_input_locale_while.
  set (bound := match SingleEditor.max_value self with
                | Some m => m
                | None => IntInput.get_max_value cfg None (SingleEditor.signed self)
                end).
  set (prompt := IntInput.init cfg (Some bound) (SingleEditor.min_value self)
                   (Some (SingleEditor.value self)) true).
  pose proof (get_input_while_accepted prompt c) as Ha.
  destruct (IntInput.get_input_while prompt c) as [[[v|]|e] c'];
    cbn [fst mret] in *; [|by left|exact Ha].
  destruct Ha as [[= ->]|Ha]; [by left|right].
  unfold prompt, IntInput.init in Ha. cbn [IntInput.min IntInput.max] in Ha.
  destruct (get_max_value_limit cfg (Some bound) true) as [Hl Hm].
  split; [lia|]. split; [lia|].
  intros m Hcfg Hmax. specialize (Hm bound Hcfg eq_refl).
  unfold bound in Hm at 2. rewrite Hmax in Hm. lia.
Qed.

(** ** Text and yes/no prompts *)

Section TextPrompts.

Local Open Scope string_scope.

Lemma StringInput_loop_step (fuel : nat) (self : StringInput.t)
    (line : string) rest n :
  StringInput.get_input_locale_loop (S fuel) self (Console.mk (line :: rest) n)
  = if String.eqb line "" then (Ok None, Console.mk rest (S n))
    else if String.eqb line " "
    then StringInput.get_input_locale_loop fuel self (Console.mk rest (S n))
    else (Ok (Some line), Console.mk rest (S n)).
Proof.
  cbn [StringInput.get_input_locale_loop].
  unfold mbind at 1, StringInput.get_input_locale, mbind, Console.get.
  cbn [Console.pending Console.prompts].
  destruct (String.eqb line "") eqn:E; [reflexivity|].
  cbn [mret]. rewrite E. by destruct (String.eqb line " ").
Qed.

Lemma StringInput_while_step (self : StringInput.t) (line : string) rest n :
  StringInput.get_input_locale_while self (Console.mk (line :: rest) n)
  = if String.eqb line "" then (Ok None, Console.mk rest (S n))
    else if String.eqb line " "
    then StringInput.get_input_locale_while self (Console.mk rest (S n))
    else (Ok (Some line), Console.mk rest (S n)).
Proof.
  unfold StringInput.get_input_locale_while. cbn [Console.pending length].
  apply StringInput_loop_step.
Qed.

Lemma StringInput_while_eof (self : StringInput.t) n :
  StringInput.get_input_locale_while self (Console.mk [] n)
  = (Raise EOFError, Console.mk [] (S n)).
Proof. reflexivity. Qed.

Lemma StringInput_while_spaces (self : StringInput.t) (k : nat) lines n :
  StringInput.get_input_locale_while self (Console.mk (replicate k " " ++ lines) n)
  = StringInput.get_input_locale_while self (Console.mk lines (n + k)).
Proof.
  revert n; induction k as [|k IH]; intros n.
  - cbn. by rewrite Nat.add_0_r.
  - cbn [replicate app]. rewrite StringInput_while_step.
    cbn [String.eqb Ascii.eqb Bool.eqb]. rewrite IH. do 2 f_equal. lia.
Qed.

Lemma YesNoInput_while_step (yes_key : string) (self : YesNoInput.t)
    (line : string) rest n :
  YesNoInput.get_input_locale_while yes_key self (Console.mk (line :: rest) n)
  = if String.eqb line "" then (Ok (YesNoInput.default self), Console.mk rest (S n))
    else if String.eqb line " "
    then YesNoInput.get_input_locale_while yes_key self (Console.mk rest (S n))
    else (Ok (String.eqb line yes_key), Console.mk rest (S n)).
Proof.
  unfold YesNoInput.get_input_locale_while. cbn [Console.pending length].
  generalize (S (length rest)) as fuel. intros fuel.
  cbn [YesNoInput.get_input_locale_loop].
  unfold mbind at 1, YesNoInput.get_input_locale, mbind, Console.get.
  cbn [Console.pending Console.prompts].
  destruct (String.eqb line "") eqn:E; [reflexivity|].
  cbn [mret]. rewrite E. by destruct (String.eqb line " ").
Qed.

Lemma YesNoInput_while_spaces (yes_key : string) (self : YesNoInput.t)
    (k : nat) lines n :
  YesNoInput.get_input_locale_while yes_key self
    (Console.mk (replicate k " " ++ lines) n)
  = YesNoInput.get_input_locale_while yes_key self (Console.mk lines (n + k)).
Proof.
  revert n; induction k as [|k IH]; intros n.
  - cbn. by rewrite Nat.add_0_r.
  - cbn [replicate app]. rewrite YesNoInput_while_step.
    cbn [String.eqb Ascii.eqb Bool.eqb]. rewrite IH. do 2 f_equal. lia.
Qed.

End TextPrompts.

(** X10.  [StringEditor.edit] skips every line that is a single space, then
    takes the first other line: the empty line keeps the prior value, any
    other line is returned as typed.  When the input ends before such a
    line, it raises [EOFError]. *)
Theorem StringEditor_edit_first_line (self : StringEditor.t) (k : nat)
    (line : string) (rest : list string) (n : nat) :
  line <> " "%string ->
  StringEditor.edit self (Console.mk (replicate k " "%string ++ line :: rest) n)
  = (Ok (if String.eqb line "" then StringEditor.value self else line),
     Console.mk rest (S (n + k))) /\
  StringEditor.edit self (Console.mk (replicate k " "%string) n)
  = (Raise EOFError, Console.mk [] (S (n + k))).
Proof.
  intros Hl. unfold StringEditor.edit, mbind. split.
  - rewrite StringInput_while_spaces, StringInput_while_step.
    destruct (String.eqb line ""); [reflexivity|].
    destruct (String.eqb_spec line " "); [done | reflexivity].
  - rewrite <- (app_nil_r (replicate k _)), StringInput_while_spaces.
    reflexivity.
Qed.

(** Two single spaces, then a name. *)
Lemma StringEditor_edit_first_line_witness :
  StringEditor.edit (StringEditor.mk "name" "old")
    (Console.mk [" "; " "; "new"; "later"]%string 0)
  = (Ok "new"%string, Console.mk ["later"%string] 3).
Proof.
  apply (StringEditor_edit_first_line (StringEditor.mk "name" "old") 2
           "new" ["later"%string] 0).
  discriminate.
Defined.

(** X11.  [YesNoInput.get_input_locale_while] skips every line that is a
    single space, then answers from the first other line: the default for
    the empty line, yes exactly when the line is the affirmative token, no
    for anything else.  [get_input_once] answers the same way from one
    line, except that it does not skip a single space. *)
Theorem YesNoInput_first_line (yes_key : string) (self : YesNoInput.t)
    (k : nat) (line : string) (rest : list string) (n : nat) :
  line <> " "%string ->
  YesNoInput.get_input_locale_while yes_key self
    (Console.mk (replicate k " "%string ++ line :: rest) n)
  = (Ok (if String.eqb line "" then YesNoInput.default self
         else String.eqb line yes_key),
     Console.mk rest (S (n + k))) /\
  YesNoInput.get_input_once yes_key self (Console.mk (line :: rest) n)
  = (Ok (if String.eqb line "" then YesNoInput.default self
         else String.eqb line yes_key),
     Console.mk rest (S n)) /\
  YesNoInput.get_input_once yes_key self (Console.mk (" "%string :: rest) n)
  = (Ok (String.eqb " " yes_key), Console.mk rest (S n)).
Proof.
  intros Hl. split; [|split].
  - rewrite YesNoInput_while_spaces, YesNoInput_while_step.
    destruct (String.eqb line ""); [reflexivity|].
    destruct (String.eqb_spec line " "); [done | reflexivity].
  - unfold YesNoInput.get_input_once, mbind, Console.get.
    cbn [Console.pending Console.prompts].
    by destruct (String.eqb line "").
  - reflexivity.
Qed.

(** A single space, then the token. *)
Lemma YesNoInput_first_line_witness :
  YesNoInput.get_input_locale_while "y" (YesNoInput.mk false)
    (Console.mk [" "; "y"]%string 0)
  = (Ok true, Console.mk [] 2).
Proof.
  apply (YesNoInput_first_line "y" (YesNoInput.mk false) 1 "y" [] 0).
  discriminate.
Defined.

(** ** The menu of a [ChoiceInput], prompt after prompt *)

Section MenuLoop.

Import ChoiceInput.

Lemma get_input_locale_multi (self : t) (line : string) rest k :
  is_single_choice self = false ->
  (2 <= length (strings self))%nat ->
  get_input_locale (self, Console.mk (line :: rest) k)
  = (Ok (if bool_decide (Z.of_nat (length (strings self) + 1) ∈ int_vals line)
         then (Z.of_nat <$> seq 1 (length (strings self)), true)
         else (int_vals line, false)),
     (ChoiceLoop.grown self, Console.mk rest (S k))).
Proof.
  intros Hm Hn.
  unfold get_input_locale, mbind at 1, this at 1. cbn [fst].
  rewrite decide_False by lia. rewrite decide_False by lia.
  rewrite Hm.
  unfold mbind, set_strings, this, console, Console.get, ChoiceLoop.grown.
  cbn [fst snd Console.pending Console.prompts strings is_single_choice].
  rewrite Hm, length_app. cbn [length negb andb].
  rewrite andb_true_r.
  replace (length (strings self) + 1 - 1)%nat with (length (strings self)) by lia.
  by case_bool_decide.
Qed.

Lemma get_input_locale_eof (self : t) k :
  is_single_choice self = false ->
  (2 <= length (strings self))%nat ->
  get_input_locale (self, Console.mk [] k)
  = (Raise EOFError, (ChoiceLoop.grown self, Console.mk [] (S k))).
Proof.
  intros Hm Hn.
  unfold get_input_locale, mbind at 1, this at 1. cbn [fst].
  rewrite decide_False by lia. rewrite decide_False by lia.
  rewrite Hm. reflexivity.
Qed.

Lemma menu_loop_step (fuel : nat) (self : t) (line : string) rest k :
  is_single_choice self = false ->
  (2 <= length (strings self))%nat ->
  ChoiceLoop.get_input_locale_loop (S fuel) (self, Console.mk (line :: rest) k)
  = let s := (ChoiceLoop.grown self, Console.mk rest (S k)) in
    if bool_decide (Z.of_nat (length (strings self) + 1) ∈ int_vals line)
    then (Ok (Z.of_nat <$> seq 1 (length (strings self))), s)
    else match int_vals line with
         | [] => ChoiceLoop.get_input_locale_loop fuel s
         | vals => if bool_decide (vals = [0]) then (Ok [], s) else (Ok vals, s)
         end.
Proof.
  intros Hm Hn. cbn [ChoiceLoop.get_input_locale_loop].
  unfold mbind at 1. rewrite get_input_locale_multi by assumption.
  cbn zeta. case_bool_decide; [reflexivity|].
  destruct (int_vals line) as [|v vals]; [reflexivity|].
  cbn [length lookup list_lookup]. rewrite decide_False by done.
  destruct vals as [|w vals].
  - rewrite bool_decide_eq_true_2 by reflexivity. cbn [andb].
    repeat case_bool_decide; try reflexivity; congruence.
  - repeat case_bool_decide; cbn [andb]; try reflexivity; discriminate.
Qed.

Lemma grown_multi (self : t) :
  is_single_choice self = false ->
  is_single_choice (ChoiceLoop.grown self) = false /\
  length (strings (ChoiceLoop.grown self)) = S (length (strings self)).
Proof.
  intros H. unfold ChoiceLoop.grown. cbn [is_single_choice strings].
  rewrite length_app. cbn. split; [exact H | lia].
Qed.

End MenuLoop.

(** X12.  In multi-choice mode every prompt of [get_input_locale] appends
    one more "all at once" entry to the menu, so the number that selects
    everything moves by one with each prompt.  With [n >= 2] entries,
    [get_input_locale_while] given [n + 1] at the first prompt returns all
    [n] entries, and given 0 it returns nothing; but after one line without
    a number the menu has [n + 2] entries, and [n + 1] then returns the one
    entry [n + 1], the first appended "all at once" itself. *)
Theorem menu_sentinel_moves (self : ChoiceInput.t) (bad : string)
    (rest : list string) (k : nat) :
  ChoiceInput.is_single_choice self = false ->
  (2 <= length (ChoiceInput.strings self))%nat ->
  ChoiceInput.int_vals bad = [] ->
  let n := length (ChoiceInput.strings self) in
  ChoiceLoop.get_input_locale_while
    (self, Console.mk (Py.str (Z.of_nat (n + 1)) :: rest) k)
  = (Ok (Z.of_nat <$> seq 1 n),
     (ChoiceLoop.grown self, Console.mk rest (S k))) /\
  ChoiceLoop.get_input_locale_while (self, Console.mk ("0"%string :: rest) k)
  = (Ok [], (ChoiceLoop.grown self, Console.mk rest (S k))) /\
  ChoiceLoop.get_input_locale_while
    (self, Console.mk (bad :: Py.str (Z.of_nat (n + 1)) :: rest) k)
  = (Ok [Z.of_nat (n + 1)],
     (ChoiceLoop.grown (ChoiceLoop.grown self), Console.mk rest (S (S k)))).
Proof.
  intros Hm Hn Hbad n.
  destruct (grown_multi self Hm) as [Hm' Hn'].
  unfold ChoiceLoop.get_input_locale_while, mbind, ChoiceInput.this.
  cbn [fst snd Console.pending length].
  rewrite decide_False by lia. rewrite decide_False by lia.
  cbn beta. cbn [fst snd Console.pending length].
  split; [|split].
  - rewrite menu_loop_step by assumption. fold n. cbn zeta.
    rewrite int_vals_str by lia.
    rewrite bool_decide_eq_true_2 by apply list_elem_of_here. reflexivity.
  - rewrite menu_loop_step by assumption. fold n. cbn zeta.
    change (ChoiceInput.int_vals "0") with [0].
    rewrite bool_decide_eq_false_2; [reflexivity|].
    rewrite list_elem_of_singleton. lia.
  - rewrite menu_loop_step by assumption. fold n. cbn zeta.
    rewrite Hbad.
    rewrite bool_decide_eq_false_2 by (intros H; inversion H).
    rewrite menu_loop_step by (assumption || lia). cbn zeta.
    rewrite int_vals_str by lia. rewrite Hn'. fold n.
    rewrite bool_decide_eq_false_2 by (rewrite list_elem_of_singleton; lia).
    by rewrite bool_decide_eq_false_2 by (intros [= ?]; lia).
Qed.

(** Three entries: an empty line, then "4". *)
Lemma menu_sentinel_moves_witness :
  ChoiceLoop.get_input_locale_while
    (Examples.three_choices, Console.mk [""; "4"]%string 0)
  = (Ok [4],
     (ChoiceLoop.grown (ChoiceLoop.grown Examples.three_choices),
      Console.mk [] 2)).
Proof.
  apply (menu_sentinel_moves Examples.three_choices "" [] 0);
    [reflexivity | simpl; lia | reflexivity].
Defined.

(** ** [MultiEditor]: one field after the other *)

Section EditOne.

Import MultiEditor.

Lemma getitem_cases {A} (l : list A) (i : Z) (s : st) :
  (Py.index l i = None /\ Py.getitem l i s = (Raise IndexError, s)) \/
  (exists k a, Py.index l i = Some k /\ l !! k = Some a /\
               Py.getitem l i s = (Ok a, s)).
Proof.
  unfold Py.getitem. destruct (Py.index l i) as [k|] eqn:E; [|by left].
  destruct (l !! k) as [a|] eqn:Ea; [right; by exists k, a|].
  exfalso. apply lookup_ge_None in Ea. unfold Py.index in E.
  repeat case_decide; simplify_eq; lia.
Qed.

(** One turn of the loop of [edit_one]: an index out of range raises and
    changes nothing; otherwise the field is prompted for, and keeps its
    value or takes the value entered. *)
Lemma edit_one_loop_cons (cfg : Config) (choice : Z) (choices : list Z)
    (self : t) (c : Console.t) :
  (edit_one_loop cfg (choice :: choices) (self, c) = (Raise IndexError, (self, c))
   /\ (field_bound cfg self choice = None \/
       Py.index (ints self) choice = None \/
       Py.index (items self) choice = None)) \/
  exists m own k,
    field_bound cfg self choice = Some m /\
    Py.index (ints self) choice = Some k /\ ints self !! k = Some own /\
    edit_one_loop cfg (choice :: choices) (self, c)
    = match IntInput.get_input_while (Budget.field_prompt cfg self m own) c with
      | (Raise e, c') => (Raise e, (self, c'))
      | (Ok None, c') => edit_one_loop cfg choices (self, c')
      | (Ok (Some u), c') =>
          edit_one_loop cfg choices (Budget.with_ints self (<[k := u]> (ints self)), c')
      end.
Proof.
  remember (edit_one_loop cfg (choice :: choices) (self, c)) as lhs eqn:E.
  cbn [edit_one_loop] in E. unfold mbind at 1, this at 1 in E.
  cbn [fst] in E. unfold mbind at 1 in E.
  destruct (getitem_cases (max_values self) choice (self, c))
    as [[Hno Hr]|(k1 & mv & Hk1 & Hmv & Hr)]; rewrite Hr in E.
  { left. split; [exact E|]. left. unfold field_bound. by rewrite Hno. }
  cbv zeta in E.
  assert (field_bound cfg self choice
          = Some (match mv with
                  | Some m => m
                  | None => IntInput.get_max_value cfg None (signed self)
                  end)) as Hfb.
  { unfold field_bound. rewrite Hk1, Hmv. by destruct mv. }
  set (m := match mv with Some m => m | None => _ end) in *.
  unfold mbind at 1 in E.
  destruct (getitem_cases (ints self) choice (self, c))
    as [[Hno Hraise]|(k & own & Hk & Hown & Hget)].
  - left. split; [|by right; left]. destruct (cumulative_max self).
    + unfold mbind at 1 in E. by rewrite Hraise in E.
    + unfold mret at 1 in E. unfold mbind at 1 in E.
      destruct (getitem_cases (items self) choice (self, c))
        as [[_ Hi]|(k3 & it & _ & _ & Hi)]; rewrite Hi in E; [done|].
      unfold mbind at 1 in E. by rewrite Hraise in E.
  - assert (exists bound,
              bound = (if cumulative_max self
                       then m - (Py.sum (ints self) - own) else m) /\
              lhs = (let! _ := Py.getitem (items self) choice in
                     let! default := Py.getitem (ints self) choice in
                     let! usr_input :=
                       console (IntInput.get_input_locale_while
                                  (IntInput.init cfg (Some bound) 0
                                                 (Some default) true)) in
                     match usr_input with
                     | Some usr_input0 =>
                         let! ints' := Py.setitem (ints self) choice usr_input0 in
                         let! _ := set_ints ints' in edit_one_loop cfg choices
                     | None => edit_one_loop cfg choices
                     end) (self, c)) as (bound & Hbound & E').
    { destruct (cumulative_max self).
      - unfold mbind at 1 in E. rewrite Hget in E. by eexists.
      - by eexists. }
    clear E. unfold mbind at 1 in E'.
    destruct (getitem_cases (items self) choice (self, c))
      as [[Hno Hi]|(k3 & it & _ & _ & Hi)]; rewrite Hi in E';
      [left; split; [exact E' | by right; right]|].
    right. exists m, own, k. split; [exact Hfb|]. split; [exact Hk|].
    split; [exact Hown|].
    unfold mbind at 1 in E'. rewrite Hget in E'.
    unfold mbind at 1, console, IntInput.get_input_locale_while in E'.
    cbn [fst snd] in E'. unfold Budget.field_prompt. rewrite <- Hbound.
    destruct (IntInput.get_input_while _ c) as [[[u|]|e] c'];
      [|exact E'..].
    unfold mbind at 1, Py.setitem in E'. rewrite Hk in E'.
    unfold mret at 1 in E'. unfold mbind at 1, set_ints in E'.
    cbn [fst snd] in E'. exact E'.
Qed.

End EditOne.

Section BudgetKept.

Import MultiEditor.

Lemma sum_insert (l : list Z) (k : nat) (old u : Z) :
  l !! k = Some old -> Py.sum (<[k := u]> l) = Py.sum l - old + u.
Proof.
  unfold Py.sum. revert k; induction l as [|x l IH]; intros k H; [done|].
  destruct k as [|k]; simpl in *.
  - injection H as ->. lia.
  - rewrite (IH k H). lia.
Qed.

Lemma field_bound_capped (cfg : Config) (budget : Z) (self : t) (choice m : Z) :
  Budget.capped budget (max_values self) ->
  field_bound cfg self choice = Some m -> m <= budget.
Proof.
  unfold Budget.capped, field_bound. intros Hc.
  destruct (Py.index (max_values self) choice) as [k|]; [|discriminate].
  destruct (max_values self !! k) as [mv|] eqn:E; [|discriminate].
  destruct (Forall_lookup_1 _ _ _ _ Hc E) as (m' & -> & Hm).
  by intros [= <-].
Qed.

Lemma edit_one_loop_budget (cfg : Config) (budget : Z) (choices : list Z)
    (self : t) (c : Console.t) :
  disable_maxes cfg = false ->
  cumulative_max self = true ->
  Budget.capped budget (max_values self) ->
  Budget.within budget (ints self) ->
  let self' := fst (snd (edit_one_loop cfg choices (self, c))) in
  Budget.within budget (ints self') /\
  length (ints self') = length (ints self).
Proof.
  intros Hcfg. revert self c.
  induction choices as [|choice choices IH]; intros self c Hcum Hcap Hin;
    [done|].
  destruct (edit_one_loop_cons cfg choice choices self c)
    as [[-> _]|(m & own & k & Hm & Hk & Hown & ->)]; [done|].
  pose proof (get_input_while_accepted (Budget.field_prompt cfg self m own) c)
    as Hacc.
  destruct (IntInput.get_input_while _ c) as [[[u|]|e] c']; cbn [fst] in Hacc.
  - set (self1 := Budget.with_ints self (<[k := u]> (ints self))).
    assert (Budget.within budget (ints self1)) as Hin1.
    { destruct Hin as [Hpos Hsum]. unfold self1, Budget.with_ints. cbn [ints].
      pose proof (Forall_lookup_1 _ _ _ _ Hpos Hown) as Hown0. cbn in Hown0.
      pose proof (field_bound_capped cfg budget self choice m Hcap Hm) as Hmb.
      assert (0 <= u /\ Py.sum (ints self) - own + u <= budget) as [Hu Hs].
      { destruct Hacc as [Hd|Hr].
        - injection Hd as <-. lia.
        - unfold Budget.field_prompt, IntInput.init in Hr.
          cbn [IntInput.min IntInput.max] in Hr. rewrite Hcum in Hr.
          pose proof (proj2 (get_max_value_limit cfg
            (Some (m - (Py.sum (ints self) - own))) true) _ Hcfg eq_refl).
          lia. }
      split.
      - by apply Forall_insert.
      - by rewrite (sum_insert _ _ own). }
    destruct (IH self1 c' Hcum Hcap Hin1) as [Hw Hl].
    split; [exact Hw|]. rewrite Hl. unfold self1, Budget.with_ints.
    cbn [ints]. apply length_insert.
  - by apply IH.
  - done.
Qed.

End BudgetKept.

(** X13.  With the disabled-maxes toggle off, [edit_one] keeps a cumulative
    group within its budget: when no field is below 0, the fields together
    are within the budget, and no field's maximum is above it, then after
    [edit_one], whatever fields are chosen and whatever is typed, and also
    when it stops on an index out of range or on the end of input, no field
    is below 0 and the fields together are still within the budget. *)
Theorem edit_one_keeps_budget (cfg : Config) (budget : Z)
    (self : MultiEditor.t) (choices : list Z) (c : Console.t) :
  disable_maxes cfg = false ->
  MultiEditor.cumulative_max self = true ->
  Budget.capped budget (MultiEditor.max_values self) ->
  Budget.within budget (MultiEditor.ints self) ->
  let self' := fst (snd (MultiEditor.edit_one cfg choices (self, c))) in
  Budget.within budget (MultiEditor.ints self') /\
  length (MultiEditor.ints self') = length (MultiEditor.ints self).
Proof.
  intros Hcfg Hcum Hcap Hin.
  pose proof (edit_one_loop_budget cfg budget choices self c Hcfg Hcum Hcap Hin)
    as H.
  unfold MultiEditor.edit_one, mbind.
  destruct (MultiEditor.edit_one_loop cfg choices (self, c)) as [[[]|e] [s c']];
    exact H.
Qed.

(** Two fields of a budget of 100, edited one after the other. *)
Lemma edit_one_keeps_budget_witness :
  let self' :=
    fst (snd (MultiEditor.edit_one Examples.maxes_on [0; 1]
                (Examples.two_fields, Console.mk ["80"; "60"]%string 0))) in
  Budget.within 100 (MultiEditor.ints self') /\
  length (MultiEditor.ints self') = 2%nat.
Proof.
  apply (edit_one_keeps_budget Examples.maxes_on 100 Examples.two_fields [0; 1]
           (Console.mk ["80"; "60"]%string 0)).
  - reflexivity.
  - reflexivity.
  - unfold Budget.capped. cbn.
    repeat (constructor; [eexists; split; [reflexivity | lia]|]). constructor.
  - split; [cbn; repeat constructor; lia | vm_compute; discriminate].
Defined.

(** ** [MultiEditor.edit]: from the menu to the fields *)

Section EditMenu.

Import MultiEditor.

Lemma edit_multi (cfg : Config) (self : t) (line : string) rest k :
  (2 <= length (strings self))%nat ->
  edit cfg (self, Console.mk (line :: rest) k)
  = let s1 := (Budget.with_strings self (strings self ++ ["all_at_once"%string]),
               Console.mk rest (S k)) in
    if bool_decide (Z.of_nat (length (strings self) + 1) ∈ ChoiceInput.int_vals line)
    then edit_all cfg (Z.of_nat <$> seq 0 (length (strings self))) s1
    else edit_one cfg ((fun i => i - 1) <$> ChoiceInput.int_vals line) s1.
Proof.
  intros Hn. unfold edit, mbind at 1, this at 1. cbn [fst].
  unfold mbind at 1. cbn [snd].
  unfold ChoiceInput.get, mbind at 1, ChoiceInput.this at 1.
  cbn [fst ChoiceInput.is_single_choice].
  unfold mbind at 1, ChoiceInput.multiple_choice, mbind at 1.
  rewrite get_input_locale_multi by (cbn; done || lia).
  cbn [ChoiceInput.strings]. unfold ChoiceLoop.grown.
  cbn [ChoiceInput.strings ChoiceInput.items ChoiceInput.ints
       ChoiceInput.dialog ChoiceInput.is_single_choice].
  case_bool_decide.
  - cbn. rewrite shift_indices. reflexivity.
  - reflexivity.
Qed.

Lemma edit_one_loop_valid (cfg : Config) (choice : Z) (choices : list Z)
    (self : t) (c : Console.t) (m own : Z) (k : nat) :
  field_bound cfg self choice = Some m ->
  Py.index (ints self) choice = Some k -> ints self !! k = Some own ->
  is_Some (Py.index (items self) choice) ->
  edit_one_loop cfg (choice :: choices) (self, c)
  = match IntInput.get_input_while (Budget.field_prompt cfg self m own) c with
    | (Raise e, c') => (Raise e, (self, c'))
    | (Ok None, c') => edit_one_loop cfg choices (self, c')
    | (Ok (Some u), c') =>
        edit_one_loop cfg choices (Budget.with_ints self (<[k := u]> (ints self)), c')
    end.
Proof.
  intros Hm Hk Hown [k3 Hit].
  destruct (edit_one_loop_cons cfg choice choices self c)
    as [[_ [H|[H|H]]]|(m' & own' & k' & Hm' & Hk' & Hown' & ->)];
    [congruence..|].
  by simplify_eq.
Qed.

End EditMenu.

(** X14.  [MultiEditor.edit] does not check the numbers typed at its menu
    against the fields: with [n >= 2] entries, a number above [n + 1] (and
    above the number of maxima) is taken as an index and raises
    [IndexError] at the first look-up, after the menu has grown by its "all
    at once" entry and before any field is touched. *)
Theorem edit_number_unchecked (cfg : Config) (self : MultiEditor.t) (v : Z)
    (rest : list string) (k : nat) :
  (2 <= length (MultiEditor.strings self))%nat ->
  Z.of_nat (length (MultiEditor.strings self)) + 1 < v ->
  Z.of_nat (length (MultiEditor.max_values self)) < v ->
  MultiEditor.edit cfg (self, Console.mk (Py.str v :: rest) k)
  = (Raise IndexError,
     (Budget.with_strings self
        (MultiEditor.strings self ++ ["all_at_once"%string]),
      Console.mk rest (S k))).
Proof.
  intros Hn Hv Hm. rewrite edit_multi by exact Hn. cbn zeta.
  rewrite int_vals_str by lia.
  rewrite bool_decide_eq_false_2 by (rewrite list_elem_of_singleton; lia).
  cbn [fmap list_fmap]. unfold MultiEditor.edit_one, mbind.
  set (self1 := Budget.with_strings self _).
  destruct (edit_one_loop_cons cfg (v - 1) [] self1 (Console.mk rest (S k)))
    as [[-> _]|(m & own & i & Hb & _)]; [reflexivity|].
  exfalso. unfold MultiEditor.field_bound, Py.index in Hb.
  unfold self1, Budget.with_strings in Hb. cbn [MultiEditor.max_values] in Hb.
  rewrite decide_False in Hb by lia. rewrite decide_False in Hb by lia.
  discriminate Hb.
Qed.

(** Two fields and the number 7. *)
Lemma edit_number_unchecked_witness :
  fst (MultiEditor.edit Examples.maxes_on
         (Examples.two_fields, Console.mk ["7"; "30"]%string 0))
  = Raise IndexError.
Proof.
  change "7"%string with (Py.str 7).
  rewrite (edit_number_unchecked Examples.maxes_on Examples.two_fields 7
             ["30"%string] 0); [reflexivity | simpl; lia | simpl; lia | simpl; lia].
Defined.

(** X15.  The number 0 at the menu of [MultiEditor.edit] is taken as the
    index -1, which addresses the last field: the value typed next, clamped
    by the prompt of that field, becomes the last entry of [ints], and the
    other fields stay as they are. *)
Theorem edit_number_zero_is_last (cfg : Config) (self : MultiEditor.t)
    (m own u : Z) (line : string) (rest : list string) (k : nat) :
  (2 <= length (MultiEditor.strings self))%nat ->
  MultiEditor.field_bound cfg self (-1) = Some m ->
  last (MultiEditor.ints self) = Some own ->
  MultiEditor.items self <> [] ->
  Py.int line = Some u ->
  fst (MultiEditor.edit cfg (self, Console.mk ("0"%string :: line :: rest) k))
  = Ok (<[pred (length (MultiEditor.ints self))
          := IntInput.clamp_value (Budget.field_prompt cfg self m own) u]>
          (MultiEditor.ints self)).
Proof.
  intros Hn Hm Hown Hit Hu. rewrite edit_multi by exact Hn. cbn zeta.
  change (ChoiceInput.int_vals "0") with [0].
  rewrite bool_decide_eq_false_2 by (rewrite list_elem_of_singleton; lia).
  cbn [fmap list_fmap]. change (0 - 1) with (-1).
  set (self1 := Budget.with_strings self _).
  assert (exists x l, MultiEditor.ints self = x :: l) as (x & l & Hints).
  { destruct (MultiEditor.ints self) as [|x l]; [discriminate Hown | eauto]. }
  assert (Py.index (MultiEditor.ints self1) (-1)
          = Some (pred (length (MultiEditor.ints self)))) as Hk.
  { unfold Py.index, self1, Budget.with_strings. cbn [MultiEditor.ints].
    rewrite Hints. cbn [length]. rewrite decide_False by lia.
    rewrite decide_True by lia. f_equal. lia. }
  assert (MultiEditor.ints self1 !! pred (length (MultiEditor.ints self))
          = Some own) as Hl.
  { unfold self1, Budget.with_strings. cbn [MultiEditor.ints].
    by rewrite <- last_lookup. }
  assert (is_Some (Py.index (MultiEditor.items self1) (-1))) as Hi.
  { unfold Py.index, self1, Budget.with_strings. cbn [MultiEditor.items].
    destruct (MultiEditor.items self) as [|y l']; [done|]. cbn [length].
    rewrite decide_False by lia. rewrite decide_True by lia. eauto. }
  unfold MultiEditor.edit_one, mbind.
  rewrite (edit_one_loop_valid cfg (-1) [] self1 _ m own _ Hm Hk Hl Hi).
  change (Budget.field_prompt cfg self1 m own)
    with (Budget.field_prompt cfg self m own).
  rewrite (get_input_while_parsed _ line u) by exact Hu.
  reflexivity.
Qed.

(** Two fields: "0", then "40", changes the second field. *)
Lemma edit_number_zero_is_last_witness :
  fst (MultiEditor.edit Examples.maxes_on
         (Examples.two_fields, Console.mk ["0"; "40"]%string 0))
  = Ok [0; 40].
Proof.
  apply (edit_number_zero_is_last Examples.maxes_on Examples.two_fields
           50 0 40 "40" [] 0); [simpl; lia | reflexivity..| discriminate | reflexivity].
Defined.

(** ** [MultiEditor]: all fields at once *)

Section EditAll.

Import MultiEditor.

Lemma getitem_nat {A} (l : list A) (i : nat) (a : A) (s : st) :
  l !! i = Some a -> Py.getitem l (Z.of_nat i) s = (Ok a, s).
Proof.
  intros H. pose proof (lookup_lt_Some _ _ _ H) as Hi.
  unfold Py.getitem, Py.index. rewrite decide_True by lia.
  by rewrite Nat2Z.id, H.
Qed.

Lemma setitem_nat {A} (l : list A) (i : nat) (a : A) (s : st) :
  (i < length l)%nat -> Py.setitem l (Z.of_nat i) a s = (Ok (<[i := a]> l), s).
Proof.
  intros Hi. unfold Py.setitem, Py.index. rewrite decide_True by lia.
  by rewrite Nat2Z.id.
Qed.

Lemma field_bound_nat (cfg : Config) (self : t) (i : nat) (mv : option Z) :
  max_values self !! i = Some mv ->
  field_bound cfg self (Z.of_nat i) = Some (Budget.resolved cfg self mv).
Proof.
  intros H. pose proof (lookup_lt_Some _ _ _ H) as Hi.
  unfold field_bound, Py.index. rewrite decide_True by lia.
  rewrite Nat2Z.id, H. by destruct mv.
Qed.

Lemma all_bounds (cfg : Config) (self : t) :
  Forall2 (fun choice b => field_bound cfg self choice = Some b)
    (Z.of_nat <$> seq 0 (length (max_values self)))
    (Budget.resolved cfg self <$> max_values self).
Proof.
  apply Forall2_same_length_lookup_2.
  - by rewrite !length_fmap, length_seq.
  - intros i choice b Hc Hb.
    rewrite list_lookup_fmap in Hc. rewrite list_lookup_fmap in Hb.
    destruct (seq 0 (length (max_values self)) !! i) as [j|] eqn:Hj;
      [|discriminate].
    apply lookup_seq in Hj as [-> _]. injection Hc as <-.
    destruct (max_values self !! i) as [mv|] eqn:Hmv; [|discriminate].
    injection Hb as <-. by apply field_bound_nat.
Qed.

Lemma insert_next {A} (target l : list A) (a : nat) (x : A) :
  length target = length l -> target !! a = Some x ->
  <[a := x]> (take a target ++ drop a l) = take (S a) target ++ drop (S a) l.
Proof.
  intros Hlen Hx. pose proof (lookup_lt_Some _ _ _ Hx) as Ha.
  assert (length (take a target) = a) as Ht by (rewrite length_take; lia).
  rewrite insert_app_r_alt by lia. rewrite Ht, Nat.sub_diag.
  destruct (l !! a) as [y|] eqn:Hy;
    [|apply lookup_ge_None in Hy; lia].
  rewrite (drop_S _ _ _ Hy). cbn.
  rewrite (take_S_r _ _ _ Hx), <- app_assoc. reflexivity.
Qed.

(** The second loop of [edit_all] over the fields [a], [a + 1], ..., the
    fields before [a] being done already. *)
Lemma assign_all_from (cfg : Config) (self : t) (c : Console.t) (u : Z)
    (d a : nat) :
  let target := Budget.all_value cfg self u <$> max_values self in
  length (ints self) = length (max_values self) ->
  (length (max_values self) <= length (items self))%nat ->
  (a + d = length (max_values self))%nat ->
  assign_all cfg (Z.of_nat <$> seq a d) u
    (Budget.with_ints self (take a target ++ drop a (ints self)), c)
  = (Ok tt, (Budget.with_ints self target, c)).
Proof.
  intros target Hl Hi. revert a; induction d as [|d IH]; intros a Ha.
  - cbn [seq fmap list_fmap assign_all]. unfold mret.
    rewrite take_ge, drop_ge by (unfold target; rewrite ?length_fmap; lia).
    by rewrite app_nil_r.
  - cbn [seq fmap list_fmap assign_all].
    unfold mbind at 1, this at 1. cbn [fst].
    unfold mbind at 1. cbn [Budget.with_ints max_values].
    destruct (max_values self !! a) as [mv|] eqn:Hmv;
      [|apply lookup_ge_None in Hmv; lia].
    rewrite (getitem_nat _ a mv) by exact Hmv.
    cbn zeta. cbn [Budget.with_ints signed ints items].
    unfold mbind at 1.
    rewrite setitem_nat
      by (rewrite length_app, length_take, length_drop; unfold target;
          rewrite length_fmap; lia).
    unfold mbind at 1, set_ints.
    cbn [Budget.with_ints fst snd items strings max_values dialog
         is_single_choice signed cumulative_max].
    unfold mbind at 1.
    destruct (items self !! a) as [it|] eqn:Hit;
      [|apply lookup_ge_None in Hit; lia].
    rewrite (getitem_nat _ a it) by exact Hit.
    fold (Budget.all_value cfg self u mv).
    rewrite insert_next;
      [| unfold target; by rewrite length_fmap
       | unfold target; by rewrite list_lookup_fmap, Hmv].
    change (list_fmap nat Z Z.of_nat (seq (S a) d))
      with (Z.of_nat <$> seq (S a) d).
    apply (IH (S a)). lia.
Qed.

End EditAll.

(** X16.  "All at once" from the menu of [MultiEditor.edit]: with [n >= 2]
    fields, typing [n + 1] and then a number [v] prompts once, with the
    largest of the fields' bounds (divided by [n] under [cumulative_max]) as
    the bound, and leaves every field at the accepted input [u] or at its
    own maximum, whichever is smaller.  No field keeps its old value. *)
Theorem edit_all_at_once (cfg : Config) (self : MultiEditor.t) (v : Z)
    (line : string) (rest : list string) (k : nat) :
  let n := length (MultiEditor.max_values self) in
  (2 <= n)%nat ->
  length (MultiEditor.strings self) = n ->
  length (MultiEditor.ints self) = n ->
  (n <= length (MultiEditor.items self))%nat ->
  Py.int line = Some v ->
  let bounds := Budget.resolved cfg self <$> MultiEditor.max_values self in
  let bound :=
    if MultiEditor.cumulative_max self
    then foldr Z.max 0 bounds / Z.of_nat n
    else foldr Z.max 0 bounds in
  let u := IntInput.clamp_value (IntInput.init cfg (Some bound) 0 None true) v in
  fst (MultiEditor.edit cfg
         (self, Console.mk (Py.str (Z.of_nat (n + 1)) :: line :: rest) k))
  = Ok (Budget.all_value cfg self u <$> MultiEditor.max_values self).
Proof.
  intros n Hn Hs Hi Hit Hv bounds bound u.
  rewrite edit_multi by lia. cbn zeta. rewrite Hs. fold n.
  rewrite int_vals_str by lia.
  rewrite bool_decide_eq_true_2 by apply list_elem_of_here.
  set (self1 := Budget.with_strings self _).
  unfold MultiEditor.edit_all, mbind at 1.
  rewrite (shared_bound_eq cfg self1 _ _ bounds);
    [| destruct n; [lia | discriminate] | apply (all_bounds cfg self1)].
  rewrite length_fmap, length_seq.
  change (MultiEditor.cumulative_max self1) with (MultiEditor.cumulative_max self).
  fold bound.
  unfold mbind at 1, MultiEditor.console, IntInput.get_input_locale_while.
  cbn [fst snd].
  rewrite (get_input_while_parsed _ line v) by exact Hv.
  fold u. unfold mbind at 1.
  assert (MultiEditor.assign_all cfg (Z.of_nat <$> seq 0 n) u
            (self1, Console.mk rest (S (S k)))
          = (Ok tt,
             (Budget.with_ints self1
                (Budget.all_value cfg self1 u <$> MultiEditor.max_values self1),
              Console.mk rest (S (S k))))) as ->.
  { apply (assign_all_from cfg self1 (Console.mk rest (S (S k))) u n 0);
      [exact Hi | exact Hit | reflexivity]. }
  reflexivity.
Qed.

(** Two fields with maxima 100 and 50: "3", then "30". *)
Lemma edit_all_at_once_witness :
  fst (MultiEditor.edit Examples.maxes_on
         (Examples.two_fields, Console.mk ["3"; "30"]%string 0))
  = Ok [30; 30].
Proof.
  apply (edit_all_at_once Examples.maxes_on Examples.two_fields 30 "30" [] 0);
    [simpl; lia | reflexivity | reflexivity | simpl; lia | reflexivity].
Defined.

(** ** [download]: requests and retries *)

Section Retries.

Import GameDataGetter.

Context (env : Env) (self : t).

(** What one [save_file] does to the world. *)
Lemma save_file_world (p f : string) (w : World) :
  match save_file env self p f w with
  | (Ok (Some data), w') =>
      cached env self p f w' = Some (Data.data data) /\
      (exists u, requests w' = u :: requests w) /\
      (forall path, cached env self p f w = None ->
                    is_Some (files w !! path) -> files w' !! path = files w !! path)
  | (Ok None, w') =>
      files w' = files w /\
      (latest_version self = None /\ requests w' = requests w \/
       exists u, requests w' = u :: requests w)
  | (Raise e, w') =>
      files w' = files w /\ (exists u, requests w' = u :: requests w) /\
      exists k u, net env k u = Raise e
  end.
Proof.
  destruct (latest_version self) as [version|] eqn:Hv.
  - rewrite (save_file_eq env self p f version w Hv). cbn zeta.
    destruct (net env _ _) as [resp|e] eqn:Hnet.
    + destruct (status_code resp =? 200).
      * split; [|split].
        -- unfold cached, get_file_path. rewrite Hv. cbn [files].
           by rewrite lookup_insert_eq.
        -- eauto.
        -- intros path Hc [bs Hp]. cbn [files].
           unfold cached, get_file_path in Hc. rewrite Hv in Hc.
           rewrite lookup_insert_ne; [done|]. intros <-. congruence.
      * split; [done|]. right. eauto.
    + split; [done|]. split; eauto.
  - unfold save_file. rewrite get_file_packname. unfold get_file, mbind.
    rewrite Hv. split; [done|]. by left.
Qed.

Lemma download_requests (fuel : nat) (p f : string) (retries : Z) (d : bool)
    (w : World) :
  1 <= retries <= Z.of_nat fuel ->
  match download env fuel self p f retries d w with
  | (r, w') =>
      (exists us, requests w' = us ++ requests w /\
                  Z.of_nat (length us) <= retries - 1) /\
      match r with
      | Raise e => exists k u, net env k u = Raise e
      | Ok _ => True
      end
  end.
Proof.
  revert p retries w; induction fuel as [|fuel IH]; intros p retries w Hr;
    [lia|].
  rewrite download_step.
  destruct (cached env self p f w) as [bs|].
  { split; [exists []; split; [done | cbn; lia] | done]. }
  destruct (Z.eqb_spec (retries - 1) 0) as [|Hne].
  { split; [exists []; split; [done | cbn; lia] | done]. }
  destruct (latest_version self) as [version|].
  2: { split; [exists []; split; [done | cbn; lia] | done]. }
  pose proof (save_file_world p f w) as Hs.
  destruct (save_file env self p f w) as [[[data|]|e] w1].
  - destruct Hs as (_ & [u Hu] & _).
    split; [exists [u]; split; [done | cbn; lia] | done].
  - destruct Hs as (_ & Hreq).
    rewrite download_packname.
    specialize (IH p (retries - 1) w1 ltac:(lia)).
    destruct (download env fuel self p f (retries - 1) d w1) as [r w2].
    destruct IH as [(us & Hus & Hlen) Hraise]. split; [|exact Hraise].
    destruct Hreq as [[_ Hsame]|[u Hu]].
    + exists us. rewrite Hus, Hsame. split; [done | lia].
    + exists (us ++ [u]). rewrite Hus, Hu, <- app_assoc.
      split; [done|]. rewrite length_app. cbn. lia.
  - destruct Hs as (_ & [u Hu] & Hnet).
    split; [exists [u]; split; [done | cbn; lia] | exact Hnet].
Qed.

Lemma download_diverges (fuel : nat) (p f version : string) (retries : Z)
    (d : bool) (w : World) :
  Fetch.always_fails env ->
  latest_version self = Some version ->
  cached env self p f w = None ->
  retries <= 0 ->
  fst (download env fuel self p f retries d w) = Raise RecursionError /\
  length (requests (snd (download env fuel self p f retries d w)))
  = (length (requests w) + fuel)%nat /\
  files (snd (download env fuel self p f retries d w)) = files w.
Proof.
  intros Hfail Hv. revert p retries w.
  induction fuel as [|fuel IH]; intros p retries w Hc Hr.
  - cbn. repeat split. lia.
  - rewrite download_step, Hc, Hv.
    destruct (Z.eqb_spec (retries - 1) 0) as [|_]; [lia|].
    rewrite (save_file_eq env self p f version w Hv). cbn zeta.
    destruct (Hfail (length (requests w))
                (url self +:+ (version +:+ "/" +:+ get_packname env self p
                               +:+ "/" +:+ f))%string)
      as (resp & -> & Hst).
    destruct (Z.eqb_spec (status_code resp) 200) as [|_]; [done|].
    rewrite download_packname.
    set (w1 := mkWorld (files w) _).
    destruct (IH p (retries - 1) w1) as (H1 & H2 & H3); [done | lia|].
    rewrite H1, H2, H3. unfold w1. cbn [requests files length].
    repeat split. lia.
Qed.

Lemma download_keeps_files (fuel : nat) (p f : string) (retries : Z) (d : bool)
    (w : World) (path : list string) (bs : list Z) :
  files w !! path = Some bs ->
  files (snd (download env fuel self p f retries d w)) !! path = Some bs.
Proof.
  revert p retries w; induction fuel as [|fuel IH]; intros p retries w Hp;
    [exact Hp|].
  rewrite download_step.
  destruct (cached env self p f w) as [bs'|] eqn:Hc; [exact Hp|].
  destruct (retries - 1 =? 0); [exact Hp|].
  destruct (latest_version self); [|exact Hp].
  pose proof (save_file_world p f w) as Hs.
  destruct (save_file env self p f w) as [[[data|]|e] w1]; cbn [snd].
  - destruct Hs as (_ & _ & Hk). rewrite Hk; eauto.
  - destruct Hs as (Hf & _). rewrite download_packname.
    apply IH. by rewrite Hf.
  - destruct Hs as (Hf & _). by rewrite Hf.
Qed.

Lemma thread_run_many_keeps {S A} (P : S -> Prop) (tasks : list (M S A))
    (schedule : list nat) (s : S) :
  (forall task s', task ∈ tasks -> P s' -> P (snd (task s'))) ->
  P s -> P (snd (thread_run_many tasks schedule s)).
Proof.
  intros H. revert s; induction schedule as [|i schedule IH]; intros s Hs;
    [exact Hs|].
  cbn [thread_run_many].
  destruct (tasks !! i) as [task|] eqn:Hi; [|by apply IH].
  apply IH, H; [|exact Hs]. by eapply list_elem_of_lookup_2.
Qed.

End Retries.

(** X17.  [download] called with a retry budget of at least 1 (and room
    for as many self-calls) makes at most [retries - 1] requests, never runs
    out of recursion depth, and raises only what a request raised.  With
    the default budget of 2 that is one request at most. *)
Theorem download_bounded (env : GameDataGetter.Env) (self : GameDataGetter.t)
    (fuel : nat) (pack_name file_name : string) (retries : Z)
    (display_text : bool) (w : GameDataGetter.World) :
  1 <= retries <= Z.of_nat fuel ->
  match GameDataGetter.download env fuel self pack_name file_name retries
          display_text w with
  | (r, w') =>
      (exists us,
         GameDataGetter.requests w' = us ++ GameDataGetter.requests w /\
         Z.of_nat (length us) <= retries - 1) /\
      match r with
      | Raise e => exists k u, GameDataGetter.net env k u = Raise e
      | Ok _ => True
      end
  end.
Proof. apply download_requests. Qed.

(** The default budget against a repository that answers 404: one request,
    and no data. *)
Lemma download_bounded_witness :
  match GameDataGetter.download Cases.dead_repo 2 Examples.getter_en
          "resLocal" "a.csv" 2 true Examples.fresh with
  | (r, w') =>
      (exists us,
         GameDataGetter.requests w' = us ++ [] /\
         Z.of_nat (length us) <= 2 - 1) /\
      match r with
      | Raise e => exists k u, GameDataGetter.net Cases.dead_repo k u = Raise e
      | Ok _ => True
      end
  end.
Proof.
  apply (download_bounded Cases.dead_repo Examples.getter_en 2
           "resLocal" "a.csv" 2 true Examples.fresh).
  simpl; lia.
Defined.

(** X18.  A retry budget of 0 or less is no budget at all: the countdown
    never meets 0, so against a repository that never answers with status
    200 [download] asks again and again, one request for each self-call,
    until the recursion depth is used up; it ends in [RecursionError] at
    every depth and never returns "no data".  The cache is left as it
    was. *)
Theorem download_without_budget (env : GameDataGetter.Env)
    (self : GameDataGetter.t) (fuel : nat) (pack_name file_name version : string)
    (retries : Z) (display_text : bool) (w : GameDataGetter.World) :
  Fetch.always_fails env ->
  GameDataGetter.latest_version self = Some version ->
  GameDataGetter.cached env self pack_name file_name w = None ->
  retries <= 0 ->
  let result :=
    GameDataGetter.download env fuel self pack_name file_name retries
      display_text w in
  fst result = Raise RecursionError /\
  length (GameDataGetter.requests (snd result))
  = (length (GameDataGetter.requests w) + fuel)%nat /\
  GameDataGetter.files (snd result) = GameDataGetter.files w.
Proof. intros Hf Hv Hc Hr. by eapply download_diverges. Qed.

(** A budget of 0, a depth of 50: fifty requests. *)
Lemma download_without_budget_witness :
  let result :=
    GameDataGetter.download Cases.dead_repo 50 Examples.getter_en
      "resLocal" "a.csv" 0 true Examples.fresh in
  fst result = Raise RecursionError /\
  length (GameDataGetter.requests (snd result)) = (0 + 50)%nat /\
  GameDataGetter.files (snd result) = ∅.
Proof.
  apply (download_without_budget Cases.dead_repo Examples.getter_en 50
           "resLocal" "a.csv" "13.1.0" 0 true Examples.fresh).
  - intros k u. eexists. split; [reflexivity | discriminate].
  - reflexivity.
  - reflexivity.
  - lia.
Defined.

(** X19.  The cache only grows: a file that is cached stays cached with the
    same bytes through [download] and through [download_all], whatever the
    repository answers and in whatever order the fetch tasks complete. *)
Theorem cached_files_stay (env : GameDataGetter.Env) (self : GameDataGetter.t)
    (fuel : nat) (pack_name file_name : string) (retries : Z)
    (display_text : bool) (w : GameDataGetter.World)
    (path : list string) (bytes : list Z) :
  GameDataGetter.files w !! path = Some bytes ->
  GameDataGetter.files
    (snd (GameDataGetter.download env fuel self pack_name file_name retries
            display_text w)) !! path
  = Some bytes /\
  forall schedule file_names,
    GameDataGetter.files
      (snd (GameDataGetter.download_all env fuel schedule self pack_name
              file_names display_text w)) !! path
    = Some bytes.
Proof.
  intros Hp. split; [by apply download_keeps_files|].
  intros schedule file_names. rewrite download_all_eq. cbn [snd].
  apply (thread_run_many_keeps
           (fun w => GameDataGetter.files w !! path = Some bytes)); [|exact Hp].
  intros task w' Hin Hw'.
  apply list_elem_of_fmap in Hin as (f & -> & _).
  by apply download_keeps_files.
Qed.

(** A cached file and a download of another one. *)
Lemma cached_files_stay_witness :
  let w := GameDataGetter.mkWorld
             {[ ["game_data"; "13.1.0"; "DataLocal"; "b.csv"]%string := [7; 8] ]}
             [] in
  GameDataGetter.files
    (snd (GameDataGetter.download Examples.repo 3 Examples.getter_en
            "resLocal" "a.csv" 2 true w))
    !! ["game_data"; "13.1.0"; "DataLocal"; "b.csv"]%string
  = Some [7; 8].
Proof.
  intros w.
  apply (cached_files_stay Examples.repo Examples.getter_en 3 "resLocal" "a.csv"
           2 true w).
  apply lookup_singleton_eq.
Defined.

(** ** Splitting paths and version lists *)

Section Splitting.

Import Fetch.

Lemma split_on_nonempty (sep : ascii) (s : string) : split_on sep s <> [].
Proof.
  induction s as [|c r IH]; [done|]. cbn [split_on].
  destruct (split_on sep r); [done|]. by destruct (Ascii.eqb c sep).
Qed.

Lemma split_on_length (sep : ascii) (s : string) :
  length (split_on sep s) = S (occurrences sep s).
Proof.
  induction s as [|c r IH]; [reflexivity|]. cbn [split_on occurrences].
  destruct (split_on sep r) as [|h t] eqn:E;
    [by apply split_on_nonempty in E|].
  destruct (Ascii.eqb c sep); cbn [length] in *; lia.
Qed.

Lemma split_on_free (sep : ascii) (s : string) :
  free_of sep s = true -> split_on sep s = [s].
Proof.
  induction s as [|c r IH]; [reflexivity|]. cbn [free_of split_on].
  intros [Hc Hr]%andb_true_iff. rewrite (IH Hr).
  by destruct (Ascii.eqb c sep).
Qed.

Lemma split_on_app (sep : ascii) (a b : string) :
  free_of sep a = true ->
  split_on sep (a +:+ String sep b) = a :: split_on sep b.
Proof.
  induction a as [|c r IH]; simpl.
  - intros _. rewrite Ascii.eqb_refl.
    destruct (split_on sep b) eqn:E; [by apply split_on_nonempty in E | done].
  - intros [Hc Hr]%andb_true_iff. rewrite (IH Hr).
    by destruct (Ascii.eqb c sep).
Qed.


End Splitting.

(** X20.  [download_from_path] takes a path of exactly two parts: it
    raises [ValueError] before anything else happens unless the path holds
    exactly one "/", and on [pack/file] it does what [download] does on
    [pack] and [file]. *)
Theorem download_from_path_parts (env : GameDataGetter.Env)
    (self : GameDataGetter.t) (fuel : nat) (retries : Z) (display_text : bool)
    (path pack_name file_name : string) :
  (is_Some (Fetch.download_from_path env fuel self path retries display_text)
   <-> Fetch.occurrences "/" path = 1%nat) /\
  (Fetch.free_of "/" pack_name = true ->
   Fetch.free_of "/" file_name = true ->
   Fetch.download_from_path env fuel self
     (pack_name +:+ "/" +:+ file_name)%string retries display_text
   = Some (GameDataGetter.download env fuel self pack_name file_name retries
             display_text)).
Proof.
  split.
  - unfold Fetch.download_from_path.
    pose proof (split_on_length "/" path) as Hl.
    destruct (Fetch.split_on "/" path) as [|a [|b [|c l]]]; cbn [length] in Hl.
    + split; [by intros [? ?] | lia].
    + split; [by intros [? ?] | lia].
    + split; [lia | eauto].
    + split; [by intros [? ?] | lia].
  - intros Hp Hf. unfold Fetch.download_from_path.
    change (pack_name +:+ "/" +:+ file_name)%string
      with (pack_name +:+ String "/" file_name)%string.
    rewrite split_on_app, split_on_free by assumption.
    by rewrite download_packname.
Qed.

(** A path of two parts. *)
Lemma download_from_path_parts_witness :
  Fetch.download_from_path Examples.repo 3 Examples.getter_en
    "DataLocal/unitbuy.csv" 2 true
  = Some (GameDataGetter.download Examples.repo 3 Examples.getter_en
            "DataLocal" "unitbuy.csv" 2 true).
Proof.
  apply (download_from_path_parts Examples.repo Examples.getter_en 3 2 true
           "" "DataLocal" "unitbuy.csv"); reflexivity.
Defined.



(** ** [Enigma.edit_enigma] *)

Section EnigmaEditFacts.

Import EnigmaEdit.

Lemma names_list_length (unknown : Z -> string) (names : gmap Z (option string)) :
  length (names_list unknown names) = size names.
Proof.
  unfold names_list. rewrite length_fmap.
  rewrite (Permutation_length (merge_sort_Permutation Z.le _)).
  by rewrite <- size_dom.
Qed.

Lemma append_stages_eq (clock : nat -> Z) (tick : nat) (ids : list Z)
    (stages : list Stage.t) :
  append_stages clock tick ids stages
  = stages ++ imap (fun i id => new_stage id (clock (tick + i)%nat)) ids.
Proof.
  revert tick stages; induction ids as [|id ids IH]; intros tick stages.
  - cbn. by rewrite app_nil_r.
  - cbn [append_stages]. rewrite IH, imap_cons, <- app_assoc. cbn [app].
    rewrite Nat.add_0_r. do 2 f_equal.
    apply imap_ext. intros i x _. cbn. unfold new_stage. do 2 f_equal. lia.
Qed.

Lemma multiple_choice_multi (self : ChoiceInput.t) (line : string) rest k :
  ChoiceInput.is_single_choice self = false ->
  (2 <= length (ChoiceInput.strings self))%nat ->
  ChoiceInput.multiple_choice (self, Console.mk (line :: rest) k)
  = (Ok (if bool_decide (Z.of_nat (length (ChoiceInput.strings self) + 1)
                         ∈ ChoiceInput.int_vals line)
         then (Z.of_nat <$> seq 0 (length (ChoiceInput.strings self)), true)
         else ((fun i => i - 1) <$> ChoiceInput.int_vals line, false)),
     (ChoiceLoop.grown self, Console.mk rest (S k))).
Proof.
  intros Hm Hn. unfold ChoiceInput.multiple_choice, mbind.
  rewrite get_input_locale_multi by assumption.
  case_bool_decide; cbn; [by rewrite shift_indices | reflexivity].
Qed.

End EnigmaEditFacts.

(** The menu step of [edit_enigma] and the appending that follows it. *)
Local Ltac choose_step :=
  unfold mbind, mret, EnigmaEdit.set_stages; cbn [snd fst];
  rewrite multiple_choice_multi
    by (cbn [ChoiceInput.is_single_choice ChoiceInput.strings];
        rewrite ?names_list_length; done);
  cbn [ChoiceInput.strings]; rewrite names_list_length;
  unfold mbind, EnigmaEdit.this, EnigmaEdit.set_stages; cbn [fst snd];
  rewrite append_stages_eq;
  unfold EnigmaEdit.chosen, EnigmaEdit.added, EnigmaEdit.with_stages;
  cbn [Enigma.energy_since_1 Enigma.energy_since_2 Enigma.enigma_level
       Enigma.unknown_1 Enigma.unknown_2 Enigma.stages].

(** X22.  [edit_enigma] on a table of [n >= 2] names, every current stage
    being in the table: it asks whether to wipe only when there are stages,
    and then appends one stage of level 3 and status 2 for every chosen
    position, with the position plus 25000 as its id.  The positions are
    every position of the menu when the line holds [n + 1], otherwise the
    typed numbers less one, as they are: they are not checked against the
    table, and nothing bounds how many stages there are in the end. *)
Theorem edit_enigma_appends (unknown : Z -> string) (yes_key : string)
    (clock : nat -> Z) (names : gmap Z (option string)) (self : Enigma.t)
    (answer line : string) (rest : list string) (k : nat) :
  (2 <= size names)%nat ->
  EnigmaEdit.all_named names (Enigma.stages self) = true ->
  exists run,
    EnigmaEdit.edit_enigma unknown yes_key clock names self = Some run /\
    let added := EnigmaEdit.added clock (EnigmaEdit.chosen (size names) line) in
    (Enigma.stages self = [] ->
     run (self, Console.mk (line :: rest) k)
     = (Ok tt, (EnigmaEdit.with_stages self added, Console.mk rest (S k)))) /\
    (Enigma.stages self <> [] ->
     run (self, Console.mk (answer :: line :: rest) k)
     = (Ok tt,
        (EnigmaEdit.with_stages self
           ((if EnigmaEdit.wipes yes_key answer then [] else Enigma.stages self)
            ++ added),
         Console.mk rest (S (S k))))).
Proof.
  intros Hn Hall. unfold EnigmaEdit.edit_enigma. rewrite Hall.
  eexists. split; [reflexivity|]. cbn zeta.
  split.
  - intros Hs. unfold mbind at 1. rewrite Hs.
    rewrite bool_decide_eq_false_2 by (by intros ?).
    choose_step. rewrite Hs. by case_bool_decide.
  - intros Hs. unfold mbind at 1.
    rewrite bool_decide_eq_true_2 by exact Hs.
    unfold mbind at 1, EnigmaEdit.console, YesNoInput.get_input_once, mbind,
      Console.get.
    cbn [snd fst Console.pending Console.prompts YesNoInput.default].
    unfold EnigmaEdit.wipes.
    destruct (String.eqb answer ""); [|destruct (String.eqb answer yes_key)];
      choose_step; by case_bool_decide.
Qed.

Lemma edit_enigma_appends_witness :
  exists run,
    EnigmaEdit.edit_enigma (fun _ => "?") "y" Z.of_nat
      {[ 0 := Some "a"; 1 := None ]} (Enigma.mk 0 0 0 0 false []) = Some run /\
    run (Enigma.mk 0 0 0 0 false [], Console.mk ["2 7"] 0)
    = (Ok tt,
       (Enigma.mk 0 0 0 0 false [Stage.mk 3 25001 2 0; Stage.mk 3 25006 2 1],
        Console.mk [] 1)).
Proof.
  destruct (edit_enigma_appends (fun _ => "?") "y" Z.of_nat
              {[ 0 := Some "a"; 1 := None ]} (Enigma.mk 0 0 0 0 false [])
              "" "2 7" [] 0%nat) as (run & Hrun & Hfresh & _).
  - vm_compute. lia.
  - reflexivity.
  - exists run. split; [exact Hrun|]. rewrite (Hfresh eq_refl). reflexivity.
Defined.

Lemma all_named_lacking (names : gmap Z (option string)) stages stage :
  stage ∈ stages ->
  names !! (Stage.stage_id stage - EnigmaEdit.base_level) = None ->
  EnigmaEdit.all_named names stages = false.
Proof.
  intros Hin Hnone. unfold EnigmaEdit.all_named.
  induction Hin as [stage l | stage y l _ IH]; cbn [forallb].
  - rewrite Hnone. rewrite bool_decide_eq_false_2; [done|].
    by intros [? ?].
  - rewrite (IH Hnone). apply andb_false_r.
Qed.

(** With no stage yet and a table of at least two names, [edit_enigma]
    takes one line and stores the stages of the chosen positions. *)
Lemma edit_enigma_fresh (unknown : Z -> string) (yes_key : string)
    (clock : nat -> Z) (names : gmap Z (option string)) (self : Enigma.t)
    (line : string) (rest : list string) (k : nat) :
  (2 <= size names)%nat ->
  Enigma.stages self = [] ->
  exists run,
    EnigmaEdit.edit_enigma unknown yes_key clock names self = Some run /\
    run (self, Console.mk (line :: rest) k)
    = (Ok tt,
       (EnigmaEdit.with_stages self
          (EnigmaEdit.added clock (EnigmaEdit.chosen (size names) line)),
        Console.mk rest (S k))).
Proof.
  intros Hn Hs. unfold EnigmaEdit.edit_enigma. rewrite Hs.
  cbn [EnigmaEdit.all_named forallb].
  eexists. split; [reflexivity|]. cbn zeta.
  rewrite bool_decide_eq_false_2 by (by intros ?).
  choose_step. rewrite Hs. by case_bool_decide.
Qed.

(** X23.  [edit_enigma] looks every current stage up in the name table
    before it asks anything, so a stage whose id less 25000 is no key of the
    table makes it raise [KeyError] with nothing read and nothing changed.
    Its own menu can produce such a stage: on an [Enigma] without stages, a
    line that holds a number [v] with [v - 1] outside the table (and not the
    number of the all-at-once entry) is accepted and stored, and the next
    [edit_enigma] on the result raises. *)
Theorem edit_enigma_key_error (unknown : Z -> string) (yes_key : string)
    (clock : nat -> Z) (names : gmap Z (option string)) (self : Enigma.t)
    (line : string) (rest : list string) (k : nat) (v : Z) :
  (2 <= size names)%nat ->
  v ∈ ChoiceInput.int_vals line ->
  Z.of_nat (size names + 1) ∉ ChoiceInput.int_vals line ->
  names !! (v - 1) = None ->
  (forall stage other,
     stage ∈ Enigma.stages other ->
     names !! (Stage.stage_id stage - 25000) = None ->
     EnigmaEdit.edit_enigma unknown yes_key clock names other = None) /\
  (Enigma.stages self = [] ->
   exists run after c,
     EnigmaEdit.edit_enigma unknown yes_key clock names self = Some run /\
     run (self, Console.mk (line :: rest) k) = (Ok tt, (after, c)) /\
     length (Enigma.stages after) = length (ChoiceInput.int_vals line) /\
     EnigmaEdit.edit_enigma unknown yes_key clock names after = None).
Proof.
  intros Hn Hv Hall Hnone.
  assert (forall stage other,
     stage ∈ Enigma.stages other ->
     names !! (Stage.stage_id stage - 25000) = None ->
     EnigmaEdit.edit_enigma unknown yes_key clock names other = None) as Hkey.
  { intros stage other Hin Hlack. unfold EnigmaEdit.edit_enigma.
    by rewrite (all_named_lacking names _ stage Hin Hlack). }
  split; [exact Hkey|].
  intros Hs.
  destruct (edit_enigma_fresh unknown yes_key clock names self line rest k Hn Hs)
    as (run & Hrun & Hres).
  exists run. eexists. eexists. split; [exact Hrun|]. split; [exact Hres|].
  assert (EnigmaEdit.chosen (size names) line
          = (fun i => i - 1) <$> ChoiceInput.int_vals line) as Hch.
  { unfold EnigmaEdit.chosen. by rewrite bool_decide_eq_false_2. }
  split.
  - cbn [EnigmaEdit.with_stages Enigma.stages]. unfold EnigmaEdit.added.
    by rewrite length_imap, Hch, length_fmap.
  - apply list_elem_of_lookup_1 in Hv as [i Hi].
    apply (Hkey (EnigmaEdit.new_stage (v - 1) (clock i))).
    + cbn [EnigmaEdit.with_stages Enigma.stages]. unfold EnigmaEdit.added.
      apply (list_elem_of_lookup_2 _ i). rewrite list_lookup_imap, Hch.
      rewrite list_lookup_fmap, Hi. reflexivity.
    + cbn [EnigmaEdit.new_stage Stage.stage_id]. unfold EnigmaEdit.base_level.
      replace (v - 1 + 25000 - 25000) with (v - 1) by lia. exact Hnone.
Qed.

Lemma edit_enigma_key_error_witness :
  exists run after c,
    EnigmaEdit.edit_enigma (fun _ => "?") "y" Z.of_nat
      {[ 0 := Some "a"; 1 := None ]} (Enigma.mk 0 0 0 0 false []) = Some run /\
    run (Enigma.mk 0 0 0 0 false [], Console.mk ["2 7"] 0) = (Ok tt, (after, c)) /\
    length (Enigma.stages after) = 2%nat /\
    EnigmaEdit.edit_enigma (fun _ => "?") "y" Z.of_nat
      {[ 0 := Some "a"; 1 := None ]} after = None.
Proof.
  destruct (edit_enigma_key_error (fun _ => "?") "y" Z.of_nat
              {[ 0 := Some "a"; 1 := None ]} (Enigma.mk 0 0 0 0 false [])
              "2 7" [] 0%nat 7) as (_ & H).
  - vm_compute. lia.
  - vm_compute. apply elem_of_cons. right. apply list_elem_of_here.
  - vm_compute. intros Hin.
    repeat (apply elem_of_cons in Hin as [Hin | Hin]; [discriminate Hin|]).
    by apply elem_of_nil in Hin.
  - reflexivity.
  - exact (H eq_refl).
Defined.

(** X24.  [IntInput.get_basic_input_locale] answers with the typed number
    as it is, where [get_input] on the same line answers with the number
    clamped into the object's range; and on an empty line it answers [None]
    whatever the object's default, where [get_input] answers with the
    default.  Both take exactly the one line. *)
Theorem basic_input_unclamped (self : IntInput.t) (line : string) (v d : Z)
    (rest : list string) (k : nat) :
  Py.int line = Some v ->
  BasicInput.get_basic_input_locale self (Console.mk (line :: rest) k)
  = (Ok (Some v), Console.mk rest (S k)) /\
  IntInput.get_input self (Console.mk (line :: rest) k)
  = (Ok (Some (IntInput.clamp_value self v), line), Console.mk rest (S k)) /\
  BasicInput.get_basic_input_locale self (Console.mk ("" :: rest) k)
  = (Ok None, Console.mk rest (S k)) /\
  (IntInput.default self = Some d ->
   IntInput.get_input self (Console.mk ("" :: rest) k)
   = (Ok (Some d, ""), Console.mk rest (S k))).
Proof.
  intros Hv. pose proof (int_nonempty line v Hv) as Hne.
  unfold BasicInput.get_basic_input_locale, IntInput.get_input, mbind,
    Console.get.
  cbn [Console.pending Console.prompts]. rewrite Hv.
  repeat split.
  - destruct (String.eqb_spec line ""); [done|]. reflexivity.
  - intros Hd. rewrite Hd. reflexivity.
Qed.

Lemma basic_input_unclamped_witness :
  BasicInput.get_basic_input_locale (IntInput.mk true 10 1 (Some 5))
    (Console.mk ["42"] 0)
  = (Ok (Some 42), Console.mk [] 1) /\
  IntInput.get_input (IntInput.mk true 10 1 (Some 5)) (Console.mk ["42"] 0)
  = (Ok (Some 10, "42"), Console.mk [] 1).
Proof.
  destruct (basic_input_unclamped (IntInput.mk true 10 1 (Some 5)) "42" 42 5
              [] 0%nat) as (Hb & Hi & _).
  - reflexivity.
  - split; [exact Hb | exact Hi].
Defined.

(** X25.  A menu of no entry or one entry asks nothing: [ChoiceInput.get]
    and [get_input_locale_while] answer at once, with nothing for an empty
    menu and with the one entry otherwise, and leave the object and the
    console as they were; no "all at once" entry is appended. *)
Theorem short_menu_asks_nothing (cfg : Config) (self : ChoiceInput.t)
    (c : Console.t) :
  (length (ChoiceInput.strings self) <= 1)%nat ->
  ChoiceInput.get cfg (self, c)
  = (Ok (if ChoiceInput.is_single_choice self
         then match ChoiceInput.strings self with
              | [] => ChoiceInput.NoChoice
              | _ => ChoiceInput.IntChoice 1
              end
         else match ChoiceInput.strings self with
              | [] => ChoiceInput.ListChoice []
              | _ => ChoiceInput.ListChoice [0]
              end, false),
     (self, c)) /\
  ChoiceLoop.get_input_locale_while (self, c)
  = (Ok (match ChoiceInput.strings self with [] => [] | _ => [1] end),
     (self, c)).
Proof.
  destruct self as [items strings ints dialog single].
  cbn [ChoiceInput.strings ChoiceInput.is_single_choice].
  intros Hn. destruct strings as [|s [|s' strings]]; [| |cbn in Hn; lia];
    destruct single; split; reflexivity.
Qed.

Lemma short_menu_asks_nothing_witness :
  ChoiceInput.get Examples.maxes_on
    (ChoiceInput.mk ["a"] ["a"] [] "d" false, Console.mk ["9"] 0)
  = (Ok (ChoiceInput.ListChoice [0], false),
     (ChoiceInput.mk ["a"] ["a"] [] "d" false, Console.mk ["9"] 0)).
Proof.
  destruct (short_menu_asks_nothing Examples.maxes_on
              (ChoiceInput.mk ["a"] ["a"] [] "d" false) (Console.mk ["9"] 0))
    as (H & _).
  - cbn. lia.
  - exact H.
Defined.

(** X26.  [edit_enigma] with a name table of one entry and no stage yet
    adds the stage 25000 without asking anything, whatever the key of the
    one entry is; with an empty table it adds nothing. *)
Theorem edit_enigma_short_table (unknown : Z -> string) (yes_key : string)
    (clock : nat -> Z) (names : gmap Z (option string)) (self : Enigma.t)
    (c : Console.t) :
  (size names <= 1)%nat ->
  Enigma.stages self = [] ->
  exists run,
    EnigmaEdit.edit_enigma unknown yes_key clock names self = Some run /\
    run (self, c)
    = (Ok tt,
       (EnigmaEdit.with_stages self
          (if decide (size names = 0%nat) then []
           else [Stage.mk 3 25000 2 (clock 0%nat)]),
        c)).
Proof.
  intros Hn Hs. destruct self as [e1 e2 lv u1 u2 stages].
  cbn [Enigma.stages] in Hs. subst stages.
  unfold EnigmaEdit.edit_enigma. cbn [Enigma.stages EnigmaEdit.all_named forallb].
  eexists. split; [reflexivity|]. cbn zeta.
  pose proof (names_list_length unknown names) as Hl.
  destruct (EnigmaEdit.names_list unknown names) as [|x [|y l]];
    cbn [length] in Hl; [| |lia]; rewrite <- Hl; reflexivity.
Qed.

Lemma edit_enigma_short_table_witness :
  exists run,
    EnigmaEdit.edit_enigma (fun _ => "?") "y" Z.of_nat {[ 41 := Some "a" ]}
      (Enigma.mk 0 0 0 0 false []) = Some run /\
    run (Enigma.mk 0 0 0 0 false [], Console.mk ["9"] 0)
    = (Ok tt,
       (Enigma.mk 0 0 0 0 false [Stage.mk 3 25000 2 0], Console.mk ["9"] 0)).
Proof.
  destruct (edit_enigma_short_table (fun _ => "?") "y" Z.of_nat
              {[ 41 := Some "a" ]} (Enigma.mk 0 0 0 0 false [])
              (Console.mk ["9"] 0)) as (run & Hrun & H).
  - vm_compute. lia.
  - reflexivity.
  - exists run. split; [exact Hrun | exact H].
Defined.

Section ShortMaxList.

Import MultiEditor.

Lemma getitem_at_length {A} (l : list A) (s : st) :
  Py.getitem l (Z.of_nat (length l)) s = (Raise IndexError, s).
Proof.
  unfold Py.getitem, Py.index.
  rewrite decide_False by lia. rewrite decide_False by lia. reflexivity.
Qed.

(** The first loop of [edit_all] over the positions [a .. a + d - 1], the
    list of maxes ending among them. *)
Lemma max_max_loop_short (cfg : Config) (self : t) (c : Console.t)
    (d a : nat) (acc : Z) :
  (a <= length (max_values self))%nat ->
  (length (max_values self) < a + d)%nat ->
  max_max_loop cfg (Z.of_nat <$> seq a d) acc (self, c)
  = (Raise IndexError, (self, c)).
Proof.
  revert a acc. induction d as [|d IH]; intros a acc Ha Hd; [lia|].
  cbn [seq fmap list_fmap max_max_loop].
  unfold mbind at 1, this at 1. cbn [fst]. unfold mbind at 1.
  destruct (max_values self !! a) as [mv|] eqn:Hmv.
  - rewrite (getitem_nat _ a mv) by exact Hmv.
    apply lookup_lt_Some in Hmv. apply IH; lia.
  - apply lookup_ge_None in Hmv.
    replace a with (length (max_values self)) by lia.
    by rewrite getitem_at_length.
Qed.

End ShortMaxList.

(** X27.  Nothing in [MultiEditor] checks that the list of maxes is as long
    as the menu.  With fewer maxes than menu entries, choosing "all at once"
    raises [IndexError] while the shared bound is computed: the number is
    never asked for, no field is changed, and only the menu line is read. *)
Theorem edit_all_short_max_list (cfg : Config) (self : MultiEditor.t)
    (rest : list string) (k : nat) :
  let n := length (MultiEditor.strings self) in
  (2 <= n)%nat ->
  (length (MultiEditor.max_values self) < n)%nat ->
  MultiEditor.edit cfg (self, Console.mk (Py.str (Z.of_nat (n + 1)) :: rest) k)
  = (Raise IndexError,
     (Budget.with_strings self
        (MultiEditor.strings self ++ ["all_at_once"%string]),
      Console.mk rest (S k))).
Proof.
  intros n Hn Hm. rewrite edit_multi by exact Hn. cbn zeta. fold n.
  rewrite int_vals_str by lia.
  rewrite bool_decide_eq_true_2 by apply list_elem_of_here.
  set (self1 := Budget.with_strings self _).
  unfold MultiEditor.edit_all, mbind at 1, MultiEditor.shared_bound,
    mbind at 1, MultiEditor.this at 1.
  cbn [fst]. unfold mbind at 1.
  rewrite (max_max_loop_short cfg self1 _ n 0 0)
    by (unfold self1, Budget.with_strings; cbn [MultiEditor.max_values]; lia).
  reflexivity.
Qed.

(** Three entries, two maxes. *)
Lemma edit_all_short_max_list_witness :
  MultiEditor.edit Examples.maxes_on
    (MultiEditor.init ["a"; "b"; "c"] ["a"; "b"; "c"] [1; 2; 3]
       (MultiEditor.MaxList [Some 10; Some 20]) "input" false true false,
     Console.mk ["4"; "5"] 0)
  = (Raise IndexError,
     (MultiEditor.mk ["a"; "b"; "c"] ["a"; "b"; "c"; "all_at_once"] [1; 2; 3]
        [Some 10; Some 20] "input" false true false,
      Console.mk ["5"] 1)).
Proof.
  apply (edit_all_short_max_list Examples.maxes_on
           (MultiEditor.init ["a"; "b"; "c"] ["a"; "b"; "c"] [1; 2; 3]
              (MultiEditor.MaxList [Some 10; Some 20]) "input" false true false)
           ["5"] 0%nat); cbn; lia.
Defined.

(** X28.  With the default budget of 2, [download] of a file the cache lacks
    makes exactly one request, for [{url}{version}/{pack}/{file}] with the
    pack name adjusted.  On status 200 the content is returned and stored at
    [game_data/{version}/{pack}/{file}]; on any other status the answer is
    [None], nothing is stored, and there is no second attempt. *)
Theorem download_default_one_attempt (env : GameDataGetter.Env)
    (self : GameDataGetter.t) (pack_name file_name version : string)
    (w : GameDataGetter.World) (fuel : nat) (display_text : bool)
    (resp : GameDataGetter.Response) :
  let pack := GameDataGetter.get_packname env self pack_name in
  let u := (GameDataGetter.url self
            +:+ (version +:+ "/" +:+ pack +:+ "/" +:+ file_name))%string in
  let path := ["game_data"%string; version; pack; file_name] in
  GameDataGetter.latest_version self = Some version ->
  GameDataGetter.files w !! path = None ->
  GameDataGetter.net env (length (GameDataGetter.requests w)) u = Ok resp ->
  GameDataGetter.download env (S (S fuel)) self pack_name file_name 2
    display_text w
  = if GameDataGetter.status_code resp =? 200
    then (Ok (Some (Data.of_bytes (GameDataGetter.content resp))),
          GameDataGetter.mkWorld
            (<[path := GameDataGetter.content resp]> (GameDataGetter.files w))
            (u :: GameDataGetter.requests w))
    else (Ok None,
          GameDataGetter.mkWorld (GameDataGetter.files w)
            (u :: GameDataGetter.requests w)).
Proof.
  intros pack u path Hv Hc Hnet. subst pack u path.
  assert (forall w', GameDataGetter.files w' = GameDataGetter.files w ->
            GameDataGetter.cached env self pack_name file_name w' = None) as Hno.
  { intros w' Hw. unfold GameDataGetter.cached, GameDataGetter.get_file_path.
    rewrite Hv, Hw. exact Hc. }
  rewrite download_step, (Hno w eq_refl). change (2 - 1 =? 0) with false.
  cbv iota. rewrite Hv.
  rewrite (save_file_eq env self pack_name file_name version w Hv). cbn zeta.
  rewrite Hnet.
  destruct (GameDataGetter.status_code resp =? 200); [reflexivity|].
  rewrite download_packname, download_step, Hno by reflexivity.
  reflexivity.
Qed.

Lemma download_default_one_attempt_witness :
  GameDataGetter.download Examples.repo 2 Examples.getter_en "resLocal"
    "a.csv" 2 true Examples.fresh
  = (Ok (Some (Data.of_bytes [1; 2; 3])),
     GameDataGetter.mkWorld
       {[ ["game_data"; "13.1.0"; "resLocal_fr"; "a.csv"]%string := [1; 2; 3] ]}
       ["https://repo/13.1.0/resLocal_fr/a.csv"%string]).
Proof.
  rewrite (download_default_one_attempt Examples.repo Examples.getter_en
             "resLocal" "a.csv" "13.1.0" Examples.fresh 0 true
             {| GameDataGetter.status_code := 200;
                GameDataGetter.content := [1; 2; 3];
                GameDataGetter.text := "" |});
    reflexivity.
Defined.
